(** * Atlas unified recall: chunking, index state and the recall pipeline

    A shallow embedding of [unified/atlas_recall.py] and the properties its
    specification states about it.

    Conventions of the embedding.
    - A Python [str] is a [string]; a character is a code point below 256.
    - A Python [int] is a [Z]; a length is a [nat] injected into [Z].
    - A Python [list] is a [list]; a [dict] with string keys is an
      association list in insertion order with pairwise distinct keys.
    - A score (a Python float) is a rational number [Q]: the pipeline
      stores, compares and sorts scores, and subtracts a distance from 1,
      exactly here and rounded to a double in the code.
    - A call that may raise is a computation in the exception monad [exc];
      an exception of the interpreter carries its [str(e)], an error of
      [json.loads] its [msg], without the position. *)

From Stdlib Require Import List String Ascii ZArith QArith Lia Bool Arith.
From Stdlib Require Import Permutation Sorted.
Import ListNotations.

Local Open Scope string_scope.
Local Open Scope list_scope.
Local Open Scope Z_scope.

Set Warnings "-register-all".

(** ** Strings the way Python sees them *)

Module PyStr.

Definition newline : ascii := "010"%char.
Definition hash : ascii := "#"%char.

(** [len(s)] *)
Definition len (s : string) : Z := Z.of_nat (String.length s).

(** [s.split('\n')]: never the empty list. *)
Fixpoint split_lines (s : string) : list string :=
  match s with
  | EmptyString => [EmptyString]
  | String c rest =>
      if Ascii.eqb c newline then EmptyString :: split_lines rest
      else match split_lines rest with
           | [] => [String c EmptyString]
           | l :: ls => String c l :: ls
           end
  end.

(** [sep.join(l)] is [String.concat sep l]. *)
Definition join (sep : string) (l : list string) : string :=
  String.concat sep l.

(** [s.startswith('#')] *)
Definition startswith_hash (s : string) : bool :=
  match s with
  | String c _ => Ascii.eqb c hash
  | EmptyString => false
  end.

(** [s.lstrip('#')] *)
Fixpoint lstrip_hash (s : string) : string :=
  match s with
  | String c rest => if Ascii.eqb c hash then lstrip_hash rest else s
  | EmptyString => EmptyString
  end.

(** [str.isspace] on one code point below 256: TAB..CR, FS..US, SPACE,
    NEL and NBSP. *)
Definition is_space (c : ascii) : bool :=
  let n := N_of_ascii c in
  ((9 <=? n) && (n <=? 13) || (28 <=? n) && (n <=? 32)
   || (n =? 133) || (n =? 160))%N.

Fixpoint lstrip (s : string) : string :=
  match s with
  | String c rest => if is_space c then lstrip rest else s
  | EmptyString => EmptyString
  end.

Fixpoint rstrip (s : string) : string :=
  match s with
  | EmptyString => EmptyString
  | String c rest =>
      match rstrip rest with
      | EmptyString => if is_space c then EmptyString else String c EmptyString
      | r => String c r
      end
  end.

(** [s.strip()] *)
Definition strip (s : string) : string := rstrip (lstrip s).

(** [s[:n]] for [n >= 0]. *)
Fixpoint take (n : nat) (s : string) : string :=
  match n, s with
  | S n', String c rest => String c (take n' rest)
  | _, _ => EmptyString
  end.

Definition no_newline (s : string) : Prop :=
  forall c, In c (list_ascii_of_string s) -> c <> newline.

End PyStr.

(** ** [chunk_markdown] *)

Module Chunker.
Import PyStr.

(** One element of the returned list: the dict
    [{'text': ..., 'headers': ..., 'size': ...}]. *)
Record Chunk := mkChunk {
  text : string;
  headers : string;
  size : Z
}.

(** The four local variables of the loop. *)
Record State := mkState {
  chunks : list Chunk;
  current_chunk : list string;
  current_headers : list string;
  current_size : Z
}.

(** [sum(len(l) for l in current_chunk)] *)
Definition sum_len (l : list string) : Z :=
  fold_right (fun s acc => len s + acc) 0 l.

(** [current_chunk[-3:] if len(current_chunk) > 3 else current_chunk] *)
Definition overlap_lines (cur : list string) : list string :=
  if (3 <? List.length cur)%nat then skipn (List.length cur - 3) cur else cur.

(** [len(line) - len(line.lstrip('#'))] *)
Definition level (line : string) : Z :=
  len line - len (lstrip_hash line).

(** [line.lstrip('#').strip()] *)
Definition header_text (line : string) : string :=
  strip (lstrip_hash line).

(** [l[:n]] for an integer [n]: a negative [n] counts from the end. *)
Definition slice_to {A} (n : Z) (l : list A) : list A :=
  if n <? 0 then firstn (List.length l - Z.to_nat (- n)) l
  else firstn (Z.to_nat n) l.

(** [current_headers[:level-1] + [header_text]] *)
Definition update_headers (hs : list string) (line : string) : list string :=
  slice_to (level line - 1) hs ++ [header_text line].

(** The chunk appended on a flush. *)
Definition emit (st : State) : Chunk :=
  mkChunk (join (String newline EmptyString) (current_chunk st))
          (join " > " (current_headers st))
          (current_size st).

(** A flush: append the chunk, keep the overlap, recompute the size. *)
Definition flush (st : State) : State :=
  let keep := overlap_lines (current_chunk st) in
  mkState (chunks st ++ [emit st]) keep (current_headers st) (sum_len keep).

(** The heading branch of the loop body. *)
Definition on_header (st : State) (line : string) : State :=
  let st1 := if 200 <? current_size st then flush st else st in
  mkState (chunks st1) (current_chunk st1)
          (update_headers (current_headers st1) line) (current_size st1).

(** [current_chunk.append(line); current_size += len(line)] *)
Definition push (st : State) (line : string) : State :=
  mkState (chunks st) (current_chunk st ++ [line]) (current_headers st)
          (current_size st + len line).

(** The body of [for line in lines]. *)
Definition step (chunk_size : Z) (st : State) (line : string) : State :=
  let st1 := if startswith_hash line then on_header st line else st in
  let st2 := push st1 line in
  if chunk_size <=? current_size st2 then flush st2 else st2.

Definition init : State := mkState [] [] [] 0.

Definition run (chunk_size : Z) (lines : list string) : State :=
  fold_left (step chunk_size) lines init.

(** [if current_chunk: chunks.append(...)] and [return chunks]. *)
Definition finish (st : State) : list Chunk :=
  match current_chunk st with
  | [] => chunks st
  | _ :: _ => chunks st ++ [emit st]
  end.

(** [chunk_markdown(content, chunk_size, overlap)].  The body never reads
    [overlap]. *)
Definition chunk_markdown (content : string) (chunk_size overlap : Z)
  : list Chunk :=
  finish (run chunk_size (split_lines content)).

(** The lines of a chunk's text. *)
Definition chunk_lines (c : Chunk) : list string := split_lines (text c).

End Chunker.

(** ** Exceptions *)

Module Exc.

(** A computation that returns a value or raises an exception, which
    carries its message. *)
Inductive exc (A : Type) : Type :=
| Return (a : A)
| Raise (e : string).

Arguments Return {A} a.
Arguments Raise {A} e.

Definition bind {A B} (m : exc A) (k : A -> exc B) : exc B :=
  match m with
  | Return a => k a
  | Raise e => Raise e
  end.

(** [try: m  except Exception as e: h(str(e))] *)
Definition try_except {A} (m : exc A) (h : string -> A) : A :=
  match m with
  | Return a => a
  | Raise e => h e
  end.

Definition of_option {A} (o : option A) (e : string) : exc A :=
  match o with
  | Some a => Return a
  | None => Raise e
  end.

(** [str(e)] of the [AttributeError] that reading the attribute [a] of an
    object of type [ty] raises. *)
Definition no_attribute (ty a : string) : string :=
  ("'" ++ ty ++ "' object has no attribute '" ++ a ++ "'")%string.

End Exc.

Import Exc.

Notation "x <- m ;; k" := (bind m (fun x => k))
  (at level 61, m at next level, right associativity).
Notation "' p <- m ;; k" := (bind m (fun x => match x with p => k end))
  (at level 61, p pattern, m at next level, right associativity).

(** ** Python values and the [json] module *)

Module Json.
Import PyStr.

(** The values [json.loads] builds and [json.dumps] accepts, numbers apart:
    the index state that the program writes holds none.  A text with a
    number, [NaN], [Infinity] or an escape above [\u00ff] is outside these
    values: on it [loads] below raises where [json.loads] returns. *)
Inductive pyval : Type :=
| PyNone
| PyBool (b : bool)
| PyStr (s : string)
| PyList (l : list pyval)
| PyDict (d : list (string * pyval)).

(** [d.get(k)] *)
Fixpoint dict_get {V} (k : string) (d : list (string * V)) : option V :=
  match d with
  | [] => None
  | (k', v) :: r => if String.eqb k k' then Some v else dict_get k r
  end.

(** [d[k] = v]: an existing key keeps its place. *)
Fixpoint dict_set {V} (k : string) (v : V) (d : list (string * V))
  : list (string * V) :=
  match d with
  | [] => [(k, v)]
  | (k', v') :: r =>
      if String.eqb k k' then (k', v) :: r else (k', v') :: dict_set k v r
  end.

(** [dict(pairs)] *)
Definition dict_of_pairs {V} (pairs : list (string * V)) : list (string * V) :=
  fold_left (fun d kv => dict_set (fst kv) (snd kv) d) pairs [].

(** Induction on values through the lists and dicts they nest. *)
Fixpoint pyval_nested_ind (P : pyval -> Prop)
  (HNone : P PyNone) (HBool : forall b, P (PyBool b))
  (HStr : forall s, P (PyStr s))
  (HList : forall l, Forall P l -> P (PyList l))
  (HDict : forall d, Forall (fun kv => P (snd kv)) d -> P (PyDict d))
  (v : pyval) : P v :=
  match v with
  | PyNone => HNone
  | PyBool b => HBool b
  | PyStr s => HStr s
  | PyList l =>
      HList l
        ((fix go (l : list pyval) : Forall P l :=
            match l with
            | [] => Forall_nil P
            | x :: r =>
                Forall_cons x
                  (pyval_nested_ind P HNone HBool HStr HList HDict x) (go r)
            end) l)
  | PyDict d =>
      HDict d
        ((fix go (d : list (string * pyval))
            : Forall (fun kv => P (snd kv)) d :=
            match d with
            | [] => Forall_nil _
            | kv :: r =>
                Forall_cons kv
                  (pyval_nested_ind P HNone HBool HStr HList HDict (snd kv))
                  (go r)
            end) d)
  end.

Definition quote : ascii := "034"%char.
Definition backslash : ascii := "092"%char.

(** *** [json.dumps(v, indent=2)] *)

Definition hex_digit (n : N) : ascii :=
  match n with
  | 0 => "0" | 1 => "1" | 2 => "2" | 3 => "3" | 4 => "4" | 5 => "5"
  | 6 => "6" | 7 => "7" | 8 => "8" | 9 => "9" | 10 => "a" | 11 => "b"
  | 12 => "c" | 13 => "d" | 14 => "e" | _ => "f"
  end%N%char.

Definition esc (c : ascii) : string := String backslash (String c EmptyString).

(** One character under [ensure_ascii]: the short escapes, the printable
    range SPACE..TILDE verbatim, [\u00XX] for the rest. *)
Definition escape_char (c : ascii) : string :=
  let n := N_of_ascii c in
  if Ascii.eqb c quote then esc quote
  else if Ascii.eqb c backslash then esc backslash
  else if (n =? 10)%N then esc "n"
  else if (n =? 13)%N then esc "r"
  else if (n =? 9)%N then esc "t"
  else if (n =? 12)%N then esc "f"
  else if (n =? 8)%N then esc "b"
  else if ((32 <=? n) && (n <=? 126))%N then String c EmptyString
  else String backslash
         (String "u" (String "0" (String "0"
            (String (hex_digit (n / 16)) (String (hex_digit (n mod 16))
               EmptyString))))).

Fixpoint escape_string (s : string) : string :=
  match s with
  | EmptyString => EmptyString
  | String c r => escape_char c ++ escape_string r
  end.

(** [py_encode_basestring_ascii] *)
Definition encode_string (s : string) : string :=
  String quote (escape_string s ++ String quote EmptyString).

Fixpoint spaces (n : nat) : string :=
  match n with
  | O => EmptyString
  | S n' => String " " (spaces n')
  end.

(** The newline and indentation written before an item at depth [level]. *)
Definition newline_indent (level : nat) : string :=
  String newline (spaces (2 * level)).

(** [json.dumps(v, indent=2)] at nesting depth [level]: item separator
    [","], key separator [": "]. *)
Fixpoint encode (level : nat) (v : pyval) : string :=
  match v with
  | PyNone => "null"
  | PyBool true => "true"
  | PyBool false => "false"
  | PyStr s => encode_string s
  | PyList [] => "[]"
  | PyList l =>
      "[" ++ newline_indent (S level)
      ++ join ("," ++ newline_indent (S level)) (map (encode (S level)) l)
      ++ newline_indent level ++ "]"
  | PyDict [] => "{}"
  | PyDict d =>
      "{" ++ newline_indent (S level)
      ++ join ("," ++ newline_indent (S level))
           (map (fun kv => match kv with
                           | (k, x) =>
                               (encode_string k ++ ": " ++ encode (S level) x)%string
                           end) d)
      ++ newline_indent level ++ "}"
  end.

Definition dumps (v : pyval) : string := encode 0 v.

(** *** [json.loads] *)

Definition is_ws (c : ascii) : bool :=
  let n := N_of_ascii c in
  ((n =? 32) || (n =? 9) || (n =? 10) || (n =? 13))%N.

Fixpoint skip_ws (s : string) : string :=
  match s with
  | String c r => if is_ws c then skip_ws r else s
  | EmptyString => EmptyString
  end.

Definition hex_value (c : ascii) : option N :=
  let n := N_of_ascii c in
  if ((48 <=? n) && (n <=? 57))%N then Some (n - 48)%N
  else if ((97 <=? n) && (n <=? 102))%N then Some (n - 87)%N
  else if ((65 <=? n) && (n <=? 70))%N then Some (n - 55)%N
  else None.

Definition hex4 (a b c d : ascii) : option N :=
  match hex_value a, hex_value b, hex_value c, hex_value d with
  | Some x, Some y, Some z, Some w => Some (((x * 16 + y) * 16 + z) * 16 + w)%N
  | _, _, _, _ => None
  end.

(** [py_scanstring] in strict mode, from just after the opening quote: the
    decoded string and the text after the closing quote.  A [\uXXXX] escape
    of a code point above 255 is outside the embedding and raises. *)
Fixpoint scanstring (s : string) : exc (string * string) :=
  match s with
  | EmptyString => Raise "Unterminated string starting at"
  | String c r =>
      if Ascii.eqb c quote then Return (EmptyString, r)
      else if Ascii.eqb c backslash then
        match r with
        | EmptyString => Raise "Unterminated string starting at"
        | String e r1 =>
            if Ascii.eqb e "u" then
              match r1 with
              | String h1 (String h2 (String h3 (String h4 r2))) =>
                  match hex4 h1 h2 h3 h4 with
                  | Some n =>
                      if (n <? 256)%N then
                        ' (t, rest) <- scanstring r2 ;;
                        Return (String (ascii_of_N n) t, rest)
                      else Raise "code point outside the embedding"
                  | None => Raise "Invalid \uXXXX escape"
                  end
              | _ => Raise "Invalid \uXXXX escape"
              end
            else
              let decoded :=
                if Ascii.eqb e quote then Some quote
                else if Ascii.eqb e backslash then Some backslash
                else if Ascii.eqb e "/" then Some "/"%char
                else if Ascii.eqb e "b" then Some "008"%char
                else if Ascii.eqb e "f" then Some "012"%char
                else if Ascii.eqb e "n" then Some "010"%char
                else if Ascii.eqb e "r" then Some "013"%char
                else if Ascii.eqb e "t" then Some "009"%char
                else None in
              match decoded with
              | Some d =>
                  ' (t, rest) <- scanstring r1 ;;
                  Return (String d t, rest)
              | None => Raise "Invalid \escape"
              end
        end
      else if (N_of_ascii c <? 32)%N then Raise "Invalid control character at"
      else
        ' (t, rest) <- scanstring r ;;
        Return (String c t, rest)
  end.

(** [s] starts with [lit]: what follows it. *)
Fixpoint after_prefix (lit s : string) : option string :=
  match lit, s with
  | EmptyString, _ => Some s
  | String a lit', String b s' =>
      if Ascii.eqb a b then after_prefix lit' s' else None
  | String _ _, EmptyString => None
  end.

(** [scan_once], [JSONObject] and [JSONArray].  Every nested call is made on
    a strictly shorter text, so fuel above the length of the text never runs
    out. *)
Fixpoint scan_once (fuel : nat) (s : string) {struct fuel}
  : exc (pyval * string) :=
  match fuel with
  | O => Raise "maximum recursion depth exceeded"
  | S f =>
      match s with
      | EmptyString => Raise "Expecting value"
      | String c r =>
          if Ascii.eqb c quote then
            ' (t, rest) <- scanstring r ;;
            Return (PyStr t, rest)
          else if Ascii.eqb c "{" then
            match skip_ws r with
            | String c1 r1 =>
                if Ascii.eqb c1 "}" then Return (PyDict [], r1)
                else if Ascii.eqb c1 quote then
                  ' (pairs, rest) <- scan_members f r1 ;;
                  Return (PyDict (dict_of_pairs pairs), rest)
                else Raise "Expecting property name enclosed in double quotes"
            | EmptyString =>
                Raise "Expecting property name enclosed in double quotes"
            end
          else if Ascii.eqb c "[" then
            match skip_ws r with
            | String c1 r1 =>
                if Ascii.eqb c1 "]" then Return (PyList [], r1)
                else
                  ' (items, rest) <- scan_items f (String c1 r1) ;;
                  Return (PyList items, rest)
            | EmptyString => Raise "Expecting value"
            end
          else
            match after_prefix "null" s, after_prefix "true" s,
                  after_prefix "false" s with
            | Some rest, _, _ => Return (PyNone, rest)
            | _, Some rest, _ => Return (PyBool true, rest)
            | _, _, Some rest => Return (PyBool false, rest)
            | _, _, _ => Raise "Expecting value"
            end
      end
  end

(** The members of an object, from just after the opening quote of a key. *)
with scan_members (fuel : nat) (s : string) {struct fuel}
  : exc (list (string * pyval) * string) :=
  match fuel with
  | O => Raise "maximum recursion depth exceeded"
  | S f =>
      ' (key, r1) <- scanstring s ;;
      match skip_ws r1 with
      | String c2 r2 =>
          if Ascii.eqb c2 ":" then
            ' (v, r3) <- scan_once f (skip_ws r2) ;;
            match skip_ws r3 with
            | String c4 r4 =>
                if Ascii.eqb c4 "}" then Return ([(key, v)], r4)
                else if Ascii.eqb c4 "," then
                  match skip_ws r4 with
                  | String c5 r5 =>
                      if Ascii.eqb c5 quote then
                        ' (more, rest) <- scan_members f r5 ;;
                        Return ((key, v) :: more, rest)
                      else
                        Raise "Expecting property name enclosed in double quotes"
                  | EmptyString =>
                      Raise "Expecting property name enclosed in double quotes"
                  end
                else Raise "Expecting ',' delimiter"
            | EmptyString => Raise "Expecting ',' delimiter"
            end
          else Raise "Expecting ':' delimiter"
      | EmptyString => Raise "Expecting ':' delimiter"
      end
  end

(** The items of an array, from the first character of an item. *)
with scan_items (fuel : nat) (s : string) {struct fuel}
  : exc (list pyval * string) :=
  match fuel with
  | O => Raise "maximum recursion depth exceeded"
  | S f =>
      ' (v, r1) <- scan_once f s ;;
      match skip_ws r1 with
      | String c2 r2 =>
          if Ascii.eqb c2 "]" then Return ([v], r2)
          else if Ascii.eqb c2 "," then
            ' (more, rest) <- scan_items f (skip_ws r2) ;;
            Return (v :: more, rest)
          else Raise "Expecting ',' delimiter"
      | EmptyString => Raise "Expecting ',' delimiter"
      end
  end.

(** [JSONDecoder.decode]: one value between optional white space. *)
Definition loads (s : string) : exc pyval :=
  ' (v, rest) <- scan_once (S (String.length s)) (skip_ws s) ;;
  match skip_ws rest with
  | EmptyString => Return v
  | String _ _ => Raise "Extra data"
  end.

End Json.

(** ** The index state and [index_file] *)

Module Index.
Import PyStr Chunker Json.

(** A document of the vector store: the id
    [f"{path.stem}_{i}_{datetime.now().timestamp()}"] by its three parts,
    the chunk text, and the metadata dict. *)
Record Doc := mkDoc {
  doc_stem : string;
  doc_index : nat;
  doc_stamp : Z;
  doc_text : string;
  doc_source_file : string;
  doc_headers : string;
  doc_indexed_at : Z
}.

(** What [index_file] reads and writes: the files on disk, the text of
    [INDEX_STATE] when that file exists, the [atlas_memory] collection, the
    archival passages of the Letta agent when [self.letta] and
    [self.letta_agent_id] are set, and the clock behind [datetime.now()],
    which moves on at each reading. *)
Record World := mkWorld {
  disk : list (string * string);
  index_state_file : option string;
  chroma : list Doc;
  letta_archival : option (list string);
  clock : Z
}.

Definition default_state : pyval :=
  PyDict [("files", PyDict []); ("last_full_index", PyNone)].

(** [load_index_state()] *)
Definition load_index_state (w : World) : exc pyval :=
  match index_state_file w with
  | Some t => loads t
  | None => Return default_state
  end.

(** [save_index_state(state)] *)
Definition save_index_state (w : World) (state : pyval) : World :=
  mkWorld (disk w) (Some (dumps state)) (chroma w) (letta_archival w) (clock w).

(** [type(v).__name__] *)
Definition type_name (v : pyval) : string :=
  match v with
  | PyNone => "NoneType"
  | PyBool _ => "bool"
  | PyStr _ => "str"
  | PyList _ => "list"
  | PyDict _ => "dict"
  end.

(** [str(e)] of the [KeyError] for a missing key [k]: [repr(k)], which
    puts a key such as ["files"] between single quotes. *)
Definition key_error (k : string) : string := ("'" ++ k ++ "'")%string.

(** [str(e)] of the [TypeError] that [v[k]] raises for a string [k] on a
    [v] that is no dict, in the words of CPython 3.11 and later. *)
Definition not_subscriptable (v : pyval) : string :=
  match v with
  | PyStr _ => "string indices must be integers, not 'str'"
  | PyList _ => "list indices must be integers or slices, not str"
  | _ => ("'" ++ type_name v ++ "' object is not subscriptable")%string
  end.

(** [str(e)] of the [TypeError] that [v[k] = x] raises for a string [k] on
    a [v] that is no dict. *)
Definition no_item_assignment (v : pyval) : string :=
  match v with
  | PyList _ => "list indices must be integers or slices, not str"
  | _ => ("'" ++ type_name v ++ "' object does not support item assignment")%string
  end.

(** [v[k]] for a string [k] *)
Definition subscript (v : pyval) (k : string) : exc pyval :=
  match v with
  | PyDict d => of_option (dict_get k d) (key_error k)
  | _ => Raise (not_subscriptable v)
  end.

(** [v.get(k)] *)
Definition get_method (v : pyval) (k : string) : exc pyval :=
  match v with
  | PyDict d =>
      Return (match dict_get k d with Some x => x | None => PyNone end)
  | _ => Raise (no_attribute (type_name v) "get")
  end.

(** [v == s] for a string [s] *)
Definition eq_str (v : pyval) (s : string) : bool :=
  match v with
  | PyStr t => String.eqb t s
  | _ => false
  end.

(** [state["files"][file_key] = file_hash] *)
Definition record_hash (state : pyval) (file_key file_hash : string)
  : exc pyval :=
  match state with
  | PyDict d =>
      match dict_get "files" d with
      | Some (PyDict fd) =>
          Return (PyDict (dict_set "files"
                            (PyDict (dict_set file_key (PyStr file_hash) fd)) d))
      | Some fs => Raise (no_item_assignment fs)
      | None => Raise (key_error "files")
      end
  | _ => Raise (not_subscriptable state)
  end.

Section WithLibraries.

(** [hashlib.md5(bytes).hexdigest()], [Path.stem] and [Path.name]. *)
Variable md5_hex : string -> string.
Variable path_stem : string -> string.
Variable path_name : string -> string.

(** [get_file_hash(path)] on the content of the file. *)
Definition get_file_hash (content : string) : string := md5_hex content.

(** [not force and state["files"].get(file_key) == file_hash] *)
Definition unchanged (force : bool) (state : pyval) (file_key file_hash : string)
  : exc bool :=
  if force then Return false
  else
    fs <- subscript state "files" ;;
    stored <- get_method fs file_key ;;
    Return (eq_str stored file_hash).

(** [self.chroma.get(where={"source_file": str(path)})] then
    [self.chroma.delete(ids=existing["ids"])], when both calls succeed.  A
    call that fails is in [delete_chunks_under] below. *)
Definition delete_chunks (path : string) (docs : list Doc) : list Doc :=
  filter (fun d => negb (String.eqb (doc_source_file d) path)) docs.

(** [for i, chunk in enumerate(chunks): self.chroma.add(...)]: the clock
    is read for the id and again for [indexed_at]. *)
Fixpoint add_chunks (path : string) (i : nat) (cs : list Chunk)
  (docs : list Doc) (now : Z) : list Doc * Z :=
  match cs with
  | [] => (docs, now)
  | c :: rest =>
      add_chunks path (S i) rest
        (docs ++ [mkDoc (path_stem path) i now (text c) path (headers c)
                        (now + 1)])
        (now + 2)
  end.

(** The archival post of [f"File: {path.name}\n\n" + content[:2000]]. *)
Definition archive (path content : string) (a : option (list string))
  : option (list string) :=
  match a with
  | Some l =>
      let summary :=
        ("File: " ++ path_name path
         ++ String newline (String newline EmptyString)
         ++ take 2000 content)%string in
      Some (l ++ [summary])
  | None => None
  end.

(** [AtlasRecall.index_file(path, force)]: the returned count or the
    exception that escapes, and the world it leaves, in a run during which
    no call to the store or to the files fails and on a file whose text is
    its bytes.  [index_file_under] below is the pass with these
    failures and with the text apart from the bytes. *)
Definition index_file (w : World) (path : string) (force : bool)
  : exc Z * World :=
  match dict_get path (disk w) with
  | None => (Return 0, w)
  | Some content =>
      match load_index_state w with
      | Raise e => (Raise e, w)
      | Return state =>
          let file_hash := get_file_hash content in
          let file_key := path in
          match unchanged force state file_key file_hash with
          | Raise e => (Raise e, w)
          | Return true => (Return 0, w)
          | Return false =>
              let cs := chunk_markdown content 1000 100 in
              let '(docs, now) :=
                add_chunks path 0 cs (delete_chunks path (chroma w)) (clock w) in
              let w1 :=
                mkWorld (disk w) (index_state_file w) docs
                        (archive path content (letta_archival w)) now in
              match record_hash state file_key file_hash with
              | Raise e => (Raise e, w1)
              | Return state' =>
                  (Return (Z.of_nat (List.length cs)), save_index_state w1 state')
              end
          end
      end
  end.

End WithLibraries.

(** *** [index_file] when the store or a file fails *)

(** The calls of one [index_file] to the outside that fail:
    - [read_bytes_error]: the exception of [path.read_bytes()] in
      [get_file_hash];
    - [delete_fails]: [self.chroma.get] or [self.chroma.delete] raises,
      inside [try: ... except Exception: pass]; the store then keeps what
      it held;
    - [add_error i]: the exception of [self.chroma.add] for chunk [i]; the
      store then does not hold that chunk;
    - [post_fails]: the archival post raises, inside
      [try: ... except Exception: pass]; no passage is then stored;
    - [write_error]: the exception of [INDEX_STATE.write_text] in
      [save_index_state]; the file is then taken to be as it was. *)
Record Faults := mkFaults {
  read_bytes_error : option string;
  delete_fails : bool;
  add_error : nat -> option string;
  post_fails : bool;
  write_error : option string
}.

(** Every call succeeds. *)
Definition no_faults : Faults := mkFaults None false (fun _ => None) false None.

Section UnderFaults.

(** [hashlib.md5(bytes).hexdigest()], [Path.stem], [Path.name], and
    [Path.read_text()] on the bytes of a file: the decoded text, with
    [\r\n] and [\r] read as [\n], or the [UnicodeDecodeError]. *)
Variable md5_hex : string -> string.
Variable path_stem : string -> string.
Variable path_name : string -> string.
Variable read_text : string -> exc string.

(** The [try] block around [self.chroma.get] and [self.chroma.delete]. *)
Definition delete_chunks_under (f : Faults) (path : string) (docs : list Doc)
  : list Doc :=
  if delete_fails f then docs else delete_chunks path docs.

(** The loop over the chunks: it stops at the first [self.chroma.add] that
    raises, after both readings of the clock for that chunk. *)
Fixpoint add_chunks_under (f : Faults) (path : string) (i : nat)
  (cs : list Chunk) (docs : list Doc) (now : Z)
  : (list Doc * Z) * option string :=
  match cs with
  | [] => ((docs, now), None)
  | c :: rest =>
      match add_error f i with
      | Some e => ((docs, now + 2), Some e)
      | None =>
          add_chunks_under f path (S i) rest
            (docs ++ [mkDoc (path_stem path) i now (text c) path (headers c)
                            (now + 1)])
            (now + 2)
      end
  end.

(** The [try] block around the archival post. *)
Definition archive_under (f : Faults) (path content : string)
  (a : option (list string)) : option (list string) :=
  if post_fails f then a else archive path_name path content a.

(** [AtlasRecall.index_file(path, force)] under the faults [f].  The disk
    holds the bytes of each file: the fingerprint is taken from the bytes,
    the chunks from the text [read_text] makes of them. *)
Definition index_file_under (f : Faults) (w : World) (path : string)
  (force : bool) : exc Z * World :=
  match dict_get path (disk w) with
  | None => (Return 0, w)
  | Some bytes =>
      match load_index_state w with
      | Raise e => (Raise e, w)
      | Return state =>
          match read_bytes_error f with
          | Some e => (Raise e, w)
          | None =>
              let file_hash := md5_hex bytes in
              let file_key := path in
              match unchanged force state file_key file_hash with
              | Raise e => (Raise e, w)
              | Return true => (Return 0, w)
              | Return false =>
                  match read_text bytes with
                  | Raise e => (Raise e, w)
                  | Return content =>
                      let cs := chunk_markdown content 1000 100 in
                      let '((docs, now), failed) :=
                        add_chunks_under f path 0 cs
                          (delete_chunks_under f path (chroma w)) (clock w) in
                      match failed with
                      | Some e =>
                          (Raise e,
                           mkWorld (disk w) (index_state_file w) docs
                                   (letta_archival w) now)
                      | None =>
                          let w1 :=
                            mkWorld (disk w) (index_state_file w) docs
                              (archive_under f path content (letta_archival w))
                              now in
                          match record_hash state file_key file_hash with
                          | Raise e => (Raise e, w1)
                          | Return state' =>
                              match write_error f with
                              | Some e => (Raise e, w1)
                              | None =>
                                  (Return (Z.of_nat (List.length cs)),
                                   save_index_state w1 state')
                              end
                          end
                      end
                  end
              end
          end
      end
  end.

End UnderFaults.

(** The persisted shape: a [files] mapping from paths to fingerprints and a
    [last_full_index] that is absent, [None] or a string. *)
Definition timestamp_entry (ts : option (option string))
  : list (string * pyval) :=
  match ts with
  | None => []
  | Some None => [("last_full_index", PyNone)]
  | Some (Some t) => [("last_full_index", PyStr t)]
  end.

Definition state_of (fs : list (string * string)) (ts : option (option string))
  : pyval :=
  PyDict (("files", PyDict (map (fun kv => (fst kv, PyStr (snd kv))) fs))
          :: timestamp_entry ts).

Definition persisted_shape (st : pyval) : Prop :=
  exists fs ts, NoDup (map fst fs) /\ st = state_of fs ts.

End Index.

(** ** [recall] and [recall_unified] *)

Module Recall.
Import PyStr Chunker.

(** One raw Mem0 result: a dict by the three keys the code reads and its
    [str(r)], or a value that is no dict and has no [get], by the name of
    its type: on it [r.get] raises. *)
Record Mem0Item := mkMem0Item {
  m_memory : option string;
  m_text : option string;
  m_score : option Q;
  m_repr : string
}.

Inductive Mem0Entry : Type :=
| EntryDict (r : Mem0Item)
| EntryOther (type_name : string).

(** What [self.mem0.search] returns: a dict, with or without ["results"],
    or the list itself. *)
Inductive Mem0Response : Type :=
| RespDict (results : option (list Mem0Entry))
| RespList (l : list Mem0Entry).

(** The row of the one query in [documents], [metadatas] and [distances]. *)
Record ChromaMeta := mkChromaMeta {
  meta_source_file : option string;
  meta_headers : option string
}.

Record ChromaResponse := mkChromaResponse {
  documents : list string;
  metadatas : list ChromaMeta;
  distances : option (list Q)
}.

Record LettaItem := mkLettaItem { item_text : option string }.

Record HttpResponse := mkHttpResponse {
  status_code : Z;
  json : exc (list LettaItem)
}.

(** The attributes of [self] that [recall] uses. *)
Record Self := mkSelf {
  mem0_search : string -> Z -> exc Mem0Response;
  chroma_query : string -> Z -> exc ChromaResponse;
  letta : option (string -> string -> Z -> exc HttpResponse);
  letta_agent_id : option string
}.

(** The dicts [recall] builds.  A field read back with [.get(key, default)]
    is an [option]: [None] is the missing key. *)
Record Mem0Hit := mkMem0Hit {
  mh_text : string;
  mh_score : option Q;
  mh_source : string
}.

Record ChromaHit := mkChromaHit {
  ch_text : string;
  ch_file : option string;
  ch_headers : option string;
  ch_distance : option Q;
  ch_source : string
}.

Record LettaHit := mkLettaHit {
  lh_text : string;
  lh_source : string
}.

(** The dict [recall] returns; a [*_error] key is present when [Some]. *)
Record Results := mkResults {
  r_query : string;
  r_timestamp : string;
  r_mem0 : list Mem0Hit;
  r_chroma : list ChromaHit;
  r_letta : list LettaHit;
  r_mem0_error : option string;
  r_chroma_error : option string;
  r_letta_error : option string
}.

Definition with_default {A} (o : option A) (d : A) : A :=
  match o with
  | Some a => a
  | None => d
  end.

Fixpoint map_exc {A B} (f : A -> exc B) (l : list A) : exc (list B) :=
  match l with
  | [] => Return []
  | a :: r =>
      b <- f a ;;
      bs <- map_exc f r ;;
      Return (b :: bs)
  end.

(** One element of the list comprehension over [mem0_list]. *)
Definition mem0_hit (e : Mem0Entry) : exc Mem0Hit :=
  match e with
  | EntryDict r =>
      Return (mkMem0Hit
                (with_default (m_memory r) (with_default (m_text r) (m_repr r)))
                (Some (with_default (m_score r) 0%Q))
                "mem0")
  | EntryOther ty => Raise (no_attribute ty "get")
  end.

(** The Mem0 [try] block. *)
Definition mem0_block (self : Self) (query : string) (limit : Z)
  (res : Results) : Results :=
  try_except
    (mem0_raw <- mem0_search self query limit ;;
     let mem0_list :=
       match mem0_raw with
       | RespDict o => with_default o []
       | RespList l => l
       end in
     hits <- map_exc mem0_hit mem0_list ;;
     Return (mkResults (r_query res) (r_timestamp res) hits (r_chroma res)
               (r_letta res) (r_mem0_error res) (r_chroma_error res)
               (r_letta_error res)))
    (fun e =>
       mkResults (r_query res) (r_timestamp res) (r_mem0 res) (r_chroma res)
         (r_letta res) (Some e) (r_chroma_error res) (r_letta_error res)).

(** The loop over [enumerate(chroma_results["documents"][0])]: the hits
    appended so far stay when an index is out of range. *)
Fixpoint chroma_loop (resp : ChromaResponse) (i : nat) (docs : list string)
  (acc : list ChromaHit) : list ChromaHit * option string :=
  match docs with
  | [] => (acc, None)
  | doc :: rest =>
      match nth_error (metadatas resp) i with
      | None => (acc, Some "list index out of range")
      | Some meta =>
          let dist :=
            match distances resp with
            | Some ds => of_option (nth_error ds i) "list index out of range"
            | None => Return 0%Q
            end in
          match dist with
          | Raise e => (acc, Some e)
          | Return d =>
              chroma_loop resp (S i) rest
                (acc ++ [mkChromaHit doc
                           (Some (with_default (meta_source_file meta) "unknown"))
                           (Some (with_default (meta_headers meta) ""))
                           (Some d) "chroma"])
          end
      end
  end.

(** The ChromaDB [try] block. *)
Definition chroma_block (self : Self) (query : string) (limit : Z)
  (res : Results) : Results :=
  match chroma_query self query limit with
  | Raise e =>
      mkResults (r_query res) (r_timestamp res) (r_mem0 res) (r_chroma res)
        (r_letta res) (r_mem0_error res) (Some e) (r_letta_error res)
  | Return resp =>
      let '(hits, err) := chroma_loop resp 0 (documents resp) (r_chroma res) in
      mkResults (r_query res) (r_timestamp res) (r_mem0 res) hits
        (r_letta res) (r_mem0_error res)
        (match err with Some e => Some e | None => r_chroma_error res end)
        (r_letta_error res)
  end.

(** [self.letta and self.letta_agent_id]: the client and a non-empty id. *)
Definition letta_ready (self : Self)
  : option ((string -> string -> Z -> exc HttpResponse) * string) :=
  match letta self, letta_agent_id self with
  | Some client, Some (String c r) => Some (client, String c r)
  | _, _ => None
  end.

(** The Letta block: skipped when the backend is not connected. *)
Definition letta_block (self : Self) (query : string) (limit : Z)
  (res : Results) : Results :=
  match letta_ready self with
  | None => res
  | Some (client, agent) =>
      try_except
        (resp <- client agent query limit ;;
         if status_code resp =? 200 then
           items <- json resp ;;
           Return (mkResults (r_query res) (r_timestamp res) (r_mem0 res)
                     (r_chroma res)
                     (r_letta res
                      ++ map (fun it => mkLettaHit
                                          (with_default (item_text it) "")
                                          "letta") items)
                     (r_mem0_error res) (r_chroma_error res)
                     (r_letta_error res))
         else Return res)
        (fun e =>
           mkResults (r_query res) (r_timestamp res) (r_mem0 res)
             (r_chroma res) (r_letta res) (r_mem0_error res)
             (r_chroma_error res) (Some e))
  end.

(** [AtlasRecall.recall(query, limit)]; [now] is
    [datetime.now().isoformat()]. *)
Definition recall (self : Self) (now query : string) (limit : Z)
  : exc Results :=
  let results := mkResults query now [] [] [] None None None in
  let results := mem0_block self query limit results in
  let results := chroma_block self query limit results in
  let results := letta_block self query limit results in
  Return results.

(** The dicts of [all_results]. *)
Record Normalized := mkNormalized {
  n_text : string;
  n_source : string;
  n_headers : option string;
  n_score : Q
}.

(** [min(d, 1)]: the first argument unless the second is smaller. *)
Definition min_one (d : Q) : Q :=
  if Qle_bool d 1 then d else 1%Q.

(** [l[:n]] for an integer [n]. *)
Definition slice_to {A} (n : Z) (l : list A) : list A := Chunker.slice_to n l.

(** [sorted(l, key=score, reverse=True)]: the stable sort, highest score
    first, equal scores in their order in [l]. *)
Fixpoint insert_desc (x : Normalized) (l : list Normalized) : list Normalized :=
  match l with
  | [] => [x]
  | y :: r =>
      if Qle_bool (n_score y) (n_score x) then x :: y :: r
      else y :: insert_desc x r
  end.

Definition sorted_desc (l : list Normalized) : list Normalized :=
  fold_right insert_desc [] l.

Section WithLibraries.

(** [hashlib.md5(s.encode()).hexdigest()] and [Path(s).name]. *)
Variable md5_hex : string -> string.
Variable path_name : string -> string.

Definition from_mem0 (item : Mem0Hit) : Normalized :=
  mkNormalized (mh_text item) "mem0" None
    (with_default (mh_score item) (1 # 2)).

(** The subtraction is exact here; the code rounds it to the nearest
    double. *)
Definition from_chroma (item : ChromaHit) : Normalized :=
  mkNormalized (take 500 (ch_text item))
    ("chroma:" ++ path_name (with_default (ch_file item) ""))
    (Some (with_default (ch_headers item) ""))
    (1 - min_one (with_default (ch_distance item) (1 # 2))).

Definition from_letta (item : LettaHit) : Normalized :=
  mkNormalized (take 500 (lh_text item)) "letta" None (7 # 10).

(** [all_results] after the three loops. *)
Definition merge (raw : Results) : list Normalized :=
  map from_mem0 (r_mem0 raw) ++ map from_chroma (r_chroma raw)
  ++ map from_letta (r_letta raw).

(** [hashlib.md5(item["text"][:100].encode()).hexdigest()] *)
Definition text_hash (item : Normalized) : string :=
  md5_hex (take 100 (n_text item)).

(** The body of the dedupe loop on the pair [(seen, unique)]. *)
Definition dedupe_step (st : list string * list Normalized)
  (item : Normalized) : list string * list Normalized :=
  let '(seen, unique) := st in
  if existsb (String.eqb (text_hash item)) seen then (seen, unique)
  else (text_hash item :: seen, unique ++ [item]).

Definition dedupe (l : list Normalized) : list Normalized :=
  snd (fold_left dedupe_step l ([], [])).

(** The loop as a recursion on the results still to visit. *)
Fixpoint dedupe_from (seen : list string) (l : list Normalized)
  : list Normalized :=
  match l with
  | [] => []
  | item :: r =>
      if existsb (String.eqb (text_hash item)) seen then dedupe_from seen r
      else item :: dedupe_from (text_hash item :: seen) r
  end.

(** The tail of [recall_unified] from [all_results] on. *)
Definition rank (all_results : list Normalized) (limit : Z)
  : list Normalized :=
  slice_to limit (dedupe (sorted_desc all_results)).

(** [AtlasRecall.recall_unified(query, limit)] *)
Definition recall_unified (self : Self) (now query : string) (limit : Z)
  : exc (list Normalized) :=
  raw <- recall self now query (limit * 2) ;;
  Return (rank (merge raw) limit).

End WithLibraries.

End Recall.

(** ** The properties in the words of the specification *)

Module Spec.
Import PyStr Chunker Recall Json Index.

Definition nl : string := String newline EmptyString.

(** The last [n] elements of [l]. *)
Definition lastn {A} (n : nat) (l : list A) : list A :=
  skipn (List.length l - n) l.

(** [next] follows [prev] in [l]. *)
Definition adjacent {A} (prev next : A) (l : list A) : Prop :=
  exists l1 l2, l = l1 ++ prev :: next :: l2.

(** The last [m] lines of [prev] are the first [m] lines of [next]. *)
Definition shares_lines (m : nat) (prev next : Chunk) : Prop :=
  lastn m (chunk_lines prev) = firstn m (chunk_lines next).

(** The overlap invariant as the specification words it, for [k] overlap
    lines. *)
Definition overlap_invariant (content : string) (chunk_size k : Z) : Prop :=
  forall prev next,
    adjacent prev next (chunk_markdown content chunk_size k) ->
    exists m,
      Z.min k (Z.of_nat (List.length (chunk_lines prev))) <= Z.of_nat m
      /\ shares_lines m prev next.

(** The header stack of the code after the lines [done]. *)
Definition header_stack (done : list string) : list string :=
  fold_left
    (fun hs line => if startswith_hash line then update_headers hs line else hs)
    done [].

(** The headers whose scope includes the last of the lines [done], by
    level: a heading of level [L] closes every open heading of level [L] or
    deeper and opens its own. *)
Definition scope_push (open : list (Z * string)) (line : string)
  : list (Z * string) :=
  if startswith_hash line
  then filter (fun e => fst e <? level line) open
       ++ [(level line, header_text line)]
  else open.

Definition scope_stack (done : list string) : list (Z * string) :=
  fold_left scope_push done [].

Definition scope_headers (done : list string) : list string :=
  map snd (scope_stack done).

(** No heading skips a level: a heading arrives at most one level below the
    headings open before it. *)
Definition no_skipped_level (lines : list string) : Prop :=
  forall pre line post,
    lines = pre ++ line :: post ->
    startswith_hash line = true ->
    level line - 1 <= Z.of_nat (List.length (header_stack pre)).

(** The chunk [c] of [content] spans the lines [buf] after the lines
    [pre]. *)
Definition spans (content : string) (c : Chunk) (pre buf : list string)
  : Prop :=
  exists post,
    split_lines content = pre ++ buf ++ post
    /\ buf <> [] /\ text c = join nl buf.

(** [headerPath] names the headers in scope at the first line of [c]. *)
Definition headers_at_first_line (content : string) (c : Chunk) : Prop :=
  exists pre buf,
    spans content c pre buf
    /\ headers c = join " > " (scope_headers (pre ++ firstn 1 buf)).

(** A line with some character that is not white space. *)
Definition non_blank (line : string) : Prop := strip line <> EmptyString.


(** [x] ranks at least as high as [y]. *)
Definition outranks (x y : Normalized) : Prop := (n_score y <= n_score x)%Q.




(** A backend that is not connected leaves a diagnostic: the words of the
    specification for the optional archival backend. *)
Definition unavailable_is_recorded (self : Self) (now query : string)
  (limit : Z) : Prop :=
  letta_ready self = None ->
  exists r e,
    recall self now query limit = Return r /\ r_letta_error r = Some e.

(** The list the Mem0 block iterates over. *)
Definition mem0_entries (resp : Mem0Response) : list Mem0Entry :=
  match resp with
  | RespDict o => with_default o []
  | RespList l => l
  end.

Definition letta_hits (items : list LettaItem) : list LettaHit :=
  map (fun it => mkLettaHit (with_default (item_text it) "") "letta") items.

End Spec.

(** ** Invariants of the loops and of the scanner *)

Module Invariants.
Import PyStr Chunker Json Spec.

(** The buffer holds lines and [current_size] is their total length. *)
Definition buffer_ok (st : State) : Prop :=
  current_size st = sum_len (current_chunk st)
  /\ Forall no_newline (current_chunk st).

(** Consecutive chunks overlap, and the buffer grows from the overlap of
    the last chunk. *)
Definition chained (st : State) : Prop :=
  (forall prev next,
      adjacent prev next (chunks st) ->
      shares_lines (Nat.min 3 (List.length (chunk_lines prev))) prev next)
  /\ (forall l c,
         chunks st = l ++ [c] ->
         exists extra, current_chunk st = overlap_lines (chunk_lines c) ++ extra).

(** Every line read so far is in an emitted chunk or in the buffer. *)
Definition covered (done : list string) (st : State) : Prop :=
  forall line,
    In line done ->
    (exists c, In c (chunks st) /\ In line (chunk_lines c))
    \/ In line (current_chunk st).

(** The chunk spans the lines [buf] of the lines read so far, and carries
    the header stack as it stands after the last of them. *)
Definition located (done : list string) (c : Chunk) : Prop :=
  exists pre buf post,
    done = pre ++ buf ++ post
    /\ buf <> []
    /\ text c = join nl buf
    /\ headers c = join " > " (header_stack (pre ++ buf)).

Definition traced (hs done : list string) (st : State) : Prop :=
  current_headers st = hs
  /\ (exists p, done = p ++ current_chunk st)
  /\ forall c, In c (chunks st) -> located done c.

(** No emitted chunk has empty text, and the buffer has a non-empty text
    unless nothing was read or one empty line was. *)
Definition filled (done : list string) (st : State) : Prop :=
  (forall c, In c (chunks st) -> text c <> EmptyString)
  /\ ((current_chunk st = [] /\ done = [])
      \/ (current_chunk st = [EmptyString] /\ done = [EmptyString])
      \/ join nl (current_chunk st) <> EmptyString).

(** An encoded value opens with a character that is neither white space
    nor a closing bracket. *)
Definition opens_value (s : string) : Prop :=
  match s with
  | String c _ => is_ws c = false /\ Ascii.eqb c "]" = false
  | EmptyString => False
  end.

(** The keys of every dict are pairwise distinct, as they are in Python. *)
Fixpoint json_ok (v : pyval) : Prop :=
  match v with
  | PyList l => fold_right (fun x acc => json_ok x /\ acc) True l
  | PyDict d =>
      NoDup (map fst d)
      /\ fold_right (fun kv acc => json_ok (snd kv) /\ acc) True d
  | _ => True
  end.

(** The text of one member and of one item at depth [level]. *)
Definition member_text (level : nat) (kv : string * pyval) : string :=
  (encode_string (fst kv) ++ ": " ++ encode level (snd kv))%string.

Definition separator (level : nat) : string :=
  ("," ++ newline_indent level)%string.

(** Scanning the encoding of [v], whatever follows it, gives [v] back and
    leaves what follows, on fuel above the length of the encoding. *)
Definition round_trips (v : pyval) : Prop :=
  forall level fuel rest,
    (String.length (encode level v) < fuel)%nat ->
    scan_once fuel (encode level v ++ rest) = Return (v, rest).

End Invariants.

(** ** Sample inputs *)

Module Samples.
Import PyStr Chunker Json Index Recall Spec.

Definition empty_chroma : ChromaResponse := mkChromaResponse [] [] None.

(** Mem0 answers with one fact that carries no score; the vector store
    answers with nothing; Letta is not connected. *)
Definition self_unscored : Self :=
  mkSelf
    (fun _ _ =>
       Return (RespDict (Some [EntryDict (mkMem0Item (Some "likes tea") None
                                            None "{'memory': 'likes tea'}")])))
    (fun _ _ => Return empty_chroma)
    None None.

(** Mem0 answers with one scored fact. *)
Definition self_scored : Self :=
  mkSelf
    (fun _ _ =>
       Return (RespList [EntryDict (mkMem0Item (Some "likes tea") None
                                      (Some (9 # 10)) "")]))
    (fun _ _ => Return empty_chroma)
    None None.

Definition three_results : list Normalized :=
  [mkNormalized "alpha" "mem0" None (1 # 5);
   mkNormalized "beta" "letta" None (7 # 10);
   mkNormalized "gamma" "mem0" None (1 # 2)].

(** A stand-in for [hashlib.md5]: any function will do where only equality
    of digests matters. *)
Definition sample_digest (s : string) : string := ("md5:" ++ s)%string.

Definition sample_world : World :=
  mkWorld [("/home/atlas/clawd/MEMORY.md", "# Memory")]
          (Some (dumps (state_of
                          [("/home/atlas/clawd/MEMORY.md",
                            sample_digest "# Memory")]
                          (Some None))))
          [mkDoc "MEMORY" 0 7 "# Memory" "/home/atlas/clawd/MEMORY.md"
                 "Memory" 8]
          None 9.

End Samples.

(** ** [index_all] *)

Module Batch.
Import PyStr Chunker Json Index.

(** The dict [{"files": ..., "chunks": ..., "errors": [...]}]. *)
Record BatchResult := mkBatch {
  b_files : Z;
  b_chunks : Z;
  b_errors : list string
}.

(** [v[k] = x] for a string [k] *)
Definition set_item (v : pyval) (k : string) (x : pyval) : exc pyval :=
  match v with
  | PyDict d => Return (PyDict (dict_set k x d))
  | _ => Raise (no_item_assignment v)
  end.

Section WithLibraries.

(** [hashlib.md5(bytes).hexdigest()], [Path.stem], [Path.name],
    [datetime.isoformat] on a reading of the clock, and [str(MEMORY_FILE)]. *)
Variable md5_hex : string -> string.
Variable path_stem : string -> string.
Variable path_name : string -> string.
Variable isoformat : Z -> string.
Variable memory_file : string.

(** The block [if MEMORY_FILE.exists(): try: ... except ...]: the file is
    counted whatever number of chunks [index_file] returns. *)
Definition index_memory_file (w : World) (force : bool) (res : BatchResult)
  : BatchResult * World :=
  match dict_get memory_file (disk w) with
  | None => (res, w)
  | Some _ =>
      match index_file md5_hex path_stem path_name w memory_file force with
      | (Return n, w') =>
          (mkBatch (b_files res + 1) (b_chunks res + n) (b_errors res), w')
      | (Raise e, w') =>
          (mkBatch (b_files res) (b_chunks res)
             (b_errors res ++ [("MEMORY.md: " ++ e)%string]), w')
      end
  end.

(** The body of the loop over [sorted(MEMORY_DIR.glob("*.md"))]: a file is
    counted when [index_file] returns a positive number of chunks. *)
Definition index_md_file (force : bool) (st : BatchResult * World)
  (md_file : string) : BatchResult * World :=
  match index_file md5_hex path_stem path_name (snd st) md_file force with
  | (Return n, w') =>
      if 0 <? n
      then (mkBatch (b_files (fst st) + 1) (b_chunks (fst st) + n)
              (b_errors (fst st)), w')
      else (fst st, w')
  | (Raise e, w') =>
      (mkBatch (b_files (fst st)) (b_chunks (fst st))
         (b_errors (fst st) ++ [(path_name md_file ++ ": " ++ e)%string]), w')
  end.

(** [AtlasRecall.index_all(force)].  [md_files] is
    [sorted(MEMORY_DIR.glob("*.md"))] when [MEMORY_DIR] exists.  The last
    three statements are outside every [try]. *)
Definition index_all (w : World) (md_files : option (list string))
  (force : bool) : exc BatchResult * World :=
  let st1 := index_memory_file w force (mkBatch 0 0 []) in
  let st2 :=
    match md_files with
    | Some l => fold_left (index_md_file force) l st1
    | None => st1
    end in
  let w2 := snd st2 in
  match load_index_state w2 with
  | Raise e => (Raise e, w2)
  | Return state =>
      let w3 :=
        mkWorld (disk w2) (index_state_file w2) (chroma w2)
                (letta_archival w2) (clock w2 + 1) in
      match set_item state "last_full_index" (PyStr (isoformat (clock w2))) with
      | Raise e => (Raise e, w3)
      | Return state' => (Return (fst st2), save_index_state w3 state')
      end
  end.

End WithLibraries.

End Batch.

(** ** [load_openai_key] *)

Module Config.
Import PyStr Json.

(** What [load_openai_key] reads and writes: [os.environ] and the text of
    [~/.config/openai/api_key] when that file exists. *)
Record Env := mkEnv {
  environ : list (string * string);
  key_file : option string
}.

(** [load_openai_key()]: the key or the [ValueError], and the environment
    it leaves.  An empty value of the variable is falsy. *)
Definition load_openai_key (env : Env) : exc string * Env :=
  match dict_get "OPENAI_API_KEY" (environ env) with
  | Some (String c r) => (Return (String c r), env)
  | _ =>
      match key_file env with
      | Some content =>
          let key := strip content in
          (Return key,
           mkEnv (dict_set "OPENAI_API_KEY" key (environ env)) (key_file env))
      | None => (Raise "OPENAI_API_KEY not found", env)
      end
  end.

End Config.

(** ** Auxiliary notions for the further properties *)

Module Further.
Import PyStr Chunker Json Index Recall Spec Invariants Samples Batch.

(** The document is attributed to [path]. *)
Definition from_path (path : string) (d : Doc) : bool :=
  String.eqb (doc_source_file d) path.

(** The chunk was flushed before the end of the document: by a heading,
    above the threshold, or by size. *)
Definition substantial (chunk_size : Z) (c : Chunk) : Prop :=
  200 < size c \/ chunk_size <= size c.

(** Metadata and distances reach as far as the documents. *)
Definition aligned (resp : ChromaResponse) : Prop :=
  (List.length (documents resp) <= List.length (metadatas resp))%nat
  /\ forall ds,
       distances resp = Some ds ->
       (List.length (documents resp) <= List.length ds)%nat.

(** The hit [recall] builds from one document, its metadata and its
    distance. *)
Definition chroma_hit (doc : string) (meta : ChromaMeta) (d : Q) : ChromaHit :=
  mkChromaHit doc (Some (with_default (meta_source_file meta) "unknown"))
    (Some (with_default (meta_headers meta) "")) (Some d) "chroma".

(** Until the first flush the buffer is all that was read; from then on the
    first chunk is a prefix of it. *)
Definition anchored (done : list string) (st : State) : Prop :=
  (chunks st = [] /\ current_chunk st = done)
  \/ exists c rest post,
       chunks st = c :: rest /\ chunk_lines c <> []
       /\ done = chunk_lines c ++ post.

(** Every flushed chunk records the total length of its lines and was
    flushed for a reason. *)
Definition measured (chunk_size : Z) (st : State) : Prop :=
  forall c,
    In c (chunks st) ->
    size c = sum_len (chunk_lines c) /\ substantial chunk_size c.

(** *** Sample worlds *)

Definition memory_path : string := "/home/atlas/clawd/MEMORY.md".

(** [index_file] with the stand-in digest and the identity for [Path.stem]
    and [Path.name]. *)
Definition sample_index (w : World) (path : string) (force : bool)
  : exc Z * World :=
  index_file sample_digest (fun s => s) (fun s => s) w path force.

(** The state file is the empty object: it has no ["files"] key. *)
Definition bare_world : World :=
  mkWorld [(memory_path, "# Memory")] (Some "{}")
          [mkDoc "MEMORY" 0 7 "old text" memory_path "Old" 8] None 9.

(** The state file is not JSON. *)
Definition broken_world : World :=
  mkWorld [(memory_path, "# Memory")] (Some "{not json")
          [mkDoc "MEMORY" 0 7 "old text" memory_path "Old" 8] None 9.

(** A text that [json.loads] rejects at its first token: it is blank; or
    it starts with a character that opens no value; or it opens an object
    and goes on with neither a key nor the closing brace. *)
Definition no_json_start (t : string) : bool :=
  match skip_ws t with
  | EmptyString => true
  | String c r =>
      if Ascii.eqb c "{" then
        match skip_ws r with
        | EmptyString => true
        | String c1 _ => negb (Ascii.eqb c1 "}" || Ascii.eqb c1 quote)
        end
      else
        negb (Ascii.eqb c quote
              || existsb (Ascii.eqb c)
                   (list_ascii_of_string "[ntf-0123456789NI"))
  end.

(** [Path.read_text()] on bytes below 128: the bytes, with [\r\n] and
    [\r] read as [\n]. *)
Fixpoint universal_newlines (s : string) : string :=
  match s with
  | EmptyString => EmptyString
  | String c r =>
      if Ascii.eqb c "013" then
        match r with
        | String c2 r2 =>
            if Ascii.eqb c2 newline
            then String newline (universal_newlines r2)
            else String newline (universal_newlines r)
        | EmptyString => String newline EmptyString
        end
      else String c (universal_newlines r)
  end.

(** [index_file] under faults, with the stand-in digest, the identity for
    [Path.stem] and [Path.name], and the ASCII [read_text]. *)
Definition sample_index_under (f : Faults) (w : World) (path : string)
  (force : bool) : exc Z * World :=
  index_file_under sample_digest (fun s => s) (fun s => s)
    (fun bytes => Return (universal_newlines bytes)) f w path force.

(** The file has two lines that end in [\r\n]; the store holds a chunk of
    an earlier pass; the state has no fingerprint yet. *)
Definition crlf_world : World :=
  mkWorld [(memory_path,
            String "#" (String " " (String "M" (String "013" (String newline
              (String "x" (String "013" (String newline EmptyString))))))))]
          None
          [mkDoc "MEMORY" 0 7 "old text" memory_path "Old" 8] None 9.


(** The store refuses the first [add]. *)
Definition first_add_refused : Faults :=
  mkFaults None false
    (fun i => match i with O => Some "store unavailable" | S _ => None end)
    false None.

(** The state holds, for the file [f] if it is on disk, the fingerprint of
    its content. *)
Definition up_to_date (digest : string -> string) (w : World)
  (fd : list (string * pyval)) (f : string) : Prop :=
  forall content,
    dict_get f (disk w) = Some content ->
    dict_get f fd = Some (PyStr (digest content)).

(** [index_all] with the stand-in digest, the identity for [Path.stem] and
    [Path.name], a clock reading rendered as one character, and
    [MEMORY.md] at [memory_path]. *)
Definition sample_index_all (w : World) (md_files : option (list string))
  (force : bool) : exc BatchResult * World :=
  index_all sample_digest (fun s => s) (fun s => s)
    (fun t => String (ascii_of_N (Z.to_N t)) EmptyString)
    memory_path w md_files force.

(** *** Sample backends *)

(** The vector store answers with two documents, their metadata and their
    distances; Mem0 answers with nothing; Letta is not connected. *)
Definition two_documents : ChromaResponse :=
  mkChromaResponse ["first"; "second"]
    [mkChromaMeta (Some "/m/a.md") (Some "A"); mkChromaMeta None None]
    (Some [1 # 4; 3 # 2]).

Definition self_two_documents : Self :=
  mkSelf (fun _ _ => Return (RespList [])) (fun _ _ => Return two_documents)
         None None.

(** The answer has metadata for the first document only. *)
Definition one_metadata : ChromaResponse :=
  mkChromaResponse ["first"; "second"]
    [mkChromaMeta (Some "/m/a.md") (Some "A")] None.

Definition self_one_metadata : Self :=
  mkSelf (fun _ _ => Return (RespList [])) (fun _ _ => Return one_metadata)
         None None.

(** Mem0 answers with a fact and a string. *)
Definition self_mixed_mem0 : Self :=
  mkSelf
    (fun _ _ =>
       Return (RespList [EntryDict (mkMem0Item (Some "likes tea") None
                                      (Some (9 # 10)) "");
                         EntryOther "str"]))
    (fun _ _ => Return empty_chroma) None None.

(** Letta is connected and answers with status 500. *)
Definition self_letta_500 : Self :=
  mkSelf (fun _ _ => Return (RespList [])) (fun _ _ => Return empty_chroma)
         (Some (fun _ _ _ =>
                  Return (mkHttpResponse 500
                            (Return [mkLettaItem (Some "passage")]))))
         (Some "agent-1").



(** The results [recall] returns for a self; [now] is fixed. *)
Definition sample_recall (self : Self) (limit : Z) : Results :=
  match recall self "now" "tea" limit with
  | Return r => r
  | Raise _ => mkResults "" "" [] [] [] None None None
  end.

(** [rank] with a digest that is the prefix itself. *)
Definition sample_rank (l : list Normalized) (limit : Z) : list Normalized :=
  rank (fun s => s) l limit.

(** A hit of the vector store at the negative distance -3/2. *)
Definition far_hit : ChromaHit :=
  mkChromaHit "first" (Some "/m/a.md") (Some "A") (Some (-3 # 2)) "chroma".

End Further.

Import PyStr Chunker Json Index Recall Spec Invariants Samples.
Import Batch Config Further.

(** * Properties *)

(** ** The embedding at work *)

Example chunk_markdown_one_section :
  chunk_markdown ("# Title" ++ nl ++ nl ++ "line1" ++ nl ++ "line2") 1000 100
  = [mkChunk ("# Title" ++ nl ++ nl ++ "line1" ++ nl ++ "line2") "Title" 17].
Proof. reflexivity. Qed.

Example chunk_markdown_nested_headers :
  map headers
    (chunk_markdown
       ("# A" ++ nl ++ "## B" ++ nl ++ "text" ++ nl ++ "## C" ++ nl ++ "more")
       8 100)
  = ["A > B"; "A > C"; "A > C"; "A > C"].
Proof. reflexivity. Qed.

Example dumps_indented :
  dumps (PyDict [("files", PyDict [("/a.md", PyStr "0f")]);
                 ("last_full_index", PyNone)])
  = ("{" ++ nl
     ++ "  " ++ String quote "files" ++ String quote ": {" ++ nl
     ++ "    " ++ String quote "/a.md" ++ String quote ": "
     ++ String quote "0f" ++ String quote "" ++ nl
     ++ "  }," ++ nl
     ++ "  " ++ String quote "last_full_index" ++ String quote ": null" ++ nl
     ++ "}")%string.
Proof. reflexivity. Qed.

Example loads_compact :
  loads ("{" ++ String quote "a" ++ String quote ":[null,true, {}]}")%string
  = Return (PyDict [("a", PyList [PyNone; PyBool true; PyDict []])]).
Proof. reflexivity. Qed.

Example sorted_desc_stable :
  map n_text
    (sorted_desc [mkNormalized "x" "mem0" None (1 # 2);
                  mkNormalized "y" "letta" None (7 # 10);
                  mkNormalized "z" "mem0" None (2 # 4)])
  = ["y"; "x"; "z"].
Proof. reflexivity. Qed.

(** ** Lines *)

Lemma string_app_nil_r (s : string) : (s ++ "")%string = s.
Proof. induction s; simpl; congruence. Qed.

Lemma string_app_assoc (a b c : string) :
  ((a ++ b) ++ c)%string = (a ++ b ++ c)%string.
Proof. induction a; simpl; congruence. Qed.

Lemma string_app_length (a b : string) :
  String.length (a ++ b)%string = (String.length a + String.length b)%nat.
Proof. induction a; simpl; congruence. Qed.

Lemma split_lines_nonempty (s : string) : split_lines s <> [].
Proof.
  induction s as [|c r IH]; simpl; [discriminate|].
  destruct (Ascii.eqb c newline); [discriminate|].
  destruct (split_lines r); discriminate.
Qed.

Lemma no_newline_empty : no_newline "".
Proof. intros c []. Qed.

Lemma no_newline_cons (c : ascii) (s : string) :
  no_newline (String c s) <-> c <> newline /\ no_newline s.
Proof.
  unfold no_newline; simpl; split.
  - intros H; split; [apply H; now left | intros d Hd; apply H; now right].
  - intros [Hc Hs] d [<- | Hd]; auto.
Qed.

Lemma split_lines_no_newline (s : string) : Forall no_newline (split_lines s).
Proof.
  induction s as [|c r IH]; simpl.
  - constructor; [apply no_newline_empty | constructor].
  - destruct (Ascii.eqb_spec c newline) as [->|Hc].
    + constructor; [apply no_newline_empty | exact IH].
    + destruct (split_lines r) as [|l ls].
      * constructor; [|constructor].
        apply no_newline_cons; split; [exact Hc | apply no_newline_empty].
      * inversion IH; subst. constructor; [|assumption].
        apply no_newline_cons; split; assumption.
Qed.

Lemma split_lines_line (s : string) : no_newline s -> split_lines s = [s].
Proof.
  induction s as [|c r IH]; intros H; simpl; [reflexivity|].
  apply no_newline_cons in H as [Hc Hr].
  destruct (Ascii.eqb_spec c newline) as [->|_]; [contradiction|].
  now rewrite (IH Hr).
Qed.

Lemma split_lines_app (s t : string) :
  no_newline s ->
  split_lines (s ++ String newline t)%string = s :: split_lines t.
Proof.
  induction s as [|c r IH]; intros H; simpl.
  - reflexivity.
  - apply no_newline_cons in H as [Hc Hr].
    destruct (Ascii.eqb_spec c newline) as [->|_]; [contradiction|].
    now rewrite (IH Hr).
Qed.

Lemma join_cons2 (sep x y : string) (r : list string) :
  join sep (x :: y :: r) = (x ++ sep ++ join sep (y :: r))%string.
Proof. reflexivity. Qed.

(** Splitting the joined lines gives the lines back. *)
Lemma split_join (l : list string) :
  l <> [] -> Forall no_newline l -> split_lines (join nl l) = l.
Proof.
  induction l as [|x r IH]; intros Hne Hall; [congruence|].
  inversion Hall as [|? ? Hx Hr]; subst.
  destruct r as [|y r'].
  - simpl. now apply split_lines_line.
  - change (join nl (x :: y :: r'))
      with (x ++ String newline (join nl (y :: r')))%string.
    rewrite split_lines_app by assumption.
    f_equal. apply IH; [discriminate | assumption].
Qed.

(** ** The loop of [chunk_markdown] *)

Lemma run_snoc (cs : Z) (lines : list string) (line : string) :
  run cs (lines ++ [line]) = step cs (run cs lines) line.
Proof. unfold run. now rewrite fold_left_app. Qed.

(** An invariant of the loop, indexed by the lines read so far. *)
Lemma run_invariant (P : list string -> State -> Prop) (cs : Z) :
  P [] init ->
  (forall done st line,
      no_newline line -> P done st -> P (done ++ [line]) (step cs st line)) ->
  forall lines, Forall no_newline lines -> P lines (run cs lines).
Proof.
  intros H0 Hstep lines.
  induction lines as [|x l IH] using rev_ind; intros Hall; [exact H0|].
  rewrite run_snoc. apply Forall_app in Hall as [Hl Hx].
  inversion Hx; subst. apply Hstep; auto.
Qed.

Lemma sum_len_nonneg (l : list string) : 0 <= sum_len l.
Proof. induction l; simpl; unfold len in *; lia. Qed.

Lemma sum_len_app (a b : list string) : sum_len (a ++ b) = sum_len a + sum_len b.
Proof. induction a; simpl; lia. Qed.

Lemma overlap_lines_skipn (l : list string) :
  overlap_lines l = skipn (List.length l - 3) l.
Proof.
  unfold overlap_lines. destruct (Nat.ltb_spec 3 (List.length l)); [reflexivity|].
  replace (List.length l - 3)%nat with 0%nat by lia. reflexivity.
Qed.

Lemma overlap_lines_lastn (l : list string) :
  overlap_lines l = lastn (Nat.min 3 (List.length l)) l.
Proof.
  rewrite overlap_lines_skipn. unfold lastn. f_equal. lia.
Qed.

Lemma overlap_lines_length (l : list string) :
  List.length (overlap_lines l) = Nat.min 3 (List.length l).
Proof. rewrite overlap_lines_skipn, length_skipn. lia. Qed.

Lemma overlap_lines_suffix (l : list string) :
  exists p, l = p ++ overlap_lines l.
Proof.
  rewrite overlap_lines_skipn. exists (firstn (List.length l - 3) l).
  now rewrite firstn_skipn.
Qed.

Lemma overlap_lines_nonempty (l : list string) :
  l <> [] -> overlap_lines l <> [].
Proof.
  intros Hl He. apply (f_equal (@List.length string)) in He.
  rewrite overlap_lines_length in He. destruct l; [congruence | simpl in He; lia].
Qed.

Lemma overlap_lines_no_newline (l : list string) :
  Forall no_newline l -> Forall no_newline (overlap_lines l).
Proof.
  intros H. destruct (overlap_lines_suffix l) as [p Hp].
  rewrite Hp in H. now apply Forall_app in H.
Qed.

Lemma buffer_ok_init : buffer_ok init.
Proof. split; [reflexivity | constructor]. Qed.

Lemma buffer_ok_flush (st : State) : buffer_ok st -> buffer_ok (flush st).
Proof.
  intros [_ Hn]. split; [reflexivity | now apply overlap_lines_no_newline].
Qed.

Lemma buffer_ok_push (st : State) (line : string) :
  no_newline line -> buffer_ok st -> buffer_ok (push st line).
Proof.
  intros Hl [Hs Hn]. split; simpl.
  - rewrite sum_len_app, Hs. simpl. lia.
  - apply Forall_app; split; [assumption | now constructor].
Qed.

Lemma buffer_ok_on_header (st : State) (line : string) :
  buffer_ok st -> buffer_ok (on_header st line).
Proof.
  intros H. unfold on_header.
  destruct (200 <? current_size st); [apply buffer_ok_flush in H|]; exact H.
Qed.

Lemma buffer_ok_step (cs : Z) (st : State) (line : string) :
  no_newline line -> buffer_ok st -> buffer_ok (step cs st line).
Proof.
  intros Hl H. unfold step.
  assert (H1 : buffer_ok (if startswith_hash line then on_header st line else st)).
  { destruct (startswith_hash line); [now apply buffer_ok_on_header | exact H]. }
  apply (buffer_ok_push _ line Hl) in H1.
  destruct (cs <=? _); [now apply buffer_ok_flush | exact H1].
Qed.

(** A buffer whose size exceeds the threshold holds a line. *)
Lemma buffer_big_nonempty (st : State) :
  buffer_ok st -> (200 <? current_size st) = true -> current_chunk st <> [].
Proof.
  intros [Hs _] Hb He. rewrite Hs, He in Hb. discriminate.
Qed.

Lemma push_nonempty (st : State) (line : string) :
  current_chunk (push st line) <> [].
Proof. simpl. intros H. now apply app_eq_nil in H as [_ H]. Qed.

(** The lines of an emitted chunk are the buffer. *)
Lemma chunk_lines_emit (st : State) :
  buffer_ok st -> current_chunk st <> [] ->
  chunk_lines (emit st) = current_chunk st.
Proof.
  intros [_ Hn] Hne. unfold chunk_lines, emit; simpl.
  now apply split_join.
Qed.

(** ** Overlap between consecutive chunks *)

Lemma adjacent_snoc {A} (a b e : A) (l : list A) :
  adjacent a b (l ++ [e]) ->
  adjacent a b l \/ (b = e /\ exists l', l = l' ++ [a]).
Proof.
  intros (l1 & l2 & H).
  destruct (exists_last (l := b :: l2)) as (m & z & Hm); [discriminate|].
  destruct m as [|b' m'].
  - right. injection Hm as -> ->. 
    change (l ++ [e] = l1 ++ [a] ++ [z]) in H. rewrite app_assoc in H.
    apply app_inj_tail in H as [-> ->]. split; [reflexivity | now exists l1].
  - left. injection Hm as <- ->.
    change (l ++ [e] = l1 ++ [a] ++ (b :: m') ++ [z]) in H.
    rewrite !app_assoc in H. apply app_inj_tail in H as [-> _].
    exists l1, m'. now rewrite <- !app_assoc.
Qed.

(** The kept lines are shared: the last [min 3 n] lines of a buffer of [n]
    lines open whatever buffer grows from its overlap. *)
Lemma overlap_shared (l extra : list string) :
  lastn (Nat.min 3 (List.length l)) l
  = firstn (Nat.min 3 (List.length l)) (overlap_lines l ++ extra).
Proof.
  rewrite <- overlap_lines_lastn, <- overlap_lines_length.
  rewrite firstn_app, firstn_all, Nat.sub_diag. simpl. now rewrite app_nil_r.
Qed.

Lemma chained_init : chained init.
Proof.
  split; simpl.
  - intros prev next (l1 & l2 & H). now destruct l1.
  - intros l c H. now destruct l.
Qed.

Lemma chained_emit (st : State) :
  buffer_ok st -> current_chunk st <> [] -> chained st ->
  forall prev next,
    adjacent prev next (chunks st ++ [emit st]) ->
    shares_lines (Nat.min 3 (List.length (chunk_lines prev))) prev next.
Proof.
  intros Hb Hne [Hadj Hlast] prev next H.
  apply adjacent_snoc in H as [H | [-> [l' Hl]]]; [now apply Hadj|].
  destruct (Hlast _ _ Hl) as [extra He].
  unfold shares_lines. rewrite (chunk_lines_emit st Hb Hne), He.
  apply overlap_shared.
Qed.

Lemma chained_flush (st : State) :
  buffer_ok st -> current_chunk st <> [] -> chained st -> chained (flush st).
Proof.
  intros Hb Hne Hc. split.
  - apply (chained_emit st Hb Hne Hc).
  - intros l c H. simpl in H. apply app_inj_tail in H as [_ <-].
    exists []. simpl. now rewrite (chunk_lines_emit st Hb Hne), app_nil_r.
Qed.

Lemma chained_push (st : State) (line : string) :
  chained st -> chained (push st line).
Proof.
  intros [Hadj Hlast]. split; [exact Hadj|].
  intros l c H. simpl in *. destruct (Hlast _ _ H) as [extra ->].
  exists (extra ++ [line]). now rewrite app_assoc.
Qed.

Lemma chained_on_header (st : State) (line : string) :
  buffer_ok st -> chained st -> chained (on_header st line).
Proof.
  intros Hb Hc. unfold on_header.
  destruct (200 <? current_size st) eqn:E.
  - apply (chained_flush st Hb (buffer_big_nonempty st Hb E)) in Hc. exact Hc.
  - exact Hc.
Qed.

Lemma chained_step (cs : Z) (st : State) (line : string) :
  no_newline line -> buffer_ok st /\ chained st ->
  buffer_ok (step cs st line) /\ chained (step cs st line).
Proof.
  intros Hl [Hb Hc]. split; [now apply buffer_ok_step|]. unfold step.
  set (st1 := if startswith_hash line then on_header st line else st).
  assert (Hb1 : buffer_ok st1).
  { unfold st1. destruct (startswith_hash line);
      [now apply buffer_ok_on_header | exact Hb]. }
  assert (Hc1 : chained st1).
  { unfold st1. destruct (startswith_hash line);
      [now apply chained_on_header | exact Hc]. }
  apply (buffer_ok_push _ line Hl) in Hb1.
  apply (chained_push _ line) in Hc1.
  destruct (cs <=? _); [|exact Hc1].
  apply chained_flush; auto using push_nonempty.
Qed.

Lemma chained_run (cs : Z) (lines : list string) :
  Forall no_newline lines ->
  buffer_ok (run cs lines) /\ chained (run cs lines).
Proof.
  apply (run_invariant (fun _ st => buffer_ok st /\ chained st)).
  - split; [apply buffer_ok_init | apply chained_init].
  - intros done st line Hl H. now apply chained_step.
Qed.

(** Each chunk after the first opens with the last [min 3 n] lines of its
    predecessor, [n] being the predecessor's line count. *)
Lemma adjacent_chunks_share (content : string) (chunk_size overlap : Z)
  (prev next : Chunk) :
  adjacent prev next (chunk_markdown content chunk_size overlap) ->
  shares_lines (Nat.min 3 (List.length (chunk_lines prev))) prev next.
Proof.
  unfold chunk_markdown, finish.
  destruct (chained_run chunk_size (split_lines content)
              (split_lines_no_newline content)) as [Hb Hc].
  destruct (current_chunk (run chunk_size (split_lines content))) eqn:E.
  - apply Hc.
  - apply chained_emit; auto. rewrite E. discriminate.
Qed.

(** C1, as the code has it: whatever the overlap argument, each chunk after
    the first opens with the last [min 3 n] lines of its predecessor, [n]
    being the predecessor's line count: three lines are kept on every
    flush, not [overlap] lines.  The bound of the specification,
    [min overlap n] shared lines, follows for [overlap <= 3]. *)
Theorem overlap_three_lines (content : string) (chunk_size overlap : Z)
  (prev next : Chunk) :
  adjacent prev next (chunk_markdown content chunk_size overlap) ->
  shares_lines (Nat.min 3 (List.length (chunk_lines prev))) prev next
  /\ (overlap <= 3 ->
      exists m,
        Z.min overlap (Z.of_nat (List.length (chunk_lines prev))) <= Z.of_nat m
        /\ shares_lines m prev next).
Proof.
  intros H. apply adjacent_chunks_share in H. split; [exact H|].
  intros Hk. exists (Nat.min 3 (List.length (chunk_lines prev))).
  split; [lia | exact H].
Qed.

(** C1 at a document of six one-character lines cut at size 5, with
    [overlap = 2]. *)
Lemma overlap_three_lines_witness :
  shares_lines 3
    (mkChunk ("a" ++ nl ++ "b" ++ nl ++ "c" ++ nl ++ "d" ++ nl ++ "e") "" 5)
    (mkChunk ("c" ++ nl ++ "d" ++ nl ++ "e" ++ nl ++ "f") "" 4)
  /\ exists m,
       Z.min 2 5 <= Z.of_nat m
       /\ shares_lines m
            (mkChunk ("a" ++ nl ++ "b" ++ nl ++ "c" ++ nl ++ "d" ++ nl ++ "e")
                     "" 5)
            (mkChunk ("c" ++ nl ++ "d" ++ nl ++ "e" ++ nl ++ "f") "" 4).
Proof.
  destruct (overlap_three_lines
              ("a" ++ nl ++ "b" ++ nl ++ "c" ++ nl ++ "d" ++ nl ++ "e" ++ nl ++ "f")
              5 2
              (mkChunk ("a" ++ nl ++ "b" ++ nl ++ "c" ++ nl ++ "d" ++ nl ++ "e")
                       "" 5)
              (mkChunk ("c" ++ nl ++ "d" ++ nl ++ "e" ++ nl ++ "f") "" 4))
    as [H1 H2].
  - exists [], []. reflexivity.
  - split; [exact H1 | apply H2; lia].
Defined.

(** C1 fails as stated: with [overlap = 4] and a first chunk of five lines
    the second chunk shares three lines with it, not four. *)
Lemma overlap_invariant_fails :
  ~ overlap_invariant
      ("a" ++ nl ++ "b" ++ nl ++ "c" ++ nl ++ "d" ++ nl ++ "e" ++ nl ++ "f") 5 4.
Proof.
  intros H.
  destruct (H (mkChunk ("a" ++ nl ++ "b" ++ nl ++ "c" ++ nl ++ "d" ++ nl ++ "e") "" 5)
              (mkChunk ("c" ++ nl ++ "d" ++ nl ++ "e" ++ nl ++ "f") "" 4))
    as (m & Hm & Hs).
  - exists [], []. reflexivity.
  - unfold shares_lines, lastn in Hs. cbn in Hm, Hs.
    do 4 (destruct m as [|m]; [lia|]).
    destruct m as [|m]; [discriminate Hs|].
    apply (f_equal (@List.length string)) in Hs.
    rewrite length_skipn, length_firstn in Hs. simpl in Hs. lia.
Qed.

(** C9: the chunks do not depend on the overlap argument, and a flush keeps
    the last three lines of the buffer, or all of it when it holds at most
    three. *)
Theorem overlap_argument_ignored (content : string) (chunk_size o1 o2 : Z) :
  chunk_markdown content chunk_size o1 = chunk_markdown content chunk_size o2
  /\ forall st : State,
       current_chunk (flush st)
       = skipn (List.length (current_chunk st) - 3) (current_chunk st).
Proof.
  split; [reflexivity|]. intros st. simpl. apply overlap_lines_skipn.
Qed.

(** ** Empty text *)

(** C7 at the empty document: the final [if current_chunk:] sees the list
    with the one empty line and emits a chunk whose text is empty. *)
Theorem empty_document_chunk :
  chunk_markdown "" 1000 100 = [mkChunk "" "" 0].
Proof. reflexivity. Qed.

Lemma join_two_nonempty (x y : string) (r : list string) :
  join nl (x :: y :: r) <> EmptyString.
Proof. rewrite join_cons2. destruct x; discriminate. Qed.

Lemma join_sized_nonempty (l : list string) :
  0 < sum_len l -> join nl l <> EmptyString.
Proof.
  destruct l as [|x [|y r]]; simpl; [lia | | intros _; apply join_two_nonempty].
  unfold len. destruct x; simpl; [lia | discriminate].
Qed.

Lemma overlap_lines_text (l : list string) :
  join nl l <> EmptyString -> join nl (overlap_lines l) <> EmptyString.
Proof.
  intros H. unfold overlap_lines.
  destruct (Nat.ltb_spec 3 (List.length l)) as [Hlt|_]; [|exact H].
  assert (Hlen : List.length (skipn (List.length l - 3) l) = 3%nat)
    by (rewrite length_skipn; lia).
  destruct (skipn (List.length l - 3) l) as [|x [|y r]]; try discriminate.
  apply join_two_nonempty.
Qed.

Lemma filled_flush (done : list string) (st : State) :
  join nl (current_chunk st) <> EmptyString ->
  filled done st -> filled done (flush st).
Proof.
  intros Ht [Hc _]. split.
  - intros c Hin. simpl in Hin. apply in_app_or in Hin as [Hin | [<- | []]];
      [now apply Hc | exact Ht].
  - right. right. simpl. now apply overlap_lines_text.
Qed.

Lemma filled_on_header (done : list string) (st : State) (line : string) :
  buffer_ok st -> filled done st -> filled done (on_header st line).
Proof.
  intros [Hs _] Hf. unfold on_header.
  destruct (Z.ltb_spec 200 (current_size st)) as [Hbig|_]; [|exact Hf].
  apply filled_flush; [|exact Hf]. apply join_sized_nonempty. lia.
Qed.

Lemma filled_push (done : list string) (st : State) (line : string) :
  filled done st -> filled (done ++ [line]) (push st line).
Proof.
  intros [Hc Hb]. split; [exact Hc|]. simpl.
  destruct Hb as [[-> ->] | [[-> ->] | Ht]].
  - simpl. destruct line; [right; left; now split | right; right; discriminate].
  - right. right. apply join_two_nonempty.
  - right. right. destruct (current_chunk st) as [|x r]; [now elim Ht|].
    destruct r; apply join_two_nonempty.
Qed.

Lemma filled_step (cs : Z) (done : list string) (st : State) (line : string) :
  0 < cs -> no_newline line -> buffer_ok st /\ filled done st ->
  buffer_ok (step cs st line) /\ filled (done ++ [line]) (step cs st line).
Proof.
  intros Hcs Hl [Hb Hf]. split; [now apply buffer_ok_step|]. unfold step.
  set (st1 := if startswith_hash line then on_header st line else st).
  assert (Hb1 : buffer_ok st1).
  { unfold st1. destruct (startswith_hash line);
      [now apply buffer_ok_on_header | exact Hb]. }
  assert (Hf1 : filled done st1).
  { unfold st1. destruct (startswith_hash line);
      [now apply filled_on_header | exact Hf]. }
  apply (buffer_ok_push _ line Hl) in Hb1.
  apply (filled_push _ _ line) in Hf1.
  destruct (Z.leb_spec cs (current_size (push st1 line))) as [Hbig|_];
    [|exact Hf1].
  apply filled_flush; [|exact Hf1].
  apply join_sized_nonempty. destruct Hb1 as [<- _]. lia.
Qed.

Lemma split_lines_empty_line (s : string) :
  split_lines s = [EmptyString] -> s = EmptyString.
Proof.
  destruct s as [|c r]; [reflexivity|]. simpl.
  destruct (Ascii.eqb c newline).
  - intros [= H]. now apply split_lines_nonempty in H.
  - destruct (split_lines r); discriminate.
Qed.

(** Apart from the empty document, a positive [chunk_size] gives chunks of
    non-empty text only. *)
Lemma nonempty_document_chunks (content : string) (chunk_size overlap : Z)
  (c : Chunk) :
  0 < chunk_size -> content <> EmptyString ->
  In c (chunk_markdown content chunk_size overlap) ->
  text c <> EmptyString.
Proof.
  intros Hcs Hne. unfold chunk_markdown, finish.
  assert (H : buffer_ok (run chunk_size (split_lines content))
              /\ filled (split_lines content)
                   (run chunk_size (split_lines content))).
  { apply (run_invariant (fun done st => buffer_ok st /\ filled done st)).
    - split; [apply buffer_ok_init|]. split; [intros ? []|]. left. now split.
    - intros done st line Hl Hi. now apply filled_step.
    - apply split_lines_no_newline. }
  destruct H as [_ [Hc Hb]].
  destruct (current_chunk (run chunk_size (split_lines content))) as [|x r] eqn:E;
    [exact (Hc c)|].
  intros Hin. apply in_app_or in Hin as [Hin | [<- | []]]; [now apply Hc|].
  unfold emit. simpl. rewrite E.
  destruct Hb as [[Hb _] | [[_ Hb] | Hb]];
    [discriminate | now apply split_lines_empty_line in Hb | exact Hb].
Qed.

(** ** Coverage *)

Lemma in_chunk_lines_emit (st : State) (line : string) :
  buffer_ok st -> In line (current_chunk st) -> In line (chunk_lines (emit st)).
Proof.
  intros Hb Hin. rewrite chunk_lines_emit; auto.
  intros He. now rewrite He in Hin.
Qed.

Lemma covered_flush (done : list string) (st : State) :
  buffer_ok st -> covered done st -> covered done (flush st).
Proof.
  intros Hb Hc line Hin. left.
  destruct (Hc line Hin) as [(c & Hc1 & Hc2) | Hbuf].
  - exists c. split; [|exact Hc2]. simpl. apply in_or_app. now left.
  - exists (emit st). split; [simpl; apply in_or_app; right; now left|].
    now apply in_chunk_lines_emit.
Qed.

Lemma covered_on_header (done : list string) (st : State) (line : string) :
  buffer_ok st -> covered done st -> covered done (on_header st line).
Proof.
  intros Hb Hc. unfold on_header.
  destruct (200 <? current_size st); [apply covered_flush in Hc; auto|];
    exact Hc.
Qed.

Lemma covered_push (done : list string) (st : State) (line : string) :
  covered done st -> covered (done ++ [line]) (push st line).
Proof.
  intros Hc l Hin. apply in_app_or in Hin as [Hin | [<- | []]].
  - destruct (Hc l Hin) as [H | H]; [now left|].
    right. simpl. apply in_or_app. now left.
  - right. simpl. apply in_or_app. right. now left.
Qed.

Lemma covered_step (cs : Z) (done : list string) (st : State) (line : string) :
  no_newline line -> buffer_ok st /\ covered done st ->
  buffer_ok (step cs st line) /\ covered (done ++ [line]) (step cs st line).
Proof.
  intros Hl [Hb Hc]. split; [now apply buffer_ok_step|]. unfold step.
  set (st1 := if startswith_hash line then on_header st line else st).
  assert (Hb1 : buffer_ok st1).
  { unfold st1. destruct (startswith_hash line);
      [now apply buffer_ok_on_header | exact Hb]. }
  assert (Hc1 : covered done st1).
  { unfold st1. destruct (startswith_hash line);
      [now apply covered_on_header | exact Hc]. }
  apply (buffer_ok_push _ line Hl) in Hb1.
  apply (covered_push _ _ line) in Hc1.
  destruct (cs <=? _); [now apply covered_flush | exact Hc1].
Qed.

Lemma covered_run (cs : Z) (lines : list string) :
  Forall no_newline lines ->
  buffer_ok (run cs lines) /\ covered lines (run cs lines).
Proof.
  apply (run_invariant (fun done st => buffer_ok st /\ covered done st)).
  - split; [apply buffer_ok_init | intros l []].
  - intros done st line Hl H. now apply covered_step.
Qed.

(** C8: every non-blank line of the document is, verbatim, a line of the
    text of some returned chunk.  So is every blank line. *)
Theorem chunk_coverage (content : string) (chunk_size overlap : Z)
  (line : string) :
  In line (split_lines content) ->
  non_blank line ->
  exists c,
    In c (chunk_markdown content chunk_size overlap) /\ In line (chunk_lines c).
Proof.
  intros Hin _. unfold chunk_markdown, finish.
  destruct (covered_run chunk_size (split_lines content)
              (split_lines_no_newline content)) as [Hb Hc].
  destruct (Hc line Hin) as [(c & Hc1 & Hc2) | Hbuf].
  - exists c. split; [|exact Hc2].
    destruct (current_chunk _); [exact Hc1 | apply in_or_app; now left].
  - exists (emit (run chunk_size (split_lines content))).
    split; [|now apply in_chunk_lines_emit].
    destruct (current_chunk _);
      [contradiction | apply in_or_app; right; now left].
Qed.

(** C8 at a two-line document cut after its heading. *)
Lemma chunk_coverage_witness :
  exists c,
    In c (chunk_markdown ("# A" ++ nl ++ "body") 4 100)
    /\ In "body" (chunk_lines c).
Proof.
  apply chunk_coverage.
  - simpl. right. now left.
  - discriminate.
Defined.

(** ** Header paths *)

Lemma header_stack_snoc (done : list string) (line : string) :
  header_stack (done ++ [line])
  = if startswith_hash line then update_headers (header_stack done) line
    else header_stack done.
Proof. unfold header_stack. now rewrite fold_left_app. Qed.

Lemma scope_stack_snoc (done : list string) (line : string) :
  scope_stack (done ++ [line]) = scope_push (scope_stack done) line.
Proof. unfold scope_stack. now rewrite fold_left_app. Qed.

Lemma traced_flush (done : list string) (st : State) :
  current_chunk st <> [] ->
  traced (header_stack done) done st ->
  traced (header_stack done) done (flush st).
Proof.
  intros Hne (Hh & [p Hp] & Hc). split; [exact Hh|]. split.
  - simpl. destruct (overlap_lines_suffix (current_chunk st)) as [q Hq].
    exists (p ++ q). now rewrite <- app_assoc, <- Hq.
  - intros c Hin. simpl in Hin. apply in_app_or in Hin as [Hin | [<- | []]].
    + now apply Hc.
    + exists p, (current_chunk st), []. rewrite app_nil_r.
      repeat split; auto. simpl. now rewrite Hh, <- Hp.
Qed.

Lemma traced_on_header (done : list string) (st : State) (line : string) :
  buffer_ok st ->
  traced (header_stack done) done st ->
  traced (update_headers (header_stack done) line) done (on_header st line).
Proof.
  intros Hb Ht. unfold on_header.
  assert (H1 : traced (header_stack done) done
                 (if 200 <? current_size st then flush st else st)).
  { destruct (200 <? current_size st) eqn:E; [|exact Ht].
    apply traced_flush; [now apply buffer_big_nonempty | exact Ht]. }
  destruct H1 as (Hh & Hp & Hc). split; [simpl; now rewrite Hh|].
  split; assumption.
Qed.

Lemma traced_push (hs done : list string) (st : State) (line : string) :
  traced hs done st -> traced hs (done ++ [line]) (push st line).
Proof.
  intros (Hh & [p Hp] & Hc). split; [exact Hh|]. split.
  - exists p. simpl. now rewrite Hp, app_assoc.
  - intros c Hin. destruct (Hc c Hin) as (pre & buf & post & Hd & Hne & Ht & Hhd).
    exists pre, buf, (post ++ [line]). rewrite Hd, <- !app_assoc. auto.
Qed.

Lemma traced_step (cs : Z) (done : list string) (st : State) (line : string) :
  no_newline line ->
  buffer_ok st /\ traced (header_stack done) done st ->
  buffer_ok (step cs st line)
  /\ traced (header_stack (done ++ [line])) (done ++ [line]) (step cs st line).
Proof.
  intros Hl [Hb Ht]. split; [now apply buffer_ok_step|].
  rewrite header_stack_snoc.
  assert (H2 : traced (header_stack (done ++ [line])) (done ++ [line])
                 (push (if startswith_hash line then on_header st line else st)
                       line)).
  { rewrite header_stack_snoc. apply traced_push.
    destruct (startswith_hash line); [now apply traced_on_header | exact Ht]. }
  rewrite header_stack_snoc in H2. unfold step.
  destruct (cs <=? _); [|exact H2].
  rewrite <- header_stack_snoc in *.
  apply traced_flush; [apply push_nonempty | exact H2].
Qed.

Lemma traced_run (cs : Z) (lines : list string) :
  Forall no_newline lines ->
  buffer_ok (run cs lines)
  /\ traced (header_stack lines) lines (run cs lines).
Proof.
  apply (run_invariant
           (fun done st => buffer_ok st /\ traced (header_stack done) done st)).
  - split; [apply buffer_ok_init|]. split; [reflexivity|].
    split; [now exists [] | intros c []].
  - intros done st line Hl H. now apply traced_step.
Qed.

(** Every returned chunk spans a run of lines of the document and carries
    the header stack of the code at the last of them. *)
Lemma chunk_located (content : string) (chunk_size overlap : Z) (c : Chunk) :
  In c (chunk_markdown content chunk_size overlap) ->
  located (split_lines content) c.
Proof.
  unfold chunk_markdown, finish. intros Hin.
  destruct (traced_run chunk_size (split_lines content)
              (split_lines_no_newline content)) as [Hb Ht].
  destruct (current_chunk (run chunk_size (split_lines content))) eqn:E.
  - now apply Ht.
  - assert (Hne : current_chunk (run chunk_size (split_lines content)) <> [])
      by (rewrite E; discriminate).
    apply (traced_flush _ _ Hne) in Ht. apply Ht. exact Hin.
Qed.

(** *** The stack by position and the scope by level *)

Lemma lstrip_hash_length (s : string) :
  (String.length (lstrip_hash s) <= String.length s)%nat.
Proof.
  induction s as [|c r IH]; simpl; [lia|].
  destruct (Ascii.eqb c hash); simpl; lia.
Qed.

Lemma level_heading (line : string) :
  startswith_hash line = true -> 1 <= level line.
Proof.
  destruct line as [|c r]; simpl; [discriminate|]. intros H.
  unfold level, len.
  change (lstrip_hash (String c r))
    with (if Ascii.eqb c hash then lstrip_hash r else String c r).
  rewrite H. change (String.length (String c r)) with (S (String.length r)).
  pose proof (lstrip_hash_length r). lia.
Qed.

Lemma update_headers_firstn (hs : list string) (line : string) :
  startswith_hash line = true ->
  update_headers hs line
  = firstn (Z.to_nat (level line - 1)) hs ++ [header_text line].
Proof.
  intros H. apply level_heading in H. unfold update_headers, Chunker.slice_to.
  destruct (Z.ltb_spec (level line - 1) 0); [lia | reflexivity].
Qed.

Lemma firstn_seq_le (a m n : nat) :
  (m <= n)%nat -> firstn m (seq a n) = seq a m.
Proof.
  revert a n. induction m as [|m IH]; intros a n H; [reflexivity|].
  destruct n as [|n]; [lia|]. simpl. f_equal. apply IH. lia.
Qed.

Lemma filter_below_none (st : list (Z * string)) (a b : nat) :
  (b <= a)%nat ->
  map fst st = map Z.of_nat (seq a (List.length st)) ->
  filter (fun e => fst e <? Z.of_nat b) st = [].
Proof.
  revert a. induction st as [|[z t] st IH]; intros a Hb H; [reflexivity|].
  simpl in H. injection H as Hz HS. subst z. simpl.
  destruct (Z.ltb_spec (Z.of_nat a) (Z.of_nat b)); [lia|].
  apply (IH (S a)); [lia | exact HS].
Qed.

(** On a stack whose levels are [a], [a+1], ... the entries of level below
    [a + m] are the first [m]. *)
Lemma filter_below_firstn (st : list (Z * string)) (a m : nat) :
  (m <= List.length st)%nat ->
  map fst st = map Z.of_nat (seq a (List.length st)) ->
  filter (fun e => fst e <? Z.of_nat (a + m)) st = firstn m st.
Proof.
  revert a m. induction st as [|[z t] st IH]; intros a m Hm H.
  - now destruct m.
  - simpl in H. injection H as Hz HS. subst z.
    destruct m as [|m].
    + simpl firstn. apply (filter_below_none _ a); [lia|]. simpl. now f_equal.
    + simpl. destruct (Z.ltb_spec (Z.of_nat a) (Z.of_nat (a + S m))); [|lia].
      f_equal. replace (a + S m)%nat with (S a + m)%nat by lia.
      apply IH; [simpl in Hm; lia | exact HS].
Qed.

Lemma no_skipped_level_prefix (l : list string) (x : string) :
  no_skipped_level (l ++ [x]) -> no_skipped_level l.
Proof.
  intros H pre line post E. apply (H pre line (post ++ [x])).
  rewrite E, <- app_assoc. reflexivity.
Qed.

(** Where no heading skips a level, position in the stack of the code is
    level, and the stack is the scope. *)
Lemma scope_stack_levels (lines : list string) :
  no_skipped_level lines ->
  map snd (scope_stack lines) = header_stack lines
  /\ map fst (scope_stack lines)
     = map Z.of_nat (seq 1 (List.length (scope_stack lines))).
Proof.
  induction lines as [|x l IH] using rev_ind; intros Hns; [now split|].
  destruct (IH (no_skipped_level_prefix _ _ Hns)) as [Hsnd Hfst].
  rewrite scope_stack_snoc, header_stack_snoc. unfold scope_push.
  destruct (startswith_hash x) eqn:E; [|now split].
  pose proof (level_heading x E) as Hpos.
  pose proof (Hns l x [] eq_refl E) as Hle.
  rewrite <- Hsnd, length_map in Hle.
  set (m := Z.to_nat (level x - 1)).
  assert (Hm : (m <= List.length (scope_stack l))%nat) by (unfold m; lia).
  assert (HL : level x = Z.of_nat (1 + m)) by (unfold m; lia).
  rewrite (update_headers_firstn _ _ E). fold m. rewrite HL.
  rewrite (filter_below_firstn _ 1 m Hm Hfst). split.
  - now rewrite map_app, <- firstn_map, Hsnd.
  - rewrite map_app, <- firstn_map, Hfst, firstn_map, length_app.
    rewrite (firstn_seq_le 1 m _ Hm), (firstn_length_le _ Hm). simpl List.length.
    rewrite Nat.add_1_r, seq_S, map_app. reflexivity.
Qed.

Lemma header_stack_scope (lines : list string) :
  no_skipped_level lines -> header_stack lines = scope_headers lines.
Proof. intros H. symmetry. now apply scope_stack_levels. Qed.

Lemma spans_chunk_lines (content : string) (c : Chunk) (pre buf : list string) :
  spans content c pre buf -> chunk_lines c = buf.
Proof.
  intros (post & Hs & Hne & Ht). unfold chunk_lines. rewrite Ht.
  apply split_join; [exact Hne|].
  pose proof (split_lines_no_newline content) as H. rewrite Hs in H.
  apply Forall_app in H as [_ H]. now apply Forall_app in H as [H _].
Qed.

(** C3, as the code has it: a chunk carries the header stack in force at
    its last line, not at its first; a heading of [L] hashes cuts the stack
    to its first [L - 1] entries and appends its title; and where no
    heading skips a level the stack is the headers whose scope includes
    that line, no earlier sibling among them. *)
Theorem header_path_of_last_line (content : string) (chunk_size overlap : Z)
  (c : Chunk) :
  In c (chunk_markdown content chunk_size overlap) ->
  exists pre buf,
    spans content c pre buf
    /\ headers c = join " > " (header_stack (pre ++ buf))
    /\ (forall done line,
          startswith_hash line = true ->
          header_stack (done ++ [line])
          = firstn (Z.to_nat (level line - 1)) (header_stack done)
            ++ [header_text line])
    /\ (no_skipped_level (pre ++ buf) ->
        header_stack (pre ++ buf) = scope_headers (pre ++ buf)).
Proof.
  intros Hin.
  destruct (chunk_located _ _ _ _ Hin) as (pre & buf & post & Hs & Hne & Ht & Hh).
  exists pre, buf. split; [now exists post|]. split; [exact Hh|]. split.
  - intros done line E. rewrite header_stack_snoc, E.
    now apply update_headers_firstn.
  - apply header_stack_scope.
Qed.

(** C3 at a document whose heading follows an opening line. *)
Lemma header_path_of_last_line_witness :
  exists pre buf,
    spans ("intro" ++ nl ++ "# B" ++ nl ++ "body")
      (mkChunk ("intro" ++ nl ++ "# B" ++ nl ++ "body") "B" 12) pre buf
    /\ "B" = join " > " (header_stack (pre ++ buf))
    /\ (forall done line,
          startswith_hash line = true ->
          header_stack (done ++ [line])
          = firstn (Z.to_nat (level line - 1)) (header_stack done)
            ++ [header_text line])
    /\ (no_skipped_level (pre ++ buf) ->
        header_stack (pre ++ buf) = scope_headers (pre ++ buf)).
Proof.
  apply (header_path_of_last_line
           ("intro" ++ nl ++ "# B" ++ nl ++ "body") 1000 100
           (mkChunk ("intro" ++ nl ++ "# B" ++ nl ++ "body") "B" 12)).
  simpl. left. reflexivity.
Defined.

(** C3 fails as stated: the one chunk of this document opens with a line
    under no header and is labelled with the header that follows it. *)
Lemma header_path_first_line_fails :
  ~ (forall c,
        In c (chunk_markdown ("intro" ++ nl ++ "# B" ++ nl ++ "body") 1000 100) ->
        headers_at_first_line ("intro" ++ nl ++ "# B" ++ nl ++ "body") c).
Proof.
  intros H.
  destruct (H (mkChunk ("intro" ++ nl ++ "# B" ++ nl ++ "body") "B" 12))
    as (pre & buf & Hsp & Hh); [simpl; now left|].
  pose proof (spans_chunk_lines _ _ _ _ Hsp) as Hb.
  destruct Hsp as (post & Hs & _ & _).
  cbv in Hb. subst buf.
  destruct pre as [|p pre].
  - cbv in Hh. discriminate Hh.
  - apply (f_equal (@List.length string)) in Hs.
    rewrite !length_app in Hs. cbn in Hs. lia.
Qed.

(** ** Sorting by score *)


Lemma outranks_trans (x y z : Normalized) :
  outranks x y -> outranks y z -> outranks x z.
Proof. unfold outranks. intros H1 H2. eapply Qle_trans; eassumption. Qed.

Lemma insert_desc_perm (x : Normalized) (l : list Normalized) :
  Permutation (insert_desc x l) (x :: l).
Proof.
  induction l as [|y r IH]; simpl; [reflexivity|].
  destruct (Qle_bool (n_score y) (n_score x)); [reflexivity|].
  rewrite IH. apply perm_swap.
Qed.

Lemma sorted_desc_perm (l : list Normalized) : Permutation (sorted_desc l) l.
Proof.
  induction l as [|x r IH]; simpl; [reflexivity|].
  rewrite insert_desc_perm. now constructor.
Qed.

Lemma insert_desc_sorted (x : Normalized) (l : list Normalized) :
  StronglySorted outranks l -> StronglySorted outranks (insert_desc x l).
Proof.
  induction 1 as [|y r Hr IH Hy]; simpl.
  - constructor; constructor.
  - destruct (Qle_bool (n_score y) (n_score x)) eqn:E.
    + apply Qle_bool_iff in E. constructor; [now constructor|].
      constructor; [exact E|].
      eapply Forall_impl; [|exact Hy]. intros z Hz.
      eapply outranks_trans; [exact E | exact Hz].
    + constructor; [exact IH|].
      assert (Hxy : outranks y x).
      { unfold outranks. apply Qlt_le_weak, Qnot_le_lt.
        intros H. apply Qle_bool_iff in H. congruence. }
      eapply Permutation_Forall; [symmetry; apply insert_desc_perm|].
      now constructor.
Qed.

Lemma sorted_desc_sorted (l : list Normalized) :
  StronglySorted outranks (sorted_desc l).
Proof.
  induction l as [|x r IH]; simpl; [constructor | now apply insert_desc_sorted].
Qed.


Lemma StronglySorted_firstn (n : nat) (l : list Normalized) :
  StronglySorted outranks l -> StronglySorted outranks (firstn n l).
Proof.
  revert l. induction n as [|n IH]; intros l H; [constructor|].
  destruct l as [|a l]; [constructor|]. simpl.
  apply StronglySorted_inv in H as [H1 H2]. constructor; [now apply IH|].
  rewrite <- (firstn_skipn n l) in H2. now apply Forall_app in H2.
Qed.

Lemma In_firstn {A} (n : nat) (l : list A) (x : A) :
  In x (firstn n l) -> In x l.
Proof.
  intros H. rewrite <- (firstn_skipn n l). apply in_or_app. now left.
Qed.

Lemma NoDup_firstn {A} (n : nat) (l : list A) : NoDup l -> NoDup (firstn n l).
Proof.
  intros H. rewrite <- (firstn_skipn n l) in H. now apply NoDup_app_remove_r in H.
Qed.

(** A slice [l[:n]] is a prefix of [l]. *)
Lemma slice_to_firstn {A} (n : Z) (l : list A) :
  exists m, Recall.slice_to n l = firstn m l.
Proof.
  unfold Recall.slice_to, Chunker.slice_to. destruct (n <? 0); eauto.
Qed.


(** ** Deduplication and ranking *)

Section Ranking.

Variable md5_hex : string -> string.

Lemma dedupe_loop (l : list Normalized) (seen : list string)
  (unique : list Normalized) :
  snd (fold_left (dedupe_step md5_hex) l (seen, unique))
  = unique ++ dedupe_from md5_hex seen l.
Proof.
  revert seen unique. induction l as [|item r IH]; intros seen unique; simpl.
  - now rewrite app_nil_r.
  - destruct (existsb (String.eqb (text_hash md5_hex item)) seen); rewrite IH;
      [reflexivity | now rewrite <- app_assoc].
Qed.

Lemma dedupe_eq (l : list Normalized) :
  dedupe md5_hex l = dedupe_from md5_hex [] l.
Proof. unfold Recall.dedupe. now rewrite dedupe_loop. Qed.

Lemma seen_spec (h : string) (seen : list string) :
  existsb (String.eqb h) seen = true <-> In h seen.
Proof.
  rewrite existsb_exists. split.
  - intros (x & Hx & E). apply String.eqb_eq in E. now subst.
  - intros H. exists h. split; [exact H | apply String.eqb_refl].
Qed.

Lemma dedupe_from_incl (seen : list string) (l : list Normalized)
  (x : Normalized) :
  In x (dedupe_from md5_hex seen l) ->
  In x l /\ ~ In (text_hash md5_hex x) seen.
Proof.
  revert seen. induction l as [|item r IH]; intros seen; simpl; [tauto|].
  destruct (existsb _ seen) eqn:E.
  - intros H. apply IH in H as [H1 H2]. auto.
  - intros [<- | H].
    + split; [now left|]. rewrite <- seen_spec. congruence.
    + apply IH in H as [H1 H2]. split; [now right|].
      intros Hs. apply H2. now right.
Qed.

Lemma dedupe_from_nodup (seen : list string) (l : list Normalized) :
  NoDup (map (text_hash md5_hex) (dedupe_from md5_hex seen l)).
Proof.
  revert seen. induction l as [|item r IH]; intros seen; simpl; [constructor|].
  destruct (existsb _ seen); [apply IH|]. simpl. constructor; [|apply IH].
  intros H. apply in_map_iff in H as (y & Hy & Hin).
  apply dedupe_from_incl in Hin as [_ Hn]. apply Hn. rewrite Hy. now left.
Qed.



Lemma dedupe_from_sorted (seen : list string) (l : list Normalized) :
  StronglySorted outranks l ->
  StronglySorted outranks (dedupe_from md5_hex seen l).
Proof.
  intros H. revert seen. induction H as [|a l Hl IH Ha]; intros seen; simpl;
    [constructor|].
  destruct (existsb _ seen); [apply IH|]. constructor; [apply IH|].
  apply Forall_forall. intros x Hx. apply dedupe_from_incl in Hx as [Hx _].
  rewrite Forall_forall in Ha. now apply Ha.
Qed.




End Ranking.



(** ** Scores of the fact memory *)

(** C2 at a fact without a score: [recall] has already stored the score 0
    under the key, so the default 0.5 of [recall_unified] is never taken.
    A reported score passes through unchanged. *)
Theorem mem0_missing_score_is_zero (md5_hex path_name : string -> string) :
  recall_unified md5_hex path_name self_unscored "now" "tea" 5
  = Return [mkNormalized "likes tea" "mem0" None 0]
  /\ recall_unified md5_hex path_name self_scored "now" "tea" 5
     = Return [mkNormalized "likes tea" "mem0" None (9 # 10)].
Proof. split; reflexivity. Qed.

(** ** Fault isolation *)

(** Each block writes its own two keys and no other. *)
Lemma mem0_block_frame (self : Self) (query : string) (limit : Z)
  (res : Results) :
  let r := mem0_block self query limit res in
  r_chroma r = r_chroma res /\ r_chroma_error r = r_chroma_error res
  /\ r_letta r = r_letta res /\ r_letta_error r = r_letta_error res.
Proof.
  unfold mem0_block, try_except, bind.
  destruct (mem0_search self query limit) as [resp|e]; simpl; [|tauto].
  destruct (map_exc mem0_hit _); simpl; tauto.
Qed.

Lemma chroma_block_frame (self : Self) (query : string) (limit : Z)
  (res : Results) :
  let r := chroma_block self query limit res in
  r_mem0 r = r_mem0 res /\ r_mem0_error r = r_mem0_error res
  /\ r_letta r = r_letta res /\ r_letta_error r = r_letta_error res.
Proof.
  unfold chroma_block.
  destruct (chroma_query self query limit) as [resp|e]; simpl; [|tauto].
  destruct (chroma_loop _ _ _ _); simpl; tauto.
Qed.

Lemma letta_block_frame (self : Self) (query : string) (limit : Z)
  (res : Results) :
  let r := letta_block self query limit res in
  r_mem0 r = r_mem0 res /\ r_mem0_error r = r_mem0_error res
  /\ r_chroma r = r_chroma res /\ r_chroma_error r = r_chroma_error res.
Proof.
  unfold letta_block, try_except, bind.
  destruct (letta_ready self) as [[client agent]|]; [|tauto].
  destruct (client agent query limit) as [resp|e]; simpl; [|tauto].
  destruct (status_code resp =? 200); [|tauto].
  destruct (Recall.json resp); simpl; tauto.
Qed.

(** C6, as the code has it: [recall] returns its dict whatever the backends
    do.  A backend whose call raises leaves its message under its own
    [*_error] key and an empty list; a backend that answers contributes its
    hits whatever the others did.  A Letta backend that is not connected is
    skipped: its list stays empty and no [letta_error] is recorded. *)
Theorem recall_fault_isolation (self : Self) (now query : string) (limit : Z) :
  exists r,
    recall self now query limit = Return r
    /\ (forall e,
          mem0_search self query limit = Raise e ->
          r_mem0 r = [] /\ r_mem0_error r = Some e)
    /\ (forall resp hits,
          mem0_search self query limit = Return resp ->
          map_exc mem0_hit (mem0_entries resp) = Return hits ->
          r_mem0 r = hits /\ r_mem0_error r = None)
    /\ (forall e,
          chroma_query self query limit = Raise e ->
          r_chroma r = [] /\ r_chroma_error r = Some e)
    /\ (forall resp,
          chroma_query self query limit = Return resp ->
          (r_chroma r, r_chroma_error r)
          = chroma_loop resp 0 (documents resp) [])
    /\ (letta_ready self = None -> r_letta r = [] /\ r_letta_error r = None)
    /\ (forall client agent e,
          letta_ready self = Some (client, agent) ->
          client agent query limit = Raise e ->
          r_letta r = [] /\ r_letta_error r = Some e)
    /\ (forall client agent resp items,
          letta_ready self = Some (client, agent) ->
          client agent query limit = Return resp ->
          status_code resp = 200 ->
          Recall.json resp = Return items ->
          r_letta r = letta_hits items /\ r_letta_error r = None).
Proof.
  eexists. split; [reflexivity|].
  set (r0 := mkResults query now [] [] [] None None None).
  set (r1 := mem0_block self query limit r0).
  set (r2 := chroma_block self query limit r1).
  set (r3 := letta_block self query limit r2).
  destruct (mem0_block_frame self query limit r0) as (Ma & Mb & Mc & Md).
  destruct (chroma_block_frame self query limit r1) as (Ca & Cb & Cc & Cd).
  destruct (letta_block_frame self query limit r2) as (La & Lb & Lc & Ld).
  fold r1 in Ma, Mb, Mc, Md. fold r2 in Ca, Cb, Cc, Cd.
  fold r3 in La, Lb, Lc, Ld.
  rewrite La, Lb, Lc, Ld, Ca, Cb.
  repeat match goal with
         | |- _ /\ _ => split
         | |- forall _, _ => intro
         end.
  - unfold r1, mem0_block. now rewrite H.
  - unfold r1, mem0_block. now rewrite H.
  - unfold r1, mem0_block. rewrite H. simpl.
    fold (mem0_entries resp). now rewrite H0.
  - unfold r1, mem0_block. rewrite H. simpl.
    fold (mem0_entries resp). now rewrite H0.
  - unfold r2, chroma_block. rewrite H. simpl. now rewrite Ma.
  - unfold r2, chroma_block. now rewrite H.
  - unfold r2, chroma_block. rewrite H, Ma, Mb. simpl.
    now destruct (chroma_loop resp 0 (documents resp) []) as [hits [e|]].
  - unfold r3, letta_block. rewrite H. now rewrite Cc, Mc.
  - unfold r3, letta_block. rewrite H. now rewrite Cd, Md.
  - unfold r3, letta_block. rewrite H, H0. simpl. now rewrite Cc, Mc.
  - unfold r3, letta_block. rewrite H, H0. reflexivity.
  - unfold r3, letta_block. rewrite H, H0. simpl. rewrite H1, H2. simpl.
    now rewrite Cc, Mc.
  - unfold r3, letta_block. rewrite H, H0. simpl. rewrite H1, H2. simpl.
    now rewrite Cd, Md.
Qed.

(** C6 fails as stated for a backend that is not connected: nothing is
    recorded for it. *)
Lemma unavailable_not_recorded :
  ~ unavailable_is_recorded self_unscored "now" "tea" 5.
Proof.
  intros H. destruct (H eq_refl) as (r & e & Hr & He).
  injection Hr as <-. discriminate He.
Qed.

(** ** The JSON round trip *)

Lemma scanstring_escape_char (c : ascii) (s : string) :
  scanstring (escape_char c ++ s)
  = ' (t, rest) <- scanstring s ;; Return (String c t, rest).
Proof.
  destruct c as [[] [] [] [] [] [] [] []]; reflexivity.
Qed.

(** Scanning an encoded string gives the string back and stops after the
    closing quote. *)
Lemma scanstring_escape (s rest : string) :
  scanstring (escape_string s ++ String quote rest) = Return (s, rest).
Proof.
  induction s as [|c r IH]; [reflexivity|].
  change (escape_string (String c r)) with (escape_char c ++ escape_string r)%string.
  rewrite string_app_assoc, scanstring_escape_char, IH. reflexivity.
Qed.

Lemma dict_set_fresh {V} (k : string) (v : V) (d : list (string * V)) :
  ~ In k (map fst d) -> dict_set k v d = d ++ [(k, v)].
Proof.
  induction d as [|[k' v'] r IH]; simpl; intros H; [reflexivity|].
  destruct (String.eqb_spec k k') as [->|_]; [tauto|].
  rewrite IH; tauto.
Qed.

Lemma dict_of_pairs_from {V} (pairs acc : list (string * V)) :
  NoDup (map fst (acc ++ pairs)) ->
  fold_left (fun d kv => dict_set (fst kv) (snd kv) d) pairs acc = acc ++ pairs.
Proof.
  revert acc. induction pairs as [|[k v] r IH]; intros acc H; simpl.
  - now rewrite app_nil_r.
  - rewrite dict_set_fresh.
    + rewrite IH; rewrite <- app_assoc; [reflexivity | exact H].
    + rewrite map_app in H. apply NoDup_remove_2 in H.
      intros Hin. apply H. apply in_or_app. now left.
Qed.

(** A list of pairs with distinct keys is the dict it builds. *)
Lemma dict_of_pairs_nodup {V} (pairs : list (string * V)) :
  NoDup (map fst pairs) -> dict_of_pairs pairs = pairs.
Proof. intros H. unfold dict_of_pairs. now rewrite dict_of_pairs_from. Qed.

Lemma skip_ws_spaces (n : nat) (s : string) :
  skip_ws (spaces n ++ s) = skip_ws s.
Proof. induction n as [|n IH]; [reflexivity | exact IH]. Qed.

Lemma skip_ws_newline_indent (level : nat) (s : string) :
  skip_ws (newline_indent level ++ s) = skip_ws s.
Proof. unfold newline_indent. simpl. apply skip_ws_spaces. Qed.

Lemma newline_indent_length (level : nat) :
  (1 <= String.length (newline_indent level))%nat.
Proof. unfold newline_indent. simpl. lia. Qed.

Lemma encode_opens (level : nat) (v : pyval) (rest : string) :
  opens_value (encode level v ++ rest).
Proof.
  destruct v as [|[]|s|[|x l]|[|kv d]]; simpl; auto.
Qed.

Lemma skip_ws_opens (s : string) : opens_value s -> skip_ws s = s.
Proof. destruct s as [|c r]; simpl; [tauto|]. now intros [-> _]. Qed.

Lemma encode_list_cons (level : nat) (x : pyval) (l : list pyval) :
  encode level (PyList (x :: l))
  = ("[" ++ newline_indent (S level)
     ++ join (separator (S level)) (map (encode (S level)) (x :: l))
     ++ newline_indent level ++ "]")%string.
Proof. reflexivity. Qed.

Lemma encode_dict_cons (level : nat) (kv : string * pyval)
  (d : list (string * pyval)) :
  encode level (PyDict (kv :: d))
  = ("{" ++ newline_indent (S level)
     ++ join (separator (S level)) (map (member_text (S level)) (kv :: d))
     ++ newline_indent level ++ "}")%string.
Proof.
  change (encode level (PyDict (kv :: d)))
    with ("{" ++ newline_indent (S level)
          ++ join (separator (S level))
               (map (fun kv => match kv with
                               | (k, x) =>
                                   (encode_string k ++ ": "
                                    ++ encode (S level) x)%string
                               end) (kv :: d))
          ++ newline_indent level ++ "}")%string.
  rewrite (map_ext _ (member_text (S level))); [reflexivity|].
  now intros [k x].
Qed.

(** *** The scanner, rule by rule *)

Lemma scan_once_string (f : nat) (r t rest : string) :
  scanstring r = Return (t, rest) ->
  scan_once (S f) (String quote r) = Return (PyStr t, rest).
Proof. intros H. simpl. now rewrite H. Qed.

Lemma scan_once_list (f : nat) (r r1 rest : string) (c1 : ascii)
  (items : list pyval) :
  skip_ws r = String c1 r1 ->
  Ascii.eqb c1 "]" = false ->
  scan_items f (String c1 r1) = Return (items, rest) ->
  scan_once (S f) (String "[" r) = Return (PyList items, rest).
Proof.
  intros H1 H2 H3.
  change (scan_once (S f) (String "[" r))
    with (match skip_ws r with
          | String c1 r1 =>
              if Ascii.eqb c1 "]" then Return (PyList [], r1)
              else
                ' (items, rest) <- scan_items f (String c1 r1) ;;
                Return (PyList items, rest)
          | EmptyString => Raise "Expecting value"
          end).
  now rewrite H1, H2, H3.
Qed.

Lemma scan_once_dict (f : nat) (r r1 rest : string)
  (pairs : list (string * pyval)) :
  skip_ws r = String quote r1 ->
  scan_members f r1 = Return (pairs, rest) ->
  scan_once (S f) (String "{" r) = Return (PyDict (dict_of_pairs pairs), rest).
Proof.
  intros H1 H2.
  change (scan_once (S f) (String "{" r))
    with (match skip_ws r with
          | String c1 r1 =>
              if Ascii.eqb c1 "}" then Return (PyDict [], r1)
              else if Ascii.eqb c1 quote then
                ' (pairs, rest) <- scan_members f r1 ;;
                Return (PyDict (dict_of_pairs pairs), rest)
              else Raise "Expecting property name enclosed in double quotes"
          | EmptyString =>
              Raise "Expecting property name enclosed in double quotes"
          end).
  rewrite H1. simpl. now rewrite H2.
Qed.

Lemma scan_items_last (f : nat) (s r rest : string) (x : pyval) :
  scan_once f s = Return (x, r) ->
  skip_ws r = String "]" rest ->
  scan_items (S f) s = Return ([x], rest).
Proof. intros H1 H2. simpl. rewrite H1. simpl. now rewrite H2. Qed.

Lemma scan_items_more (f : nat) (s r r2 rest : string) (x : pyval)
  (more : list pyval) :
  scan_once f s = Return (x, r) ->
  skip_ws r = String "," r2 ->
  scan_items f (skip_ws r2) = Return (more, rest) ->
  scan_items (S f) s = Return (x :: more, rest).
Proof.
  intros H1 H2 H3. simpl. rewrite H1. simpl. rewrite H2. simpl. now rewrite H3.
Qed.

Lemma scan_members_last (f : nat) (s key r1 r2 r3 rest : string) (v : pyval) :
  scanstring s = Return (key, r1) ->
  skip_ws r1 = String ":" r2 ->
  scan_once f (skip_ws r2) = Return (v, r3) ->
  skip_ws r3 = String "}" rest ->
  scan_members (S f) s = Return ([(key, v)], rest).
Proof.
  intros H1 H2 H3 H4. simpl. rewrite H1. simpl. rewrite H2. simpl.
  rewrite H3. simpl. now rewrite H4.
Qed.

Lemma scan_members_more (f : nat) (s key r1 r2 r3 r4 r5 rest : string)
  (v : pyval) (more : list (string * pyval)) :
  scanstring s = Return (key, r1) ->
  skip_ws r1 = String ":" r2 ->
  scan_once f (skip_ws r2) = Return (v, r3) ->
  skip_ws r3 = String "," r4 ->
  skip_ws r4 = String quote r5 ->
  scan_members f r5 = Return (more, rest) ->
  scan_members (S f) s = Return ((key, v) :: more, rest).
Proof.
  intros H1 H2 H3 H4 H5 H6. simpl. rewrite H1. simpl. rewrite H2. simpl.
  rewrite H3. simpl. rewrite H4. simpl. rewrite H5. simpl. now rewrite H6.
Qed.

(** *** Items, members and values *)

Lemma fuel_succ (n fuel : nat) :
  (n < fuel)%nat -> exists f, fuel = S f /\ (n <= f)%nat.
Proof.
  intros H. destruct fuel as [|f]; [lia|].
  exists f. split; [reflexivity | lia].
Qed.

Lemma join_opens (level : nat) (sep rest : string) (x : pyval) (l : list pyval) :
  opens_value (join sep (map (encode level) (x :: l)) ++ rest).
Proof.
  destruct l as [|y l].
  - apply encode_opens.
  - change (map (encode level) (x :: y :: l))
      with (encode level x :: encode level y :: map (encode level) l).
    rewrite join_cons2, string_app_assoc. apply encode_opens.
Qed.

Lemma scan_items_encode (items : list pyval) :
  items <> [] ->
  Forall round_trips items ->
  forall lv cl fuel rest,
    (String.length (join (separator lv) (map (encode lv) items)
                    ++ newline_indent cl ++ "]") < fuel)%nat ->
    scan_items fuel
      (join (separator lv) (map (encode lv) items)
       ++ newline_indent cl ++ "]" ++ rest)
    = Return (items, rest).
Proof.
  induction items as [|x r IH]; [congruence|]. intros _ Hall lv cl fuel rest Hf.
  inversion Hall as [|? ? Hx Hr]; subst.
  destruct (fuel_succ _ _ Hf) as (f & -> & Hle). clear Hf.
  pose proof (newline_indent_length cl) as Hcl.
  pose proof (newline_indent_length lv) as Hlv.
  destruct r as [|y r'].
  - change (join (separator lv) (map (encode lv) [x])) with (encode lv x) in *.
    rewrite !string_app_length in Hle. simpl in Hle.
    apply (scan_items_last f _ (newline_indent cl ++ "]" ++ rest)).
    + apply Hx. lia.
    + now rewrite skip_ws_newline_indent.
  - change (map (encode lv) (x :: y :: r'))
      with (encode lv x :: map (encode lv) (y :: r')) in *.
    change (encode lv x :: map (encode lv) (y :: r'))
      with (encode lv x :: encode lv y :: map (encode lv) r') in Hle |- * at 1.
    rewrite join_cons2 in *.
    change (encode lv y :: map (encode lv) r')
      with (map (encode lv) (y :: r')) in *.
    rewrite !string_app_assoc. rewrite !string_app_length in Hle.
    unfold separator at 1. unfold separator in Hle at 1. simpl in Hle.
    eapply scan_items_more.
    + apply Hx. lia.
    + reflexivity.
    + rewrite skip_ws_newline_indent, skip_ws_opens by apply join_opens.
      apply IH; [discriminate | exact Hr |].
      rewrite !string_app_length in *. simpl. lia.
Qed.

Lemma string_cons_inj (c : ascii) (a b : string) :
  String c a = String c b -> a = b.
Proof. now intros [= ->]. Qed.

Lemma member_text_unfold (lv : nat) (k : string) (x : pyval) (rest : string) :
  (member_text lv (k, x) ++ rest)%string
  = String quote
      (escape_string k
       ++ String quote (String ":" (String " " (encode lv x ++ rest))))%string.
Proof.
  unfold member_text, encode_string. simpl.
  now rewrite !string_app_assoc.
Qed.

Lemma member_text_length (lv : nat) (kv : string * pyval) :
  (String.length (encode lv (snd kv)) + 4 <= String.length (member_text lv kv))%nat.
Proof.
  unfold member_text, encode_string. simpl.
  rewrite !string_app_length. simpl. lia.
Qed.

Lemma separator_unfold (lv : nat) (rest : string) :
  (separator lv ++ rest)%string = String "," (newline_indent lv ++ rest).
Proof. reflexivity. Qed.

Lemma closing_length (cl : nat) (close : string) :
  (1 <= String.length (newline_indent cl ++ close))%nat.
Proof. rewrite string_app_length. pose proof (newline_indent_length cl). lia. Qed.

Lemma members_head (lv : nat) (d : list (string * pyval)) (rest : string) :
  d <> [] ->
  exists t,
    (join (separator lv) (map (member_text lv) d) ++ rest)%string
    = String quote t.
Proof.
  destruct d as [|[k x] [|kv' d']]; [congruence | |]; intros _.
  - change (join (separator lv) (map (member_text lv) [(k, x)]))
      with (member_text lv (k, x)).
    rewrite member_text_unfold. eauto.
  - change (map (member_text lv) ((k, x) :: kv' :: d'))
      with (member_text lv (k, x) :: member_text lv kv'
            :: map (member_text lv) d').
    rewrite join_cons2, !string_app_assoc, member_text_unfold. eauto.
Qed.

Lemma scan_members_encode (d : list (string * pyval)) :
  d <> [] ->
  Forall (fun kv => round_trips (snd kv)) d ->
  forall lv cl fuel rest r,
    (String.length (join (separator lv) (map (member_text lv) d)
                    ++ newline_indent cl ++ "}") < fuel)%nat ->
    String quote r
    = (join (separator lv) (map (member_text lv) d)
       ++ newline_indent cl ++ "}" ++ rest)%string ->
    scan_members fuel r = Return (d, rest).
Proof.
  induction d as [|[k x] d' IH]; [congruence|].
  intros _ Hall lv cl fuel rest r Hf Hr.
  inversion Hall as [|? ? Hx Hd]; subst.
  change (round_trips x) in Hx.
  destruct (fuel_succ _ _ Hf) as (f & -> & Hle). clear Hf.
  pose proof (closing_length cl "}") as Hcl.
  pose proof (member_text_length lv (k, x)) as Hk.
  change (snd (k, x)) with x in Hk.
  destruct d' as [|kv' d''].
  - change (join (separator lv) (map (member_text lv) [(k, x)]))
      with (member_text lv (k, x)) in Hr, Hle.
    rewrite member_text_unfold in Hr. apply string_cons_inj in Hr as ->.
    rewrite string_app_length in Hle.
    apply (scan_members_last f _ k
             (String ":" (String " " (encode lv x ++ newline_indent cl
                                      ++ "}" ++ rest)))
             (String " " (encode lv x ++ newline_indent cl ++ "}" ++ rest))
             (newline_indent cl ++ "}" ++ rest) rest x).
    + apply scanstring_escape.
    + reflexivity.
    + change (skip_ws (String " " ?s)) with (skip_ws s).
      rewrite skip_ws_opens by apply encode_opens. apply Hx. lia.
    + now rewrite skip_ws_newline_indent.
  - change (map (member_text lv) ((k, x) :: kv' :: d''))
      with (member_text lv (k, x) :: member_text lv kv'
            :: map (member_text lv) d'') in Hr, Hle.
    rewrite join_cons2 in Hr, Hle.
    change (member_text lv kv' :: map (member_text lv) d'')
      with (map (member_text lv) (kv' :: d'')) in Hr, Hle.
    rewrite !string_app_assoc in Hr, Hle.
    destruct (members_head lv (kv' :: d'')
                (newline_indent cl ++ "}" ++ rest)%string) as [t Ht];
      [discriminate|].
    rewrite Ht, member_text_unfold in Hr. apply string_cons_inj in Hr as ->.
    rewrite string_app_length, separator_unfold in Hle.
    change (String.length (String "," ?s)) with (S (String.length s)) in Hle.
    rewrite string_app_length in Hle.
    pose proof (newline_indent_length lv) as Hlv.
    apply (scan_members_more f _ k
             (String ":" (String " " (encode lv x ++ separator lv
                                      ++ String quote t)))
             (String " " (encode lv x ++ separator lv ++ String quote t))
             (separator lv ++ String quote t)
             (newline_indent lv ++ String quote t) t rest x (kv' :: d'')).
    + apply scanstring_escape.
    + reflexivity.
    + change (skip_ws (String " " ?s)) with (skip_ws s).
      rewrite skip_ws_opens by apply encode_opens. apply Hx. lia.
    + reflexivity.
    + now rewrite skip_ws_newline_indent.
    + apply (IH ltac:(discriminate) Hd lv cl f rest); [lia | now rewrite Ht].
Qed.

Lemma json_ok_list (l : list pyval) : json_ok (PyList l) -> Forall json_ok l.
Proof.
  induction l as [|x r IH]; [constructor|].
  intros [Hx Hr]. constructor; [exact Hx | now apply IH].
Qed.

Lemma json_ok_dict (d : list (string * pyval)) :
  json_ok (PyDict d) ->
  NoDup (map fst d) /\ Forall (fun kv => json_ok (snd kv)) d.
Proof.
  intros [Hk Hv]. split; [exact Hk|]. clear Hk.
  induction d as [|kv r IH]; [constructor|].
  destruct Hv as [Hx Hr]. constructor; [exact Hx | now apply IH].
Qed.

Lemma Forall_modus {A} (P Q : A -> Prop) (l : list A) :
  Forall (fun x => P x -> Q x) l -> Forall P l -> Forall Q l.
Proof.
  induction 1 as [|x r Hx _ IH]; intros H; [constructor|].
  inversion H; subst. constructor; auto.
Qed.

Lemma opens_value_head (s : string) :
  opens_value s ->
  exists c r, s = String c r /\ Ascii.eqb c "]" = false.
Proof. destruct s as [|c r]; simpl; [tauto|]. intros [_ H]. eauto. Qed.

(** Every value whose dicts have distinct keys round-trips. *)
Lemma encode_round_trips (v : pyval) : json_ok v -> round_trips v.
Proof.
  induction v as [|b|s|l IH|d IH] using pyval_nested_ind;
    intros Hok level fuel rest Hf;
    destruct (fuel_succ _ _ Hf) as (f & -> & Hle); clear Hf.
  - reflexivity.
  - now destruct b.
  - change (encode level (PyStr s) ++ rest)%string
      with (String quote ((escape_string s ++ String quote "") ++ rest))%string.
    rewrite string_app_assoc. apply scan_once_string, scanstring_escape.
  - destruct l as [|x l']; [reflexivity|].
    rewrite encode_list_cons in Hle |- *.
    pose proof (Forall_modus _ _ _ IH (json_ok_list _ Hok)) as Hrt.
    set (J := join (separator (S level)) (map (encode (S level)) (x :: l'))) in *.
    change (("[" ++ newline_indent (S level) ++ J ++ newline_indent level ++ "]")
            ++ rest)%string
      with (String "[" ((newline_indent (S level) ++ J ++ newline_indent level
                         ++ "]") ++ rest))%string.
    rewrite !string_app_assoc.
    destruct (opens_value_head _ (join_opens (S level) (separator (S level))
                (newline_indent level ++ "]" ++ rest) x l'))
      as (c1 & r1 & Hhead & Hc1).
    fold J in Hhead.
    change (String.length ("[" ++ ?s)%string) with (S (String.length s)) in Hle.
    rewrite string_app_length in Hle.
    pose proof (newline_indent_length (S level)).
    apply (scan_once_list f _ r1 rest c1); [|exact Hc1|].
    + rewrite skip_ws_newline_indent, Hhead.
      rewrite <- Hhead. apply skip_ws_opens. apply join_opens.
    + rewrite <- Hhead.
      apply scan_items_encode; [discriminate | exact Hrt | unfold J in *; lia].
  - destruct d as [|kv d']; [reflexivity|].
    rewrite encode_dict_cons in Hle |- *.
    destruct (json_ok_dict _ Hok) as [Hnd Hvals].
    pose proof (Forall_modus _ _ _ IH Hvals) as Hrt.
    set (J := join (separator (S level)) (map (member_text (S level)) (kv :: d')))
      in *.
    change (("{" ++ newline_indent (S level) ++ J ++ newline_indent level ++ "}")
            ++ rest)%string
      with (String "{" ((newline_indent (S level) ++ J ++ newline_indent level
                         ++ "}") ++ rest))%string.
    rewrite !string_app_assoc.
    destruct (members_head (S level) (kv :: d')
                (newline_indent level ++ "}" ++ rest)%string) as [t Ht];
      [discriminate|].
    fold J in Ht.
    change (String.length ("{" ++ ?s)%string) with (S (String.length s)) in Hle.
    rewrite string_app_length in Hle.
    pose proof (newline_indent_length (S level)).
    rewrite <- (dict_of_pairs_nodup (kv :: d') Hnd) at 1.
    apply (scan_once_dict f _ t rest).
    + now rewrite skip_ws_newline_indent, Ht.
    + apply (scan_members_encode (kv :: d') ltac:(discriminate) Hrt
               (S level) level f rest t); [unfold J in *; lia | now rewrite <- Ht].
Qed.

Lemma dumps_opens (v : pyval) : skip_ws (dumps v) = dumps v.
Proof.
  unfold dumps. rewrite <- (string_app_nil_r (encode 0%nat v)).
  apply skip_ws_opens, encode_opens.
Qed.

(** [json.loads(json.dumps(v, indent=2))] is [v]. *)
Lemma loads_dumps (v : pyval) : json_ok v -> loads (dumps v) = Return v.
Proof.
  intros Hok. unfold loads. rewrite dumps_opens.
  rewrite <- (string_app_nil_r (dumps v)) at 2. unfold dumps.
  rewrite (encode_round_trips v Hok 0%nat _ ""); [reflexivity | lia].
Qed.

(** ** The persisted index state *)

Lemma map_fst_entries (fs : list (string * string)) :
  map fst (map (fun kv => (fst kv, PyStr (snd kv))) fs) = map fst fs.
Proof. rewrite map_map. reflexivity. Qed.

Lemma persisted_shape_ok (st : pyval) : persisted_shape st -> json_ok st.
Proof.
  intros (fs & ts & Hnd & ->). unfold state_of. split.
  - destruct ts as [[t|]|]; simpl; repeat constructor; simpl; intuition discriminate.
  - split.
    + split; [now rewrite map_fst_entries|].
      clear Hnd. induction fs as [|kv r IH]; simpl; auto.
    + destruct ts as [[t|]|]; simpl; auto.
Qed.

(** C10: a state of the persisted shape, saved and loaded again, is the
    state that was saved, whatever strings its paths, fingerprints and
    timestamp are. *)
Theorem index_state_round_trip (w : World) (st : pyval) :
  persisted_shape st ->
  load_index_state (save_index_state w st) = Return st.
Proof.
  intros H. unfold load_index_state, save_index_state. simpl.
  apply loads_dumps, persisted_shape_ok, H.
Qed.

(** C10 at a state of two files and a timestamp. *)
Lemma index_state_round_trip_witness :
  load_index_state
    (save_index_state sample_world
       (state_of [("/notes/a b.md", "9e107d9d372bb6826bd81d3542a419d6");
                  ("/notes/c.md", "e4d909c290d0fb1ca068ffaddf22cbd0")]
                 (Some (Some "2026-01-05T10:00:00.000001"))))
  = Return
      (state_of [("/notes/a b.md", "9e107d9d372bb6826bd81d3542a419d6");
                 ("/notes/c.md", "e4d909c290d0fb1ca068ffaddf22cbd0")]
                (Some (Some "2026-01-05T10:00:00.000001"))).
Proof.
  apply index_state_round_trip.
  eexists _, _. split; [|reflexivity].
  simpl. repeat constructor; simpl; intuition discriminate.
Defined.

(** ** Indexing an unchanged file *)

(** C5: when the index state on disk holds, for the file, the fingerprint
    of its current content, [index_file] without [force] returns 0 and
    leaves the world as it was: no chunk deleted or added, the state file
    untouched.  A second call does the same. *)
Theorem index_file_unchanged (md5_hex path_stem path_name : string -> string)
  (w : World) (path content : string) (d fd : list (string * pyval)) :
  dict_get path (disk w) = Some content ->
  load_index_state w = Return (PyDict d) ->
  dict_get "files" d = Some (PyDict fd) ->
  dict_get path fd = Some (PyStr (md5_hex content)) ->
  index_file md5_hex path_stem path_name w path false = (Return 0, w)
  /\ index_file md5_hex path_stem path_name
       (snd (index_file md5_hex path_stem path_name w path false)) path false
     = (Return 0, w).
Proof.
  intros Hfile Hload Hfiles Hhash.
  assert (H : index_file md5_hex path_stem path_name w path false = (Return 0, w)).
  { unfold index_file, unchanged, get_file_hash, subscript, get_method, eq_str.
    rewrite Hfile, Hload. simpl. rewrite Hfiles. simpl. rewrite Hhash.
    now rewrite String.eqb_refl. }
  split; [exact H|]. rewrite H. exact H.
Qed.

(** C5 at a world whose state file holds the fingerprint of the one file. *)
Lemma index_file_unchanged_witness :
  index_file sample_digest (fun s => s) (fun s => s) sample_world
    "/home/atlas/clawd/MEMORY.md" false
  = (Return 0, sample_world)
  /\ index_file sample_digest (fun s => s) (fun s => s)
       (snd (index_file sample_digest (fun s => s) (fun s => s) sample_world
               "/home/atlas/clawd/MEMORY.md" false))
       "/home/atlas/clawd/MEMORY.md" false
     = (Return 0, sample_world).
Proof.
  apply (index_file_unchanged sample_digest (fun s => s) (fun s => s)
           sample_world "/home/atlas/clawd/MEMORY.md" "# Memory"
           [("files", PyDict [("/home/atlas/clawd/MEMORY.md",
                               PyStr (sample_digest "# Memory"))]);
            ("last_full_index", PyNone)]
           [("/home/atlas/clawd/MEMORY.md", PyStr (sample_digest "# Memory"))]).
  - reflexivity.
  - vm_compute. reflexivity.
  - reflexivity.
  - reflexivity.
Defined.

(** * Further properties *)

(** ** The shape of the chunk list *)

Lemma join_split (s : string) : join nl (split_lines s) = s.
Proof.
  induction s as [|c r IH]; [reflexivity|]. simpl.
  pose proof (split_lines_nonempty r) as Hne.
  destruct (split_lines r) as [|l ls] eqn:E; [congruence|].
  destruct (Ascii.eqb_spec c newline) as [->|_].
  - rewrite join_cons2, IH. reflexivity.
  - destruct ls as [|l2 ls'].
    + change (join nl [String c l]) with (String c (join nl [l])).
      now rewrite IH.
    + rewrite join_cons2 in *.
      change (String c l ++ nl ++ join nl (l2 :: ls'))%string
        with (String c (l ++ nl ++ join nl (l2 :: ls')))%string.
      now rewrite IH.
Qed.

Lemma step_buffer_nonempty (cs : Z) (st : State) (line : string) :
  current_chunk (step cs st line) <> [].
Proof.
  unfold step. destruct (cs <=? _).
  - simpl. apply overlap_lines_nonempty, push_nonempty.
  - apply push_nonempty.
Qed.

Lemma run_buffer_nonempty (cs : Z) (lines : list string) :
  lines <> [] -> current_chunk (run cs lines) <> [].
Proof.
  intros H. destruct (exists_last H) as (l & x & ->).
  rewrite run_snoc. apply step_buffer_nonempty.
Qed.

(** The returned list is the flushed chunks and the chunk of the buffer. *)
Lemma chunk_markdown_snoc (content : string) (chunk_size overlap : Z) :
  chunk_markdown content chunk_size overlap
  = chunks (run chunk_size (split_lines content))
    ++ [emit (run chunk_size (split_lines content))].
Proof.
  unfold chunk_markdown, finish.
  pose proof (run_buffer_nonempty chunk_size (split_lines content)
                (split_lines_nonempty content)) as H.
  now destruct (current_chunk (run chunk_size (split_lines content))).
Qed.

Lemma anchored_flush (done : list string) (st : State) :
  buffer_ok st -> current_chunk st <> [] ->
  anchored done st -> anchored done (flush st).
Proof.
  intros Hb Hne [[Hc Hd] | (c & rest & post & Hc & Hl & Hd)]; right.
  - exists (emit st), [], []. simpl. rewrite Hc, (chunk_lines_emit st Hb Hne).
    rewrite app_nil_r. auto.
  - exists c, (rest ++ [emit st]), post. simpl. rewrite Hc. auto.
Qed.

Lemma anchored_push (done : list string) (st : State) (line : string) :
  anchored done st -> anchored (done ++ [line]) (push st line).
Proof.
  intros [[Hc Hd] | (c & rest & post & Hc & Hl & Hd)].
  - left. simpl. now rewrite Hd.
  - right. exists c, rest, (post ++ [line]). simpl.
    rewrite Hd, <- app_assoc. auto.
Qed.

Lemma anchored_step (cs : Z) (done : list string) (st : State) (line : string) :
  no_newline line -> buffer_ok st /\ anchored done st ->
  buffer_ok (step cs st line) /\ anchored (done ++ [line]) (step cs st line).
Proof.
  intros Hl [Hb Ha]. split; [now apply buffer_ok_step|]. unfold step.
  set (st1 := if startswith_hash line then on_header st line else st).
  assert (H1 : buffer_ok st1 /\ anchored done st1).
  { unfold st1. destruct (startswith_hash line); [|now split].
    split; [now apply buffer_ok_on_header|]. unfold on_header.
    destruct (200 <? current_size st) eqn:E; [|exact Ha].
    apply (anchored_flush done st Hb (buffer_big_nonempty st Hb E)) in Ha.
    exact Ha. }
  destruct H1 as [Hb1 Ha1].
  apply (buffer_ok_push _ line Hl) in Hb1.
  apply (anchored_push _ _ line) in Ha1.
  destruct (cs <=? _); [|exact Ha1].
  apply anchored_flush; auto using push_nonempty.
Qed.

Lemma anchored_run (cs : Z) (lines : list string) :
  Forall no_newline lines ->
  buffer_ok (run cs lines) /\ anchored lines (run cs lines).
Proof.
  apply (run_invariant (fun done st => buffer_ok st /\ anchored done st)).
  - split; [apply buffer_ok_init | now left].
  - intros done st line Hl H. now apply anchored_step.
Qed.

(** X1: [chunk_markdown] always returns at least one chunk; the lines of
    the first chunk open the document and the lines of the last chunk
    close it. *)
Theorem chunks_span_document (content : string) (chunk_size overlap : Z) :
  exists c rest,
    chunk_markdown content chunk_size overlap = c :: rest
    /\ (exists post, split_lines content = chunk_lines c ++ post)
    /\ (exists pre,
          split_lines content = pre ++ chunk_lines (last (c :: rest) c)).
Proof.
  rewrite chunk_markdown_snoc.
  set (st := run chunk_size (split_lines content)).
  destruct (anchored_run chunk_size (split_lines content)
              (split_lines_no_newline content)) as [Hb Ha].
  destruct (traced_run chunk_size (split_lines content)
              (split_lines_no_newline content)) as [_ (_ & [p Hp] & _)].
  fold st in Hb, Ha, Hp.
  pose proof (run_buffer_nonempty chunk_size (split_lines content)
                (split_lines_nonempty content)) as Hne.
  fold st in Hne.
  pose proof (chunk_lines_emit st Hb Hne) as He.
  destruct Ha as [[Hc Hd] | (c & rest & post & Hc & Hl & Hd)].
  - exists (emit st), []. rewrite Hc. split; [reflexivity|]. simpl. split.
    + exists []. now rewrite He, Hd, app_nil_r.
    + exists p. now rewrite He.
  - exists c, (rest ++ [emit st]). rewrite Hc. split; [reflexivity|]. split.
    + now exists post.
    + exists p. change (c :: rest ++ [emit st]) with ((c :: rest) ++ [emit st]).
      now rewrite last_last, He.
Qed.

(** ** A document below both thresholds *)

Lemma len_nonneg (s : string) : 0 <= len s.
Proof. unfold len. lia. Qed.

(** While the size stays below [chunk_size] and within the threshold of
    the heading flush, nothing is flushed. *)
Lemma run_quiet (cs : Z) (lines : list string) :
  sum_len lines < cs -> sum_len lines <= 200 ->
  run cs lines = mkState [] lines (header_stack lines) (sum_len lines).
Proof.
  induction lines as [|x l IH] using rev_ind; intros H1 H2; [reflexivity|].
  rewrite sum_len_app in *. simpl in H1, H2.
  pose proof (len_nonneg x). pose proof (sum_len_nonneg l).
  rewrite run_snoc, IH by lia. unfold step, on_header. simpl.
  rewrite header_stack_snoc.
  replace (200 <? sum_len l) with false by (symmetry; apply Z.ltb_ge; lia).
  assert (E : (cs <=? sum_len l + len x) = false) by (apply Z.leb_gt; lia).
  destruct (startswith_hash x); simpl; rewrite E; unfold push; simpl;
    (f_equal; lia).
Qed.

(** X2: a document whose lines total less than [chunk_size] and at most
    200 characters comes back as one chunk: its text is the document, its
    header path the stack after the last line, its size the total length
    of the lines. *)
Theorem short_document_one_chunk (content : string) (chunk_size overlap : Z) :
  sum_len (split_lines content) < chunk_size ->
  sum_len (split_lines content) <= 200 ->
  chunk_markdown content chunk_size overlap
  = [mkChunk content
       (join " > " (header_stack (split_lines content)))
       (sum_len (split_lines content))].
Proof.
  intros H1 H2. rewrite chunk_markdown_snoc, (run_quiet _ _ H1 H2).
  unfold emit. simpl. now rewrite join_split.
Qed.

(** X2 at a document of a heading and two lines. *)
Lemma short_document_one_chunk_witness :
  chunk_markdown ("# Title" ++ nl ++ nl ++ "line1" ++ nl ++ "line2") 1000 100
  = [mkChunk ("# Title" ++ nl ++ nl ++ "line1" ++ nl ++ "line2")
       (join " > "
          (header_stack
             (split_lines ("# Title" ++ nl ++ nl ++ "line1" ++ nl ++ "line2"))))
       (sum_len
          (split_lines ("# Title" ++ nl ++ nl ++ "line1" ++ nl ++ "line2")))].
Proof.
  apply short_document_one_chunk;
    [vm_compute; reflexivity | vm_compute; discriminate].
Defined.

(** ** The recorded size *)

Lemma len_app (a b : string) : len (a ++ b) = len a + len b.
Proof. unfold len. rewrite string_app_length. lia. Qed.

Lemma len_join (l : list string) :
  l <> [] -> len (join nl l) = sum_len l + Z.of_nat (List.length l) - 1.
Proof.
  induction l as [|x r IH]; [congruence|]. intros _.
  destruct r as [|y r'].
  - simpl. lia.
  - rewrite join_cons2, !len_app, IH by discriminate.
    change (len nl) with 1. simpl sum_len. simpl List.length. lia.
Qed.

Lemma emit_size (st : State) :
  buffer_ok st -> current_chunk st <> [] ->
  size (emit st) = sum_len (chunk_lines (emit st)).
Proof.
  intros Hb Hne. rewrite (chunk_lines_emit st Hb Hne). apply Hb.
Qed.

Lemma measured_flush (cs : Z) (st : State) :
  buffer_ok st -> current_chunk st <> [] ->
  substantial cs (emit st) ->
  measured cs st -> measured cs (flush st).
Proof.
  intros Hb Hne Hs Hm c Hin. simpl in Hin.
  apply in_app_or in Hin as [Hin | [<- | []]]; [now apply Hm|].
  split; [now apply emit_size | exact Hs].
Qed.

Lemma measured_step (cs : Z) (st : State) (line : string) :
  no_newline line -> buffer_ok st /\ measured cs st ->
  buffer_ok (step cs st line) /\ measured cs (step cs st line).
Proof.
  intros Hl [Hb Hm]. split; [now apply buffer_ok_step|]. unfold step.
  set (st1 := if startswith_hash line then on_header st line else st).
  assert (H1 : buffer_ok st1 /\ measured cs st1).
  { unfold st1. destruct (startswith_hash line); [|now split].
    split; [now apply buffer_ok_on_header|]. unfold on_header.
    destruct (Z.ltb_spec 200 (current_size st)) as [Hbig|_]; [|exact Hm].
    apply (measured_flush cs st Hb) in Hm; [exact Hm | | now left].
    apply buffer_big_nonempty; [exact Hb | now apply Z.ltb_lt]. }
  destruct H1 as [Hb1 Hm1].
  apply (buffer_ok_push _ line Hl) in Hb1.
  assert (Hm2 : measured cs (push st1 line)) by exact Hm1.
  destruct (Z.leb_spec cs (current_size (push st1 line))) as [Hbig|_];
    [|exact Hm2].
  apply measured_flush; auto using push_nonempty. now right.
Qed.

Lemma measured_run (cs : Z) (lines : list string) :
  Forall no_newline lines ->
  buffer_ok (run cs lines) /\ measured cs (run cs lines).
Proof.
  apply (run_invariant (fun _ st => buffer_ok st /\ measured cs st)).
  - split; [apply buffer_ok_init | intros c []].
  - intros done st line Hl H. now apply measured_step.
Qed.

(** X3: the [size] of every returned chunk is the total length of its
    lines: the newlines that join them are not counted, so the text is
    longer than [size] by the number of its lines less one. *)
Theorem chunk_size_counts_lines (content : string) (chunk_size overlap : Z)
  (c : Chunk) :
  In c (chunk_markdown content chunk_size overlap) ->
  size c = sum_len (chunk_lines c)
  /\ len (text c) = size c + Z.of_nat (List.length (chunk_lines c)) - 1.
Proof.
  intros Hin.
  assert (Hs : size c = sum_len (chunk_lines c)).
  { rewrite chunk_markdown_snoc in Hin.
    destruct (measured_run chunk_size (split_lines content)
                (split_lines_no_newline content)) as [Hb Hm].
    apply in_app_or in Hin as [Hin | [<- | []]]; [now apply Hm|].
    apply emit_size; [exact Hb|].
    apply run_buffer_nonempty, split_lines_nonempty. }
  split; [exact Hs|]. rewrite Hs.
  rewrite <- (join_split (text c)) at 1.
  apply len_join, split_lines_nonempty.
Qed.

(** X3 at the first chunk of six one-character lines cut at size 5. *)
Lemma chunk_size_counts_lines_witness :
  5 = sum_len (chunk_lines
                 (mkChunk ("a" ++ nl ++ "b" ++ nl ++ "c" ++ nl ++ "d" ++ nl ++ "e")
                          "" 5))
  /\ len ("a" ++ nl ++ "b" ++ nl ++ "c" ++ nl ++ "d" ++ nl ++ "e")
     = 5 + Z.of_nat
             (List.length
                (chunk_lines
                   (mkChunk
                      ("a" ++ nl ++ "b" ++ nl ++ "c" ++ nl ++ "d" ++ nl ++ "e")
                      "" 5))) - 1.
Proof.
  apply (chunk_size_counts_lines
           ("a" ++ nl ++ "b" ++ nl ++ "c" ++ nl ++ "d" ++ nl ++ "e" ++ nl ++ "f")
           5 100
           (mkChunk ("a" ++ nl ++ "b" ++ nl ++ "c" ++ nl ++ "d" ++ nl ++ "e")
                    "" 5)).
  simpl. left. reflexivity.
Defined.

(** X4: every returned chunk but the last was flushed above the heading
    threshold of 200 characters or at [chunk_size]: only the last chunk
    can be smaller than both. *)
Theorem only_last_chunk_small (content : string) (chunk_size overlap : Z)
  (flushed : list Chunk) (final c : Chunk) :
  chunk_markdown content chunk_size overlap = flushed ++ [final] ->
  In c flushed ->
  200 < size c \/ chunk_size <= size c.
Proof.
  rewrite chunk_markdown_snoc. intros H Hin.
  apply app_inj_tail in H as [H _]. rewrite <- H in Hin.
  destruct (measured_run chunk_size (split_lines content)
              (split_lines_no_newline content)) as [_ Hm].
  now apply Hm.
Qed.

(** X4 at the same document. *)
Lemma only_last_chunk_small_witness :
  200 < 5 \/ 5 <= 5.
Proof.
  apply (only_last_chunk_small
           ("a" ++ nl ++ "b" ++ nl ++ "c" ++ nl ++ "d" ++ nl ++ "e" ++ nl ++ "f")
           5 100
           [mkChunk ("a" ++ nl ++ "b" ++ nl ++ "c" ++ nl ++ "d" ++ nl ++ "e")
                    "" 5]
           (mkChunk ("c" ++ nl ++ "d" ++ nl ++ "e" ++ nl ++ "f") "" 4)
           (mkChunk ("a" ++ nl ++ "b" ++ nl ++ "c" ++ nl ++ "d" ++ nl ++ "e")
                    "" 5)).
  - reflexivity.
  - left. reflexivity.
Defined.

(** ** What [json.loads] builds *)

Lemma dict_set_keys_in {V} (k x : string) (v : V) (d : list (string * V)) :
  In x (map fst (dict_set k v d)) -> x = k \/ In x (map fst d).
Proof.
  induction d as [|[k' v'] r IH]; simpl.
  - intros [<- | []]. now left.
  - destruct (String.eqb_spec k k') as [->|_]; simpl; [tauto|].
    intros [<- | H]; [tauto|]. apply IH in H. tauto.
Qed.

Lemma dict_set_nodup {V} (k : string) (v : V) (d : list (string * V)) :
  NoDup (map fst d) -> NoDup (map fst (dict_set k v d)).
Proof.
  induction d as [|[k' v'] r IH]; simpl; intros H.
  - constructor; [intros [] | constructor].
  - inversion H as [|? ? Hk Hr]; subst.
    destruct (String.eqb_spec k k') as [->|Hne]; simpl; [now constructor|].
    constructor; [|now apply IH].
    intros Hin. apply dict_set_keys_in in Hin as [-> | Hin]; tauto.
Qed.

Lemma dict_set_values {V} (P : V -> Prop) (k : string) (v : V)
  (d : list (string * V)) :
  P v -> Forall (fun kv => P (snd kv)) d ->
  Forall (fun kv => P (snd kv)) (dict_set k v d).
Proof.
  intros Hv. induction 1 as [|[k' v'] r Hx Hr IH]; simpl.
  - now repeat constructor.
  - destruct (String.eqb k k'); constructor; auto.
Qed.

Lemma dict_of_pairs_ok {V} (P : V -> Prop) (pairs : list (string * V)) :
  Forall (fun kv => P (snd kv)) pairs ->
  NoDup (map fst (dict_of_pairs pairs))
  /\ Forall (fun kv => P (snd kv)) (dict_of_pairs pairs).
Proof.
  unfold dict_of_pairs. intros H.
  assert (G : forall acc,
             NoDup (map fst acc) /\ Forall (fun kv => P (snd kv)) acc ->
             NoDup (map fst (fold_left
                               (fun d kv => dict_set (fst kv) (snd kv) d)
                               pairs acc))
             /\ Forall (fun kv => P (snd kv))
                  (fold_left (fun d kv => dict_set (fst kv) (snd kv) d)
                     pairs acc)).
  { induction H as [|kv r Hx Hr IH]; intros acc [Hn Hf]; simpl; [now split|].
    apply IH. split; [now apply dict_set_nodup | now apply dict_set_values]. }
  apply G. split; constructor.
Qed.

Lemma json_ok_list_intro (l : list pyval) :
  Forall json_ok l -> json_ok (PyList l).
Proof. induction 1; simpl; auto. Qed.

Lemma json_ok_dict_intro (d : list (string * pyval)) :
  NoDup (map fst d) -> Forall (fun kv => json_ok (snd kv)) d ->
  json_ok (PyDict d).
Proof.
  intros Hn Hf. split; [exact Hn|]. clear Hn.
  induction Hf; simpl; auto.
Qed.

Ltac scan_case :=
  match goal with
  | H : context [match ?x with _ => _ end] |- _ =>
      match type of x with
      | exc _ => destruct x as [[? ?]|?] eqn:?
      | string => destruct x as [|? ?] eqn:?
      | bool => destruct x eqn:?
      | option _ => destruct x eqn:?
      end; simpl in H; try discriminate H
  end.

(** Whatever the scanner returns has dicts of distinct keys. *)
Lemma scan_json_ok (fuel : nat) :
  (forall s v r, scan_once fuel s = Return (v, r) -> json_ok v)
  /\ (forall s ps r,
        scan_members fuel s = Return (ps, r) ->
        Forall (fun kv => json_ok (snd kv)) ps)
  /\ (forall s l r, scan_items fuel s = Return (l, r) -> Forall json_ok l).
Proof.
  induction fuel as [|f (IHv & IHm & IHi)];
    [repeat split; intros; discriminate|].
  repeat split.
  - intros s v r H. simpl in H. unfold bind in H.
    repeat scan_case;
      try (injection H as <- <-; simpl; repeat constructor; fail).
    + injection H as <- <-.
      match goal with
      | E : scan_members _ _ = _ |- _ => apply IHm in E
      end.
      destruct (dict_of_pairs_ok json_ok _ ltac:(eassumption)).
      now apply json_ok_dict_intro.
    + injection H as <- <-. apply json_ok_list_intro.
      match goal with
      | E : scan_items _ _ = _ |- _ => now apply IHi in E
      end.
  - intros s ps r H. simpl in H. unfold bind in H.
    repeat scan_case; injection H as <- <-;
      repeat match goal with
             | E : scan_once _ _ = _ |- _ => apply IHv in E
             | E : scan_members _ _ = _ |- _ => apply IHm in E
             end;
      repeat constructor; auto.
  - intros s l r H. simpl in H. unfold bind in H.
    repeat scan_case; injection H as <- <-;
      repeat match goal with
             | E : scan_once _ _ = _ |- _ => apply IHv in E
             | E : scan_items _ _ = _ |- _ => apply IHi in E
             end;
      repeat constructor; auto.
Qed.

Lemma loads_json_ok (s : string) (v : pyval) :
  loads s = Return v -> json_ok v.
Proof.
  unfold loads, bind. intros H.
  destruct (scan_once _ _) as [[v' r]|e] eqn:E; [|discriminate].
  destruct (skip_ws r); [|discriminate]. injection H as <-.
  now apply (proj1 (scan_json_ok _)) in E.
Qed.

Lemma load_index_state_ok (w : World) (st : pyval) :
  load_index_state w = Return st -> json_ok st.
Proof.
  unfold load_index_state. destruct (index_state_file w).
  - apply loads_json_ok.
  - intros [= <-]. simpl. repeat constructor; simpl; intuition discriminate.
Qed.

(** ** Dicts *)

Lemma dict_get_set_same {V} (k : string) (v : V) (d : list (string * V)) :
  dict_get k (dict_set k v d) = Some v.
Proof.
  induction d as [|[k' v'] r IH]; simpl.
  - now rewrite String.eqb_refl.
  - destruct (String.eqb_spec k k') as [->|Hne]; simpl.
    + now rewrite String.eqb_refl.
    + destruct (String.eqb_spec k k'); [contradiction | exact IH].
Qed.


Lemma dict_set_twice {V} (k : string) (v : V) (d : list (string * V)) :
  dict_set k v (dict_set k v d) = dict_set k v d.
Proof.
  induction d as [|[k' v'] r IH]; simpl.
  - now rewrite String.eqb_refl.
  - destruct (String.eqb_spec k k') as [->|Hne]; simpl.
    + now rewrite String.eqb_refl.
    + destruct (String.eqb_spec k k'); [contradiction | now rewrite IH].
Qed.

(** ** Re-indexing a file *)

Section Reindex.

Variable md5_hex : string -> string.
Variable path_stem : string -> string.
Variable path_name : string -> string.

(** What the loop over the chunks appends. *)
Lemma add_chunks_spec (path : string) (cs : list Chunk) :
  forall (i : nat) (docs : list Doc) (now : Z),
  exists news,
    add_chunks path_stem path i cs docs now
    = (docs ++ news, now + 2 * Z.of_nat (List.length cs))
    /\ Forall (fun d => doc_source_file d = path) news
    /\ map doc_text news = map text cs
    /\ map doc_headers news = map headers cs
    /\ map doc_index news = seq i (List.length cs).
Proof.
  induction cs as [|c r IH]; intros i docs now.
  - exists []. simpl. rewrite app_nil_r, Z.add_0_r. repeat split; constructor.
  - destruct (IH (S i)
                (docs ++ [mkDoc (path_stem path) i now (text c) path (headers c)
                                (now + 1)])
                (now + 2)) as (news & E & Hf & Ht & Hh & Hi).
    exists (mkDoc (path_stem path) i now (text c) path (headers c) (now + 1)
            :: news).
    simpl add_chunks. rewrite E, <- app_assoc.
    split; [f_equal; simpl List.length; lia|].
    simpl. rewrite Ht, Hh, Hi. repeat split; auto.
Qed.

Lemma filter_from_path_new (path : string) (old news : list Doc) :
  Forall (fun d => doc_source_file d = path) news ->
  filter (from_path path) (delete_chunks path old ++ news) = news.
Proof.
  intros Hn. rewrite filter_app. unfold delete_chunks, from_path.
  replace (filter _ (filter _ old)) with (@nil Doc).
  - simpl. induction Hn as [|d r Hd _ IH]; simpl; [reflexivity|].
    rewrite Hd, String.eqb_refl. now f_equal.
  - symmetry. induction old as [|d r IH]; simpl; [reflexivity|].
    destruct (String.eqb (doc_source_file d) path) eqn:E; simpl;
      [exact IH | now rewrite E].
Qed.


(** The state asks for the file to be indexed again. *)
Lemma unchanged_false (force : bool) (d fd : list (string * pyval))
  (path h : string) :
  dict_get "files" d = Some (PyDict fd) ->
  force = true \/ dict_get path fd <> Some (PyStr h) ->
  unchanged force (PyDict d) path h = Return false.
Proof.
  intros Hf Hc. unfold unchanged. destruct force; [reflexivity|].
  destruct Hc as [Hc | Hc]; [discriminate|].
  unfold subscript, get_method, bind, of_option. rewrite Hf. f_equal.
  destruct (dict_get path fd) as [[| |t| |]|]; try reflexivity.
  simpl. destruct (String.eqb_spec t h); [subst; now elim Hc | reflexivity].
Qed.

(** The world a complete pass leaves. *)
Lemma index_file_reindex_eq (w : World) (path content : string) (force : bool)
  (d fd : list (string * pyval)) :
  dict_get path (disk w) = Some content ->
  load_index_state w = Return (PyDict d) ->
  dict_get "files" d = Some (PyDict fd) ->
  force = true \/ dict_get path fd <> Some (PyStr (md5_hex content)) ->
  exists news,
    index_file md5_hex path_stem path_name w path force
    = (Return (Z.of_nat (List.length (chunk_markdown content 1000 100))),
       save_index_state
         (mkWorld (disk w) (index_state_file w)
            (delete_chunks path (chroma w) ++ news)
            (archive path_name path content (letta_archival w))
            (clock w
             + 2 * Z.of_nat (List.length (chunk_markdown content 1000 100))))
         (PyDict (dict_set "files"
                    (PyDict (dict_set path (PyStr (md5_hex content)) fd)) d)))
    /\ Forall (fun x => doc_source_file x = path) news
    /\ map doc_text news = map text (chunk_markdown content 1000 100)
    /\ map doc_headers news = map headers (chunk_markdown content 1000 100)
    /\ map doc_index news
       = seq 0 (List.length (chunk_markdown content 1000 100)).
Proof.
  intros Hfile Hload Hfiles Hcond.
  destruct (add_chunks_spec path (chunk_markdown content 1000 100) 0
              (delete_chunks path (chroma w)) (clock w))
    as (news & E & Hn).
  exists news. split; [|exact Hn].
  unfold index_file. rewrite Hfile, Hload.
  unfold get_file_hash. rewrite (unchanged_false _ _ _ _ _ Hfiles Hcond).
  rewrite E. unfold record_hash. now rewrite Hfiles.
Qed.

(** The pass is skipped. *)
Lemma index_file_skip (w : World) (path content : string)
  (d fd : list (string * pyval)) :
  dict_get path (disk w) = Some content ->
  load_index_state w = Return (PyDict d) ->
  dict_get "files" d = Some (PyDict fd) ->
  dict_get path fd = Some (PyStr (md5_hex content)) ->
  index_file md5_hex path_stem path_name w path false = (Return 0, w).
Proof.
  intros Hfile Hload Hfiles Hhash.
  unfold index_file, unchanged, get_file_hash, subscript, get_method, eq_str.
  rewrite Hfile, Hload. simpl. rewrite Hfiles. simpl. rewrite Hhash.
  now rewrite String.eqb_refl.
Qed.

Lemma load_after_save (w : World) (st : pyval) :
  json_ok st -> load_index_state (save_index_state w st) = Return st.
Proof.
  intros H. unfold load_index_state, save_index_state. simpl.
  now apply loads_dumps.
Qed.

Lemma recorded_state_ok (d fd : list (string * pyval)) (path h : string) :
  json_ok (PyDict d) ->
  dict_get "files" d = Some (PyDict fd) ->
  json_ok (PyDict (dict_set "files" (PyDict (dict_set path (PyStr h) fd)) d)).
Proof.
  intros Hok Hf. destruct (json_ok_dict _ Hok) as [Hn Hv].
  assert (Hfd : json_ok (PyDict fd)).
  { clear Hn Hok. induction d as [|[k v] r IH]; [discriminate|].
    change (dict_get "files" ((k, v) :: r))
      with (if String.eqb "files" k then Some v else dict_get "files" r) in Hf.
    inversion Hv as [|? ? Hx Hr]; subst.
    destruct (String.eqb "files" k); [injection Hf as ->; exact Hx | auto]. }
  destruct (json_ok_dict _ Hfd) as [Hn' Hv'].
  apply json_ok_dict_intro; [now apply dict_set_nodup|].
  apply dict_set_values; [|exact Hv].
  apply json_ok_dict_intro; [now apply dict_set_nodup|].
  apply dict_set_values; [exact I | exact Hv'].
Qed.

End Reindex.

Section IndexFile.

Variable md5_hex : string -> string.
Variable path_stem : string -> string.
Variable path_name : string -> string.


(** X7: [index_file] returns 0 only when it did nothing: a pass that is
    not skipped writes at least one chunk. *)
Theorem zero_chunks_means_untouched (w w' : World) (path : string)
  (force : bool) :
  index_file md5_hex path_stem path_name w path force = (Return 0, w') ->
  w' = w.
Proof.
  unfold index_file.
  destruct (dict_get path (disk w)) as [content|]; [|now intros [= <-]].
  destruct (load_index_state w) as [state|e]; [|discriminate].
  destruct (unchanged force state path (get_file_hash md5_hex content))
    as [[|]|e]; [now intros [= <-] | | discriminate].
  destruct (add_chunks _ _ _ _ _ _) as [docs now].
  destruct (record_hash _ _ _); [|discriminate].
  intros [= H _]. exfalso.
  rewrite chunk_markdown_snoc, length_app, Nat.add_comm in H.
  simpl in H. lia.
Qed.

End IndexFile.

(** X7 at the skipped pass over the sample world. *)
Lemma zero_chunks_means_untouched_witness :
  snd (sample_index sample_world memory_path false) = sample_world.
Proof.
  apply (zero_chunks_means_untouched sample_digest (fun s => s) (fun s => s)
           sample_world _ memory_path false).
  vm_compute. reflexivity.
Defined.

Section IndexState.

Variable md5_hex : string -> string.
Variable path_stem : string -> string.
Variable path_name : string -> string.


(** X9: once a pass over a file has completed, a second call without
    [force] returns 0 and changes nothing. *)
Theorem reindex_then_skip (w : World) (path content : string)
  (force : bool) (d fd : list (string * pyval)) :
  dict_get path (disk w) = Some content ->
  load_index_state w = Return (PyDict d) ->
  dict_get "files" d = Some (PyDict fd) ->
  force = true \/ dict_get path fd <> Some (PyStr (md5_hex content)) ->
  let w' := snd (index_file md5_hex path_stem path_name w path force) in
  index_file md5_hex path_stem path_name w' path false = (Return 0, w').
Proof.
  intros Hfile Hload Hfiles Hcond. cbv zeta.
  destruct (index_file_reindex_eq md5_hex path_stem path_name w path content
              force d fd Hfile Hload Hfiles Hcond) as (news & E & _).
  rewrite E. simpl snd.
  apply (index_file_skip md5_hex path_stem path_name _ path content
           (dict_set "files"
              (PyDict (dict_set path (PyStr (md5_hex content)) fd)) d)
           (dict_set path (PyStr (md5_hex content)) fd)).
  - exact Hfile.
  - apply load_after_save, recorded_state_ok; [|exact Hfiles].
    now apply (load_index_state_ok w).
  - apply dict_get_set_same.
  - apply dict_get_set_same.
Qed.

(** X12: the default state, and the state loaded from a state file made
    of [null], booleans, strings, lists and objects, with no number and no
    character above U+00FF, can be saved and loaded again unchanged, in any
    world.  These are the files [loads] reads. *)
Theorem loaded_state_round_trip (w w' : World) (st : pyval) :
  load_index_state w = Return st ->
  load_index_state (save_index_state w' st) = Return st.
Proof.
  intros H. apply load_after_save. now apply (load_index_state_ok w).
Qed.

End IndexState.


(** X9 at the same pass. *)
Lemma reindex_then_skip_witness :
  sample_index (snd (sample_index sample_world memory_path true))
    memory_path false
  = (Return 0, snd (sample_index sample_world memory_path true)).
Proof.
  apply (reindex_then_skip sample_digest (fun s => s) (fun s => s)
           sample_world memory_path "# Memory" true
           [("files", PyDict [(memory_path, PyStr (sample_digest "# Memory"))]);
            ("last_full_index", PyNone)]
           [(memory_path, PyStr (sample_digest "# Memory"))]).
  - reflexivity.
  - vm_compute. reflexivity.
  - reflexivity.
  - now left.
Defined.

(** X12 at the state of the sample world, saved into another world. *)
Lemma loaded_state_round_trip_witness :
  load_index_state
    (save_index_state bare_world
       (state_of [(memory_path, sample_digest "# Memory")] (Some None)))
  = Return (state_of [(memory_path, sample_digest "# Memory")] (Some None)).
Proof.
  apply (loaded_state_round_trip sample_world bare_world).
  vm_compute. reflexivity.
Defined.

(** ** Passes during which the store or a file fails *)

Section FailingPass.

Variable md5_hex : string -> string.
Variable path_stem : string -> string.
Variable path_name : string -> string.
Variable read_text : string -> exc string.

Lemma add_chunks_under_ok (f : Faults) (path : string) (cs : list Chunk) :
  (forall i, add_error f i = None) ->
  forall (i : nat) (docs : list Doc) (now : Z),
    add_chunks_under path_stem f path i cs docs now
    = (add_chunks path_stem path i cs docs now, None).
Proof.
  intros Hadd. induction cs as [|c r IH]; intros i docs now; [reflexivity|].
  simpl. rewrite Hadd. apply IH.
Qed.

(** Without faults, and on a file whose text is its bytes, the pass is the
    one [index_file] describes. *)
Lemma index_file_under_plain (w : World) (path : string) (force : bool) :
  index_file_under md5_hex path_stem path_name (fun bytes => Return bytes)
    no_faults w path force
  = index_file md5_hex path_stem path_name w path force.
Proof.
  unfold index_file_under, index_file, get_file_hash.
  destruct (dict_get path (disk w)) as [bytes|]; [|reflexivity].
  destruct (load_index_state w) as [state|e]; [|reflexivity].
  cbn [read_bytes_error no_faults].
  destruct (unchanged force state path (md5_hex bytes)) as [[|]|e];
    try reflexivity.
  unfold delete_chunks_under, archive_under.
  cbn [delete_fails post_fails write_error no_faults].
  rewrite add_chunks_under_ok by reflexivity.
  destruct (add_chunks _ _ _ _ _ _) as [docs now].
  now destruct (record_hash state path (md5_hex bytes)).
Qed.

(** The world after the chunks of the text were added, when every [add]
    succeeds. *)
Lemma index_file_under_stored (f : Faults) (w : World)
  (path bytes content : string) (force : bool) (state : pyval) :
  dict_get path (disk w) = Some bytes ->
  load_index_state w = Return state ->
  read_bytes_error f = None ->
  unchanged force state path (md5_hex bytes) = Return false ->
  read_text bytes = Return content ->
  (forall i, add_error f i = None) ->
  exists news,
    index_file_under md5_hex path_stem path_name read_text f w path force
    = (let cs := chunk_markdown content 1000 100 in
       let w1 :=
         mkWorld (disk w) (index_state_file w)
           (delete_chunks_under f path (chroma w) ++ news)
           (archive_under path_name f path content (letta_archival w))
           (clock w + 2 * Z.of_nat (List.length cs)) in
       match record_hash state path (md5_hex bytes) with
       | Raise e => (Raise e, w1)
       | Return state' =>
           match write_error f with
           | Some e => (Raise e, w1)
           | None =>
               (Return (Z.of_nat (List.length cs)), save_index_state w1 state')
           end
       end)
    /\ Forall (fun x => doc_source_file x = path) news
    /\ map doc_text news = map text (chunk_markdown content 1000 100)
    /\ map doc_headers news = map headers (chunk_markdown content 1000 100)
    /\ map doc_index news
       = seq 0 (List.length (chunk_markdown content 1000 100)).
Proof.
  intros Hfile Hload Hread Hun Htext Hadd.
  destruct (add_chunks_spec path_stem path (chunk_markdown content 1000 100) 0
              (delete_chunks_under f path (chroma w)) (clock w))
    as (news & E & Hn).
  exists news. split; [|exact Hn].
  unfold index_file_under. rewrite Hfile, Hload, Hread, Hun, Htext.
  rewrite add_chunks_under_ok by exact Hadd. rewrite E. reflexivity.
Qed.


Lemma filter_from_path_deleted (path : string) (old : list Doc) :
  filter (from_path path) (delete_chunks path old) = [].
Proof.
  pose proof (filter_from_path_new path old [] (Forall_nil _)) as H.
  now rewrite app_nil_r in H.
Qed.

(** X5: when no call to the store or to the files fails, a pass that is
    not skipped returns the number of chunks of the file's text, and
    afterwards the store holds for the file exactly those chunks, in order,
    numbered from 0 and with their header paths: the chunks of an earlier
    pass are replaced.  The fingerprint is taken from the bytes of the
    file, the chunks from the text [read_text] makes of them. *)
Theorem reindex_replaces_chunks (f : Faults) (w : World)
  (path bytes content : string) (force : bool) (d fd : list (string * pyval)) :
  dict_get path (disk w) = Some bytes ->
  load_index_state w = Return (PyDict d) ->
  dict_get "files" d = Some (PyDict fd) ->
  force = true \/ dict_get path fd <> Some (PyStr (md5_hex bytes)) ->
  read_bytes_error f = None ->
  read_text bytes = Return content ->
  delete_fails f = false ->
  (forall i, add_error f i = None) ->
  write_error f = None ->
  let r := index_file_under md5_hex path_stem path_name read_text f w path
             force in
  let stored := filter (from_path path) (chroma (snd r)) in
  fst r = Return (Z.of_nat (List.length (chunk_markdown content 1000 100)))
  /\ map doc_text stored = map text (chunk_markdown content 1000 100)
  /\ map doc_headers stored = map headers (chunk_markdown content 1000 100)
  /\ map doc_index stored
     = seq 0 (List.length (chunk_markdown content 1000 100)).
Proof.
  intros Hfile Hload Hfiles Hcond Hread Htext Hdel Hadd Hwrite.
  destruct (index_file_under_stored f w path bytes content force (PyDict d)
              Hfile Hload Hread (unchanged_false _ _ _ _ _ Hfiles Hcond)
              Htext Hadd)
    as (news & E & Hn & Ht & Hh & Hi).
  cbv zeta in *. rewrite E. unfold record_hash. rewrite Hfiles, Hwrite.
  unfold delete_chunks_under. rewrite Hdel. simpl.
  rewrite (filter_from_path_new path (chroma w) news Hn). auto.
Qed.

(** X10: when the state on disk is a dict without the key ["files"] and no
    call to the store or to the files fails, a forced pass replaces the
    chunks of the file and then raises the [KeyError] whose message is
    ['files']; the state file is not written. *)
Theorem forced_pass_without_files_key (f : Faults) (w : World)
  (path bytes content : string) (d : list (string * pyval)) :
  dict_get path (disk w) = Some bytes ->
  load_index_state w = Return (PyDict d) ->
  dict_get "files" d = None ->
  read_bytes_error f = None ->
  read_text bytes = Return content ->
  delete_fails f = false ->
  (forall i, add_error f i = None) ->
  let r := index_file_under md5_hex path_stem path_name read_text f w path
             true in
  fst r = Raise "'files'"
  /\ index_state_file (snd r) = index_state_file w
  /\ map doc_text (filter (from_path path) (chroma (snd r)))
     = map text (chunk_markdown content 1000 100).
Proof.
  intros Hfile Hload Hfiles Hread Htext Hdel Hadd.
  destruct (index_file_under_stored f w path bytes content true (PyDict d)
              Hfile Hload Hread eq_refl Htext Hadd)
    as (news & E & Hn & Ht & _).
  cbv zeta in *. rewrite E. unfold record_hash. rewrite Hfiles.
  unfold delete_chunks_under. rewrite Hdel. simpl.
  now rewrite (filter_from_path_new path (chroma w) news Hn).
Qed.

(** X11: once the state has been loaded, a call that raises anywhere
    before the final write, whatever fails, has not written the state
    file: the fingerprint of the file is not recorded. *)
Theorem index_file_raise_keeps_state (f : Faults) (w : World)
  (path e : string) (force : bool) (state : pyval) :
  load_index_state w = Return state ->
  fst (index_file_under md5_hex path_stem path_name read_text f w path force)
  = Raise e ->
  write_error f = None ->
  index_state_file
    (snd (index_file_under md5_hex path_stem path_name read_text f w path
            force))
  = index_state_file w.
Proof.
  intros Hload. unfold index_file_under. rewrite Hload.
  destruct (dict_get path (disk w)) as [bytes|]; [|discriminate].
  destruct (read_bytes_error f); [reflexivity|].
  destruct (unchanged force state path (md5_hex bytes)) as [[|]|e0];
    [discriminate | | reflexivity].
  destruct (read_text bytes) as [content|e0]; [|reflexivity].
  destruct (add_chunks_under _ _ _ _ _ _ _) as [[docs now] [e0|]];
    [reflexivity|].
  destruct (record_hash state path (md5_hex bytes)); [|reflexivity].
  intros H Hw. rewrite Hw in H. discriminate.
Qed.


(** X28: when the first [add] fails, the call raises that exception after
    the old chunks were deleted: the store is left without any chunk of the
    file, and the state file is as it was, with or without [force]. *)
Theorem failed_add_loses_chunks (f : Faults) (w : World)
  (path bytes content e : string) (force : bool)
  (d fd : list (string * pyval)) :
  dict_get path (disk w) = Some bytes ->
  load_index_state w = Return (PyDict d) ->
  dict_get "files" d = Some (PyDict fd) ->
  force = true \/ dict_get path fd <> Some (PyStr (md5_hex bytes)) ->
  read_bytes_error f = None ->
  read_text bytes = Return content ->
  delete_fails f = false ->
  add_error f 0%nat = Some e ->
  let r := index_file_under md5_hex path_stem path_name read_text f w path
             force in
  fst r = Raise e
  /\ filter (from_path path) (chroma (snd r)) = []
  /\ index_state_file (snd r) = index_state_file w.
Proof.
  intros Hfile Hload Hfiles Hcond Hread Htext Hdel Hadd. cbv zeta.
  unfold index_file_under.
  rewrite Hfile, Hload, Hread, (unchanged_false _ _ _ _ _ Hfiles Hcond), Htext.
  rewrite chunk_markdown_snoc.
  destruct (chunks (run 1000 (split_lines content))) as [|c cs];
    simpl; rewrite Hadd; simpl;
    unfold delete_chunks_under; rewrite Hdel;
    (split; [reflexivity|]); (split; [apply filter_from_path_deleted|]);
    reflexivity.
Qed.

End FailingPass.

(** X5 at a first pass over a file whose lines end in [\r\n]: the stored
    chunk is a chunk of the text, with [\n] for each line end, and not of
    the bytes. *)
Lemma reindex_replaces_chunks_witness :
  fst (sample_index_under no_faults crlf_world memory_path false) = Return 1
  /\ map doc_text
       (filter (from_path memory_path)
          (chroma (snd (sample_index_under no_faults crlf_world memory_path
                          false))))
     = [String "#" (String " " (String "M" (String newline
          (String "x" (String newline EmptyString)))))].
Proof.
  destruct (reindex_replaces_chunks sample_digest (fun s => s) (fun s => s)
              (fun bytes => Return (universal_newlines bytes))
              no_faults crlf_world memory_path
              (String "#" (String " " (String "M" (String "013" (String newline
                 (String "x" (String "013" (String newline EmptyString))))))))
              (String "#" (String " " (String "M" (String newline
                 (String "x" (String newline EmptyString))))))
              false
              [("files", PyDict []); ("last_full_index", PyNone)] [])
    as (H1 & H2 & _).
  - reflexivity.
  - reflexivity.
  - reflexivity.
  - right. discriminate.
  - reflexivity.
  - reflexivity.
  - reflexivity.
  - reflexivity.
  - reflexivity.
  - split; [exact H1 | exact H2].
Defined.

(** X10 at a world whose state file is the empty object. *)
Lemma forced_pass_without_files_key_witness :
  fst (sample_index_under no_faults bare_world memory_path true)
  = Raise "'files'"
  /\ index_state_file
       (snd (sample_index_under no_faults bare_world memory_path true))
     = index_state_file bare_world
  /\ map doc_text
       (filter (from_path memory_path)
          (chroma (snd (sample_index_under no_faults bare_world memory_path
                          true))))
     = ["# Memory"].
Proof.
  apply (forced_pass_without_files_key sample_digest (fun s => s)
           (fun s => s) (fun bytes => Return (universal_newlines bytes))
           no_faults bare_world memory_path "# Memory" "# Memory" []).
  - reflexivity.
  - vm_compute. reflexivity.
  - reflexivity.
  - reflexivity.
  - reflexivity.
  - reflexivity.
  - reflexivity.
Defined.

(** X11 at a pass whose first [add] is refused. *)
Lemma index_file_raise_keeps_state_witness :
  index_state_file
    (snd (sample_index_under first_add_refused sample_world memory_path true))
  = index_state_file sample_world.
Proof.
  apply (index_file_raise_keeps_state sample_digest (fun s => s) (fun s => s)
           (fun bytes => Return (universal_newlines bytes))
           first_add_refused sample_world memory_path "store unavailable" true
           (state_of [(memory_path, sample_digest "# Memory")] (Some None))).
  - vm_compute. reflexivity.
  - reflexivity.
  - reflexivity.
Defined.


(** X28 at a forced pass over the sample world while the store refuses the
    first [add]. *)
Lemma failed_add_loses_chunks_witness :
  fst (sample_index_under first_add_refused sample_world memory_path true)
  = Raise "store unavailable"
  /\ filter (from_path memory_path)
       (chroma (snd (sample_index_under first_add_refused sample_world
                       memory_path true)))
     = []
  /\ index_state_file
       (snd (sample_index_under first_add_refused sample_world memory_path
               true))
     = index_state_file sample_world.
Proof.
  apply (failed_add_loses_chunks sample_digest (fun s => s) (fun s => s)
           (fun bytes => Return (universal_newlines bytes))
           first_add_refused sample_world memory_path "# Memory" "# Memory"
           "store unavailable" true
           [("files", PyDict [(memory_path, PyStr (sample_digest "# Memory"))]);
            ("last_full_index", PyNone)]
           [(memory_path, PyStr (sample_digest "# Memory"))]).
  - reflexivity.
  - vm_compute. reflexivity.
  - reflexivity.
  - now left.
  - reflexivity.
  - reflexivity.
  - reflexivity.
  - reflexivity.
Defined.

(** ** The batch *)

(** A text without the start of a JSON value does not load. *)
Lemma loads_no_json_start (t : string) :
  no_json_start t = true -> exists e, loads t = Raise e.
Proof.
  unfold no_json_start, loads. intros H.
  destruct (skip_ws t) as [|c r]; [now eexists|].
  cbn [scan_once].
  destruct (Ascii.eqb c "{") eqn:Eb.
  - apply Ascii.eqb_eq in Eb. subst c. cbn [Ascii.eqb Bool.eqb].
    change (Ascii.eqb "{" quote) with false. cbv iota.
    destruct (skip_ws r) as [|c1 r1]; [now eexists|].
    apply negb_true_iff, orb_false_iff in H. destruct H as [H1 H2].
    rewrite H1, H2. now eexists.
  - apply negb_true_iff, orb_false_iff in H. destruct H as [Hq Hl].
    rewrite Hq.
    cbn [list_ascii_of_string existsb] in Hl.
    repeat (apply orb_false_iff in Hl; destruct Hl as [? Hl]).
    assert (Hb : Ascii.eqb c "[" = false) by assumption.
    assert (Hn : Ascii.eqb c "n" = false) by assumption.
    assert (Ht : Ascii.eqb c "t" = false) by assumption.
    assert (Hf : Ascii.eqb c "f" = false) by assumption.
    rewrite Hb. cbn [after_prefix].
    rewrite (Ascii.eqb_sym "n" c), (Ascii.eqb_sym "t" c),
      (Ascii.eqb_sym "f" c), Hn, Ht, Hf.
    now eexists.
Qed.

Section IndexAll.

Variable md5_hex : string -> string.
Variable path_stem : string -> string.
Variable path_name : string -> string.
Variable isoformat : Z -> string.
Variable memory_file : string.

Lemma index_file_unreadable (w : World) (path e : string) (force : bool) :
  load_index_state w = Raise e ->
  snd (index_file md5_hex path_stem path_name w path force) = w.
Proof.
  intros H. unfold index_file. rewrite H.
  now destruct (dict_get path (disk w)).
Qed.

Lemma index_md_files_unreadable (w : World) (e : string) (force : bool)
  (l : list string) :
  load_index_state w = Raise e ->
  forall st, snd st = w ->
  snd (fold_left (index_md_file md5_hex path_stem path_name force) l st) = w.
Proof.
  intros H. induction l as [|f r IH]; intros st Hst; [exact Hst|].
  simpl. apply IH. unfold index_md_file. rewrite Hst.
  pose proof (index_file_unreadable w f e force H) as Hw.
  destruct (index_file md5_hex path_stem path_name w f force) as [[n|e'] w'];
    simpl in Hw; subst w'; [now destruct (0 <? n) | reflexivity].
Qed.

Lemma index_all_unreadable (w : World) (e : string)
  (md_files : option (list string)) (force : bool) :
  load_index_state w = Raise e ->
  index_all md5_hex path_stem path_name isoformat memory_file w md_files force
  = (Raise e, w).
Proof.
  intros H. unfold index_all.
  set (st1 := index_memory_file md5_hex path_stem path_name memory_file w force
                (mkBatch 0 0 [])).
  assert (H1 : snd st1 = w).
  { unfold st1, index_memory_file.
    destruct (dict_get memory_file (disk w)); [|reflexivity].
    pose proof (index_file_unreadable w memory_file e force H) as Hw.
    destruct (index_file md5_hex path_stem path_name w memory_file force)
      as [[n|e'] w']; exact Hw. }
  assert (H2 : snd (match md_files with
                    | Some l =>
                        fold_left
                          (index_md_file md5_hex path_stem path_name force)
                          l st1
                    | None => st1
                    end) = w).
  { destruct md_files as [l|]; [|exact H1].
    now apply (index_md_files_unreadable w e). }
  rewrite H2, H. reflexivity.
Qed.

(** X13: when the state file is blank, starts with a character that opens
    no JSON value, or opens an object without a key, [index_all] does not
    return its result dict: the failure of every file is caught before the
    store is touched, and the last load, which is outside every [try],
    raises.  Nothing has been changed by then, with or without [force]. *)
Theorem index_all_unreadable_state (w : World) (t : string)
  (md_files : option (list string)) (force : bool) :
  index_state_file w = Some t ->
  no_json_start t = true ->
  exists e,
    index_all md5_hex path_stem path_name isoformat memory_file w md_files
      force
    = (Raise e, w).
Proof.
  intros Hfile Hstart.
  destruct (loads_no_json_start t Hstart) as [e He].
  exists e. apply index_all_unreadable.
  unfold load_index_state. now rewrite Hfile.
Qed.

(** X14: when [index_all] returns, the state on disk loads again and its
    [last_full_index] is the time read at the end of the batch, whether or
    not any file was indexed. *)
Theorem index_all_stamps_state (w : World) (md_files : option (list string))
  (force : bool) (res : BatchResult) :
  fst (index_all md5_hex path_stem path_name isoformat memory_file w md_files
         force) = Return res ->
  exists d t,
    load_index_state
      (snd (index_all md5_hex path_stem path_name isoformat memory_file w
              md_files force))
    = Return (PyDict d)
    /\ dict_get "last_full_index" d = Some (PyStr (isoformat t))
    /\ clock (snd (index_all md5_hex path_stem path_name isoformat
                     memory_file w md_files force)) = t + 1.
Proof.
  unfold index_all.
  set (st2 := match md_files with
              | Some l => _
              | None => _
              end).
  destruct (load_index_state (snd st2)) as [state|e] eqn:L; [|discriminate].
  pose proof (load_index_state_ok _ _ L) as Hok.
  destruct state as [| | | |d]; try discriminate.
  simpl set_item. cbv iota. intros _.
  exists (dict_set "last_full_index" (PyStr (isoformat (clock (snd st2)))) d),
         (clock (snd st2)).
  split; [|split; [apply dict_get_set_same | reflexivity]].
  simpl snd. apply load_after_save.
  destruct (json_ok_dict _ Hok) as [Hn Hv].
  apply json_ok_dict_intro; [now apply dict_set_nodup|].
  now apply dict_set_values.
Qed.

Lemma index_file_up_to_date (w : World) (f : string)
  (d fd : list (string * pyval)) :
  load_index_state w = Return (PyDict d) ->
  dict_get "files" d = Some (PyDict fd) ->
  up_to_date md5_hex w fd f ->
  index_file md5_hex path_stem path_name w f false = (Return 0, w).
Proof.
  intros Hl Hf Hu. destruct (dict_get f (disk w)) as [content|] eqn:E.
  - apply (index_file_skip md5_hex path_stem path_name w f content d fd);
      [exact E | exact Hl | exact Hf | now apply Hu].
  - unfold index_file. now rewrite E.
Qed.

(** X15: on a corpus whose files all have their current fingerprint in the
    state, [index_all] without [force] writes no chunk and reports no
    chunks and no errors; [MEMORY.md], if it exists, is counted as a file
    all the same, and no file of the directory is. *)
Theorem index_all_up_to_date (w : World) (l : list string)
  (d fd : list (string * pyval)) :
  load_index_state w = Return (PyDict d) ->
  dict_get "files" d = Some (PyDict fd) ->
  up_to_date md5_hex w fd memory_file ->
  Forall (up_to_date md5_hex w fd) l ->
  let r := index_all md5_hex path_stem path_name isoformat memory_file w
             (Some l) false in
  fst r
  = Return (mkBatch (match dict_get memory_file (disk w) with
                     | Some _ => 1
                     | None => 0
                     end) 0 [])
  /\ chroma (snd r) = chroma w.
Proof.
  intros Hl Hf Hm Hall. cbv zeta. unfold index_all.
  set (res1 := mkBatch (match dict_get memory_file (disk w) with
                        | Some _ => 1
                        | None => 0
                        end) 0 []).
  assert (H1 : index_memory_file md5_hex path_stem path_name memory_file w false
                 (mkBatch 0 0 []) = (res1, w)).
  { unfold index_memory_file, res1.
    rewrite (index_file_up_to_date w memory_file d fd Hl Hf Hm).
    now destruct (dict_get memory_file (disk w)). }
  rewrite H1.
  assert (H2 : fold_left (index_md_file md5_hex path_stem path_name false) l
                 (res1, w) = (res1, w)).
  { induction Hall as [|f r Hx _ IH]; [reflexivity|]. simpl.
    unfold index_md_file at 2. simpl snd.
    rewrite (index_file_up_to_date w f d fd Hl Hf Hx). exact IH. }
  rewrite H2. simpl snd. rewrite Hl. simpl. split; reflexivity.
Qed.

End IndexAll.

(** X13 at a world whose state file is not JSON. *)
Lemma index_all_unreadable_state_witness :
  exists e,
    sample_index_all broken_world (Some ["/home/atlas/clawd/memory/a.md"]) true
    = (Raise e, broken_world).
Proof.
  apply (index_all_unreadable_state sample_digest (fun s => s) (fun s => s)
           (fun t => String (ascii_of_N (Z.to_N t)) EmptyString) memory_path
           broken_world "{not json").
  - reflexivity.
  - reflexivity.
Defined.

(** X14 at a forced batch over the sample world. *)
Lemma index_all_stamps_state_witness :
  exists d t,
    load_index_state (snd (sample_index_all sample_world None true))
    = Return (PyDict d)
    /\ dict_get "last_full_index" d
       = Some (PyStr (String (ascii_of_N (Z.to_N t)) EmptyString))
    /\ clock (snd (sample_index_all sample_world None true)) = t + 1.
Proof.
  apply (index_all_stamps_state sample_digest (fun s => s) (fun s => s)
           (fun t => String (ascii_of_N (Z.to_N t)) EmptyString) memory_path
           sample_world None true (mkBatch 1 1 [])).
  vm_compute. reflexivity.
Defined.

(** X15 at the sample world, whose one file is up to date. *)
Lemma index_all_up_to_date_witness :
  fst (sample_index_all sample_world (Some [memory_path; "/missing.md"]) false)
  = Return (mkBatch 1 0 [])
  /\ chroma (snd (sample_index_all sample_world
                    (Some [memory_path; "/missing.md"]) false))
     = chroma sample_world.
Proof.
  apply (index_all_up_to_date sample_digest (fun s => s) (fun s => s)
           (fun t => String (ascii_of_N (Z.to_N t)) EmptyString) memory_path
           sample_world [memory_path; "/missing.md"]
           [("files", PyDict [(memory_path, PyStr (sample_digest "# Memory"))]);
            ("last_full_index", PyNone)]
           [(memory_path, PyStr (sample_digest "# Memory"))]).
  - vm_compute. reflexivity.
  - reflexivity.
  - intros content H. vm_compute in H. injection H as <-. reflexivity.
  - repeat constructor; intros content H; vm_compute in H;
      [injection H as <-; reflexivity | discriminate].
Defined.

(** ** The API key *)

(** X16: [load_openai_key] can be called again: the second call returns or
    raises what the first did and leaves the environment the first call
    left. *)
Theorem load_openai_key_again (env : Env) :
  load_openai_key (snd (load_openai_key env)) = load_openai_key env.
Proof.
  assert (Hfile : forall content,
             key_file env = Some content ->
             load_openai_key
               (mkEnv (dict_set "OPENAI_API_KEY" (strip content) (environ env))
                      (key_file env))
             = (Return (strip content),
                mkEnv (dict_set "OPENAI_API_KEY" (strip content) (environ env))
                      (key_file env))).
  { intros content K. unfold load_openai_key. simpl environ. simpl key_file.
    rewrite dict_get_set_same, K.
    destruct (strip content); [now rewrite dict_set_twice | reflexivity]. }
  unfold load_openai_key at 2 3.
  destruct (dict_get "OPENAI_API_KEY" (environ env)) as [[|c r]|] eqn:E.
  - destruct (key_file env) as [content|] eqn:K; simpl snd.
    + now apply Hfile.
    + unfold load_openai_key. now rewrite E, K.
  - simpl snd. unfold load_openai_key. now rewrite E.
  - destruct (key_file env) as [content|] eqn:K; simpl snd.
    + now apply Hfile.
    + unfold load_openai_key. now rewrite E, K.
Qed.

(** ** What [recall] keeps of the vector store's answer *)

Lemma chroma_loop_aligned (resp : ChromaResponse) (docs : list string) :
  forall (i : nat) (acc : list ChromaHit),
    (i + List.length docs <= List.length (metadatas resp))%nat ->
    (forall ds,
        distances resp = Some ds -> (i + List.length docs <= List.length ds)%nat) ->
    exists hits,
      chroma_loop resp i docs acc = (acc ++ hits, None)
      /\ map ch_text hits = docs.
Proof.
  induction docs as [|doc rest IH]; intros i acc Hm Hd.
  - exists []. simpl. now rewrite app_nil_r.
  - simpl in Hm. simpl chroma_loop.
    destruct (nth_error (metadatas resp) i) as [meta|] eqn:Em;
      [|apply nth_error_None in Em; lia].
    assert (Hdist : exists d,
               match distances resp with
               | Some ds => of_option (nth_error ds i) "list index out of range"
               | None => Return 0%Q
               end = Return d).
    { destruct (distances resp) as [ds|] eqn:Ed; [|eauto].
      specialize (Hd ds eq_refl). simpl in Hd.
      destruct (nth_error ds i) as [d|] eqn:En; [simpl; eauto|].
      apply nth_error_None in En. lia. }
    destruct Hdist as [d ->].
    destruct (IH (S i) (acc ++ [chroma_hit doc meta d])) as (hits & E & Ht).
    + lia.
    + intros ds Hds. specialize (Hd ds Hds). simpl in Hd. lia.
    + exists (chroma_hit doc meta d :: hits). unfold chroma_hit in *.
      rewrite E, <- app_assoc. simpl. now rewrite Ht.
Qed.

Lemma chroma_loop_short (resp : ChromaResponse) (docs : list string) :
  (forall ds,
      distances resp = Some ds ->
      (List.length (metadatas resp) <= List.length ds)%nat) ->
  forall (i : nat) (acc : list ChromaHit),
    (i <= List.length (metadatas resp))%nat ->
    (List.length (metadatas resp) < i + List.length docs)%nat ->
    exists hits,
      chroma_loop resp i docs acc
      = (acc ++ hits, Some "list index out of range")
      /\ map ch_text hits = firstn (List.length (metadatas resp) - i) docs.
Proof.
  intros Hd. induction docs as [|doc rest IH]; intros i acc Hi Hlen.
  - simpl in Hlen. lia.
  - simpl in Hlen. simpl chroma_loop.
    destruct (nth_error (metadatas resp) i) as [meta|] eqn:Em.
    + assert (Hlt : (i < List.length (metadatas resp))%nat)
        by (apply nth_error_Some; congruence).
      assert (Hdist : exists d,
                 match distances resp with
                 | Some ds =>
                     of_option (nth_error ds i) "list index out of range"
                 | None => Return 0%Q
                 end = Return d).
      { destruct (distances resp) as [ds|] eqn:Ed; [|eauto].
        specialize (Hd ds eq_refl).
        destruct (nth_error ds i) as [d|] eqn:En; [simpl; eauto|].
        apply nth_error_None in En. lia. }
      destruct Hdist as [d ->].
      destruct (IH (S i) (acc ++ [chroma_hit doc meta d])) as (hits & E & Ht);
        [lia | lia |].
      exists (chroma_hit doc meta d :: hits). unfold chroma_hit in *.
      rewrite E, <- app_assoc. split; [reflexivity|].
      replace (List.length (metadatas resp) - i)%nat
        with (S (List.length (metadatas resp) - S i)) by lia.
      simpl. now rewrite Ht.
    + apply nth_error_None in Em. exists [].
      rewrite app_nil_r. split; [reflexivity|].
      now replace (List.length (metadatas resp) - i)%nat with 0%nat by lia.
Qed.

Lemma recall_chroma (self : Self) (now query : string) (limit : Z)
  (resp : ChromaResponse) (r : Results) :
  chroma_query self query limit = Return resp ->
  recall self now query limit = Return r ->
  (r_chroma r, r_chroma_error r) = chroma_loop resp 0 (documents resp) [].
Proof.
  intros Hq [= <-].
  set (r0 := mkResults query now [] [] [] None None None).
  set (r1 := mem0_block self query limit r0).
  set (r2 := chroma_block self query limit r1).
  destruct (mem0_block_frame self query limit r0) as (Ma & Mb & _).
  destruct (letta_block_frame self query limit r2) as (_ & _ & Lc & Ld).
  fold r1 in Ma, Mb. rewrite Lc, Ld.
  unfold r2, chroma_block. rewrite Hq, Ma, Mb. simpl.
  now destruct (chroma_loop resp 0 (documents resp) []) as [hits [e|]].
Qed.

(** X17: when the vector store answers with metadata, and distances if it
    gives any, for every document, [recall] returns one hit per document,
    in order, and records no error for the store. *)
Theorem recall_keeps_every_document (self : Self) (now query : string)
  (limit : Z) (resp : ChromaResponse) (r : Results) :
  chroma_query self query limit = Return resp ->
  aligned resp ->
  recall self now query limit = Return r ->
  map ch_text (r_chroma r) = documents resp /\ r_chroma_error r = None.
Proof.
  intros Hq [Hm Hd] Hr.
  pose proof (recall_chroma self now query limit resp r Hq Hr) as H.
  destruct (chroma_loop_aligned resp (documents resp) 0 [] Hm Hd)
    as (hits & E & Ht).
  rewrite E in H. injection H as -> ->. now split.
Qed.

(** X18: when the answer has metadata for its first [n] documents only,
    [recall] keeps the hits of those [n] documents and records the
    [IndexError] of the next one as [chroma_error]: the store's part of the
    result is partial, not empty. *)
Theorem recall_keeps_documents_before_error (self : Self) (now query : string)
  (limit : Z) (resp : ChromaResponse) (r : Results) :
  chroma_query self query limit = Return resp ->
  (List.length (metadatas resp) < List.length (documents resp))%nat ->
  (forall ds,
      distances resp = Some ds ->
      (List.length (metadatas resp) <= List.length ds)%nat) ->
  recall self now query limit = Return r ->
  map ch_text (r_chroma r)
  = firstn (List.length (metadatas resp)) (documents resp)
  /\ r_chroma_error r = Some "list index out of range".
Proof.
  intros Hq Hlen Hd Hr.
  pose proof (recall_chroma self now query limit resp r Hq Hr) as H.
  destruct (chroma_loop_short resp (documents resp) Hd 0 []) as (hits & E & Ht);
    [lia | simpl; lia |].
  rewrite E in H. injection H as -> ->.
  now rewrite Nat.sub_0_r in Ht.
Qed.

(** X17 at an answer of two documents. *)
Lemma recall_keeps_every_document_witness :
  map ch_text (r_chroma (sample_recall self_two_documents 5))
  = ["first"; "second"]
  /\ r_chroma_error (sample_recall self_two_documents 5) = None.
Proof.
  apply (recall_keeps_every_document self_two_documents "now" "tea" 5
           two_documents).
  - reflexivity.
  - split; [simpl; lia | intros ds [= <-]; simpl; lia].
  - reflexivity.
Defined.

(** X18 at an answer of two documents with metadata for one. *)
Lemma recall_keeps_documents_before_error_witness :
  map ch_text (r_chroma (sample_recall self_one_metadata 5)) = ["first"]
  /\ r_chroma_error (sample_recall self_one_metadata 5)
     = Some "list index out of range".
Proof.
  apply (recall_keeps_documents_before_error self_one_metadata "now" "tea" 5
           one_metadata).
  - reflexivity.
  - simpl. lia.
  - intros ds H. discriminate H.
  - reflexivity.
Defined.

(** ** What [recall] keeps of the other backends' answers *)

Lemma map_exc_not_dict (dicts : list Mem0Item) (ty : string)
  (rest : list Mem0Entry) :
  map_exc mem0_hit (map EntryDict dicts ++ EntryOther ty :: rest)
  = Raise (no_attribute ty "get").
Proof.
  induction dicts as [|x r IH]; [reflexivity|].
  simpl. now rewrite IH.
Qed.

Lemma map_exc_hits (l : list Mem0Entry) (hits : list Mem0Hit) :
  map_exc mem0_hit l = Return hits ->
  forall h,
    In h hits ->
    exists raw,
      In (EntryDict raw) l
      /\ mh_score h = Some (with_default (m_score raw) 0%Q).
Proof.
  revert hits. induction l as [|x r IH]; intros hits H h Hin.
  - injection H as <-. destruct Hin.
  - simpl in H. destruct x as [raw|ty]; [|discriminate]. simpl in H.
    destruct (map_exc mem0_hit r) as [hs|e]; [|discriminate].
    injection H as <-. destruct Hin as [<- | Hin].
    + exists raw. split; [now left | reflexivity].
    + destruct (IH hs eq_refl h Hin) as (raw' & H1 & H2).
      exists raw'. split; [now right | exact H2].
Qed.

Lemma recall_mem0 (self : Self) (now query : string) (limit : Z)
  (r : Results) :
  recall self now query limit = Return r ->
  r_mem0 r
  = r_mem0 (mem0_block self query limit
              (mkResults query now [] [] [] None None None))
  /\ r_mem0_error r
     = r_mem0_error (mem0_block self query limit
                       (mkResults query now [] [] [] None None None)).
Proof.
  intros [= <-].
  set (r1 := mem0_block self query limit _).
  destruct (chroma_block_frame self query limit r1) as (Ca & Cb & _).
  destruct (letta_block_frame self query limit
              (chroma_block self query limit r1)) as (La & Lb & _).
  now rewrite La, Lb, Ca, Cb.
Qed.

(** X19: the facts of Mem0 are taken all or none: if one entry of the
    answer is not a dict, [recall] returns no Mem0 result at all, whatever
    the other entries are, and records the message of the
    [AttributeError] that [r.get] raises on the first such entry, which
    names the type of that entry. *)
Theorem recall_mem0_all_or_none (self : Self) (now query : string)
  (limit : Z) (resp : Mem0Response) (r : Results)
  (dicts : list Mem0Item) (ty : string) (rest : list Mem0Entry) :
  mem0_search self query limit = Return resp ->
  mem0_entries resp = map EntryDict dicts ++ EntryOther ty :: rest ->
  recall self now query limit = Return r ->
  r_mem0 r = []
  /\ r_mem0_error r
     = Some ("'" ++ ty ++ "' object has no attribute 'get'")%string.
Proof.
  intros Hs Hin Hr. destruct (recall_mem0 _ _ _ _ _ Hr) as [-> ->].
  unfold mem0_block. rewrite Hs. simpl bind.
  fold (mem0_entries resp). rewrite Hin, map_exc_not_dict. now split.
Qed.

(** X19 at an answer of one fact and one string. *)
Lemma recall_mem0_all_or_none_witness :
  r_mem0 (sample_recall self_mixed_mem0 5) = []
  /\ r_mem0_error (sample_recall self_mixed_mem0 5)
     = Some "'str' object has no attribute 'get'".
Proof.
  apply (recall_mem0_all_or_none self_mixed_mem0 "now" "tea" 5
           (RespList [EntryDict (mkMem0Item (Some "likes tea") None
                                   (Some (9 # 10)) "");
                      EntryOther "str"])
           (sample_recall self_mixed_mem0 5)
           [mkMem0Item (Some "likes tea") None (Some (9 # 10)) ""] "str" []).
  - reflexivity.
  - reflexivity.
  - reflexivity.
Defined.

(** X20: every Mem0 result of [recall] carries a score, the backend's or 0,
    so [recall_unified] never gives a Mem0 result its own default of 0.5:
    the normalized score is the backend's score, or 0 without one. *)
Theorem mem0_score_reported_or_zero (self : Self) (now query : string)
  (limit : Z) (r : Results) (h : Mem0Hit) :
  recall self now query limit = Return r ->
  In h (r_mem0 r) ->
  exists resp raw,
    mem0_search self query limit = Return resp
    /\ In (EntryDict raw) (mem0_entries resp)
    /\ mh_score h = Some (with_default (m_score raw) 0%Q)
    /\ n_score (from_mem0 h) = with_default (m_score raw) 0%Q.
Proof.
  intros Hr Hin. destruct (recall_mem0 _ _ _ _ _ Hr) as [Hm _].
  rewrite Hm in Hin. unfold mem0_block in Hin.
  destruct (mem0_search self query limit) as [resp|e]; [|destruct Hin].
  simpl bind in Hin. fold (mem0_entries resp) in Hin.
  destruct (map_exc mem0_hit (mem0_entries resp)) as [hits|e] eqn:E;
    [|destruct Hin].
  simpl in Hin. destruct (map_exc_hits _ _ E h Hin) as (raw & H1 & H2).
  exists resp, raw. repeat split; auto.
  unfold from_mem0. simpl. now rewrite H2.
Qed.

(** X20 at a fact without a score. *)
Lemma mem0_score_reported_or_zero_witness :
  exists resp raw,
    mem0_search self_unscored "tea" 10 = Return resp
    /\ In (EntryDict raw) (mem0_entries resp)
    /\ mh_score (mkMem0Hit "likes tea" (Some 0%Q) "mem0")
       = Some (with_default (m_score raw) 0%Q)
    /\ n_score (from_mem0 (mkMem0Hit "likes tea" (Some 0%Q) "mem0"))
       = with_default (m_score raw) 0%Q.
Proof.
  apply (mem0_score_reported_or_zero self_unscored "now" "tea" 10
           (sample_recall self_unscored 10)).
  - reflexivity.
  - simpl. now left.
Defined.

(** X21: a Letta answer whose status is not 200 is dropped without a
    trace: no Letta result and no [letta_error]. *)
Theorem recall_drops_letta_failure_status (self : Self) (now query : string)
  (limit : Z) (client : string -> string -> Z -> exc HttpResponse)
  (agent : string) (resp : HttpResponse) (r : Results) :
  letta_ready self = Some (client, agent) ->
  client agent query limit = Return resp ->
  status_code resp <> 200 ->
  recall self now query limit = Return r ->
  r_letta r = [] /\ r_letta_error r = None.
Proof.
  intros Hl Hc Hs [= <-].
  set (r2 := chroma_block self query limit _).
  assert (H2 : r_letta r2 = [] /\ r_letta_error r2 = None).
  { unfold r2.
    destruct (chroma_block_frame self query limit
                (mem0_block self query limit
                   (mkResults query now [] [] [] None None None)))
      as (_ & _ & Cc & Cd).
    destruct (mem0_block_frame self query limit
                (mkResults query now [] [] [] None None None))
      as (_ & _ & Mc & Md).
    now rewrite Cc, Cd, Mc, Md. }
  unfold letta_block. rewrite Hl, Hc. simpl.
  destruct (Z.eqb_spec (status_code resp) 200); [contradiction | exact H2].
Qed.

(** X21 at a Letta server that answers 500. *)
Lemma recall_drops_letta_failure_status_witness :
  r_letta (sample_recall self_letta_500 5) = []
  /\ r_letta_error (sample_recall self_letta_500 5) = None.
Proof.
  apply (recall_drops_letta_failure_status self_letta_500 "now" "tea" 5
           (fun _ _ _ =>
              Return (mkHttpResponse 500
                        (Return [mkLettaItem (Some "passage")])))
           "agent-1"
           (mkHttpResponse 500 (Return [mkLettaItem (Some "passage")]))).
  - reflexivity.
  - reflexivity.
  - discriminate.
  - reflexivity.
Defined.

(** ** Normalized scores and texts *)

From Stdlib Require Import Lqa.

(** X22: the score of a vector-store hit at distance [d] is never
    negative; it is at most 1 when [d] is not negative and 0 from distance
    1 on; [min(d, 1)] clamps on one side only, so the score is at least 1
    for a negative distance and at least 2 from distance -1 down.  The
    bounds are 0, 1 and 2, which the rounding of the subtraction in floating
    point keeps. *)
Theorem chroma_score_bounds (path_name : string -> string) (item : ChromaHit)
  (d : Q) :
  ch_distance item = Some d ->
  (0 <= n_score (from_chroma path_name item))%Q
  /\ ((0 <= d)%Q -> (n_score (from_chroma path_name item) <= 1)%Q)
  /\ ((1 <= d)%Q -> (n_score (from_chroma path_name item) == 0)%Q)
  /\ ((d < 0)%Q -> (1 <= n_score (from_chroma path_name item))%Q)
  /\ ((d <= -1)%Q -> (2 <= n_score (from_chroma path_name item))%Q).
Proof.
  intros Hd. unfold from_chroma. simpl. rewrite Hd. simpl. unfold min_one.
  destruct (Qle_bool d 1) eqn:E.
  - apply Qle_bool_iff in E. repeat split; intros; lra.
  - assert (H : ~ (d <= 1)%Q) by (rewrite <- Qle_bool_iff; congruence).
    repeat split; intros; lra.
Qed.

(** X22 at distance -3/2: the score is above 1. *)
Lemma chroma_score_bounds_witness :
  (2 <= n_score (from_chroma (fun s => s) far_hit))%Q.
Proof.
  apply (chroma_score_bounds (fun s => s) far_hit (-3 # 2)).
  - reflexivity.
  - vm_compute. discriminate.
Defined.

Lemma take_length (n : nat) (s : string) : (String.length (take n s) <= n)%nat.
Proof.
  revert s. induction n as [|n IH]; intros s; [simpl; lia|].
  destruct s as [|c r]; simpl; [lia|]. specialize (IH r). lia.
Qed.

Section Unified.

Variable md5_hex : string -> string.
Variable path_name : string -> string.

Lemma rank_incl (all_results : list Normalized) (L : Z) :
  incl (rank md5_hex all_results L) all_results.
Proof.
  intros x Hx. unfold Recall.rank in Hx. rewrite dedupe_eq in Hx.
  destruct (slice_to_firstn L (dedupe_from md5_hex [] (sorted_desc all_results)))
    as [m Hm].
  rewrite Hm in Hx. apply In_firstn, dedupe_from_incl in Hx as [Hx _].
  now apply (Permutation_in _ (sorted_desc_perm all_results)).
Qed.

Lemma rank_length (all_results : list Normalized) (L : Z) :
  0 <= L -> Z.of_nat (List.length (rank md5_hex all_results L)) <= L.
Proof.
  intros HL. unfold Recall.rank, Recall.slice_to, Chunker.slice_to.
  destruct (Z.ltb_spec L 0); [lia|]. rewrite length_firstn. lia.
Qed.

(** X23: [recall_unified] asks every backend for twice the limit, returns
    only results that were merged from their answers, and for a limit that
    is not negative returns at most that many. *)
Theorem recall_unified_within_limit (self : Self) (now query : string)
  (limit : Z) (out : list Normalized) :
  recall_unified md5_hex path_name self now query limit = Return out ->
  exists raw,
    recall self now query (limit * 2) = Return raw
    /\ incl out (merge path_name raw)
    /\ (0 <= limit -> Z.of_nat (List.length out) <= limit).
Proof.
  unfold recall_unified, bind.
  destruct (recall self now query (limit * 2)) as [raw|e]; [|discriminate].
  intros [= <-]. exists raw. split; [reflexivity|].
  split; [apply rank_incl | apply rank_length].
Qed.

(** X24: every returned result that does not come from Mem0 has a text of
    at most 500 characters. *)
Theorem recall_unified_truncates (self : Self) (now query : string)
  (limit : Z) (out : list Normalized) (x : Normalized) :
  recall_unified md5_hex path_name self now query limit = Return out ->
  In x out ->
  n_source x = "mem0" \/ (String.length (n_text x) <= 500)%nat.
Proof.
  unfold recall_unified, bind.
  destruct (recall self now query (limit * 2)) as [raw|e]; [|discriminate].
  intros [= <-] Hin. apply rank_incl in Hin. unfold merge in Hin.
  apply in_app_or in Hin as [Hin | Hin];
    [|apply in_app_or in Hin as [Hin | Hin]];
    apply in_map_iff in Hin as (h & <- & _).
  - now left.
  - right. unfold from_chroma. cbn [n_text]. apply take_length.
  - right. unfold from_letta. cbn [n_text]. apply take_length.
Qed.

Lemma sorted_desc_id (l : list Normalized) :
  StronglySorted outranks l -> sorted_desc l = l.
Proof.
  induction 1 as [|x l Hl IH Hx]; [reflexivity|]. simpl. rewrite IH.
  destruct l as [|y r]; [reflexivity|]. simpl.
  inversion Hx as [|? ? Hy _]; subst.
  apply Qle_bool_iff in Hy. now rewrite Hy.
Qed.

Lemma dedupe_from_id (l : list Normalized) :
  forall seen,
    NoDup (map (text_hash md5_hex) l) ->
    (forall x, In x l -> ~ In (text_hash md5_hex x) seen) ->
    dedupe_from md5_hex seen l = l.
Proof.
  induction l as [|a l IH]; intros seen Hn Hs; [reflexivity|]. simpl.
  inversion Hn as [|? ? Ha Hl]; subst.
  destruct (existsb _ seen) eqn:E.
  - apply seen_spec in E. elim (Hs a); [now left | exact E].
  - f_equal. apply IH; [exact Hl|].
    intros x Hx [Heq | Hin].
    + apply Ha. rewrite Heq. now apply in_map.
    + apply (Hs x); [now right | exact Hin].
Qed.

Lemma slice_to_all {A} (L : Z) (l : list A) :
  Z.of_nat (List.length l) <= L -> Recall.slice_to L l = l.
Proof.
  intros H. unfold Recall.slice_to, Chunker.slice_to.
  destruct (Z.ltb_spec L 0); [lia|]. apply firstn_all2. lia.
Qed.

Lemma rank_fixed (l : list Normalized) (L : Z) :
  StronglySorted outranks l ->
  NoDup (map (text_hash md5_hex) l) ->
  Z.of_nat (List.length l) <= L ->
  rank md5_hex l L = l.
Proof.
  intros Hs Hn Hl. unfold Recall.rank.
  rewrite dedupe_eq, (sorted_desc_id l Hs), dedupe_from_id, slice_to_all; auto.
Qed.

(** X25: when the digests of the merged results are pairwise distinct and
    the limit is at least their number, nothing is dropped: the returned
    list is the merged results, reordered. *)
Theorem rank_keeps_distinct_results (all_results : list Normalized) (L : Z) :
  NoDup (map (text_hash md5_hex) all_results) ->
  Z.of_nat (List.length all_results) <= L ->
  Permutation (rank md5_hex all_results L) all_results.
Proof.
  intros Hn Hl. unfold Recall.rank.
  pose proof (sorted_desc_perm all_results) as Hp.
  rewrite dedupe_eq, dedupe_from_id, slice_to_all; auto.
  - rewrite (Permutation_length Hp). exact Hl.
  - apply (Permutation_NoDup (l := map (text_hash md5_hex) all_results));
      [|exact Hn].
    apply Permutation_map. now symmetry.
Qed.

(** X26: ranking is idempotent for a limit that is not negative: a list
    that was returned comes back unchanged when ranked again. *)
Theorem rank_idempotent (all_results : list Normalized) (L : Z) :
  0 <= L ->
  rank md5_hex (rank md5_hex all_results L) L = rank md5_hex all_results L.
Proof.
  intros HL. apply rank_fixed; [| |now apply rank_length].
  - unfold Recall.rank. rewrite dedupe_eq.
    destruct (slice_to_firstn L
                (dedupe_from md5_hex [] (sorted_desc all_results))) as [m ->].
    apply StronglySorted_firstn, dedupe_from_sorted, sorted_desc_sorted.
  - unfold Recall.rank. rewrite dedupe_eq.
    destruct (slice_to_firstn L
                (dedupe_from md5_hex [] (sorted_desc all_results))) as [m ->].
    rewrite <- firstn_map. apply NoDup_firstn, dedupe_from_nodup.
Qed.

End Unified.

(** X23 at the scored fact. *)
Lemma recall_unified_within_limit_witness :
  exists raw,
    recall self_scored "now" "tea" (1 * 2) = Return raw
    /\ incl [mkNormalized "likes tea" "mem0" None (9 # 10)]
            (merge (fun s => s) raw)
    /\ (0 <= 1 ->
        Z.of_nat
          (List.length [mkNormalized "likes tea" "mem0" None (9 # 10)]) <= 1).
Proof.
  apply (recall_unified_within_limit (fun s => s) (fun s => s) self_scored
           "now" "tea" 1).
  reflexivity.
Defined.

(** X24 at a document of the vector store. *)
Lemma recall_unified_truncates_witness :
  n_source (from_chroma (fun s => s)
              (mkChromaHit "first" (Some "/m/a.md") (Some "A") (Some (1 # 4))
                 "chroma")) = "mem0"
  \/ (String.length
        (n_text (from_chroma (fun s => s)
                   (mkChromaHit "first" (Some "/m/a.md") (Some "A")
                      (Some (1 # 4)) "chroma"))) <= 500)%nat.
Proof.
  apply (recall_unified_truncates (fun s => s) (fun s => s)
           self_two_documents "now" "tea" 5
           (sample_rank (merge (fun s => s)
                           (sample_recall self_two_documents 10)) 5)).
  - reflexivity.
  - vm_compute. left. reflexivity.
Defined.

(** X25 at three results of distinct prefixes. *)
Lemma rank_keeps_distinct_results_witness :
  Permutation (sample_rank three_results 3) three_results.
Proof.
  apply (rank_keeps_distinct_results (fun s => s) three_results 3).
  - simpl. repeat constructor; simpl; intuition discriminate.
  - simpl. lia.
Defined.

(** X26 at the same results and a limit of two. *)
Lemma rank_idempotent_witness :
  sample_rank (sample_rank three_results 2) 2 = sample_rank three_results 2.
Proof.
  apply (rank_idempotent (fun s => s) three_results 2). lia.
Defined.
